(** * Cradle mobile client: streaming upload pipeline and socket connection manager

    A shallow embedding of
      - [src/mobile/src/services/StreamingService.ts] (class [StreamingService]) and
      - [src/mobile/src/services/WebSocketService.tsx] (component [WebSocketProvider]),
    followed by the properties of the specification that concern them.

    Both sources are event driven: an [async] method runs until its first
    [await], is suspended, and is resumed later by the JavaScript event loop.
    Each module below therefore has a record for the object's fields together
    with the suspended calls and armed timers, an [Event] type for what the
    host application and the platform can do next, and a total function
    [step] that runs the code triggered by one event up to its next
    suspension point. *)

From Stdlib Require Import ZArith Lia Bool Floats DecimalString.
From stdpp Require Import base tactics option list strings gmap.

Local Open Scope Z_scope.
Local Open Scope nat_scope.

(* ===================================================================== *)
(** * StreamingService.ts                                                  *)
(* ===================================================================== *)
Module Streaming.

(** [chunk_type: 'audio' | 'video'] *)
Inductive ChunkType := audio | video.

(** [interface StreamSession].  [started_at] is the clock reading that
    [new Date().toISOString()] prints. *)
Record StreamSession := {
  session_id : string;
  device_id : string;
  started_at : Z;
  ended_at : option Z;
  duration_seconds : option Z;
  is_active : bool
}.

(** [interface StreamChunk]; its [session_id] field is [chunk_session_id]
    here, as the projection name is taken by [StreamSession]. *)
Record StreamChunk := {
  chunk_type : ChunkType;
  data : list Byte.byte;
  timestamp : Z;
  chunk_session_id : string
}.

(** Where a suspended [uploadSingleChunk] is waiting. *)
Inductive UploadPhase :=
| AwaitWriteFile                      (* await RNFS.writeFile(tempPath, ...) *)
| AwaitFetch (url_session : string)   (* await fetch(`.../upload-chunk/${id}?...`) *)
| AwaitUnlink.                        (* await RNFS.unlink(tempPath) *)

(** A suspended [processChunkQueue]: the chunk of [chunksToUpload] whose
    upload is in flight and the chunks of the batch still to come. *)
Record FlushTask := {
  current : StreamChunk;
  phase : UploadPhase;
  remaining : list StreamChunk
}.

(** How [fetch] settles. *)
Inductive FetchResult :=
| ResponseOk                 (* response.ok *)
| ResponseNotOk (status : Z) (* !response.ok *)
| FetchRejected.             (* network failure *)

(** What the outside world sees of the pipeline. *)
Inductive Obs :=
| ReqStartSession (deviceId : string)           (* POST /streams/start-session/{deviceId} *)
| ReqEndSession (sid : string)                  (* POST /streams/end-session/{sid} *)
| ReqUploadChunk (sid : string) (c : StreamChunk) (* POST /streams/upload-chunk/{sid} *)
| UploadAccepted (sid : string) (c : StreamChunk) (* the backend answered ok *)
| StartSessionReturned (s : StreamSession)
| StartSessionThrew
| EndSessionReturned
| EndSessionThrew
| ConsoleLog (msg : string)
| ConsoleWarn (msg : string)
| ConsoleError (msg : string).

(** The four private fields of the class, then the runtime around it:
    armed [setInterval] handles, suspended calls (a slot per call, [None]
    once it has settled) and the observations so far. *)
Record State := {
  currentSession : option StreamSession;
  isStreaming : bool;
  chunkQueue : list StreamChunk;
  uploadInterval : option nat;
  intervals : list nat;
  nextHandle : nat;
  flushes : list (option FlushTask);
  startCalls : list (option string);
  endCalls : list (option string);
  trace : list Obs
}.

Definition init : State := {|
  currentSession := None; isStreaming := false; chunkQueue := [];
  uploadInterval := None; intervals := []; nextHandle := 1;
  flushes := []; startCalls := []; endCalls := []; trace := []
|}.

(** ** Field updates *)

Definition set_currentSession (v : option StreamSession) (st : State) : State :=
  {| currentSession := v; isStreaming := isStreaming st; chunkQueue := chunkQueue st;
     uploadInterval := uploadInterval st; intervals := intervals st;
     nextHandle := nextHandle st; flushes := flushes st;
     startCalls := startCalls st; endCalls := endCalls st; trace := trace st |}.

Definition set_isStreaming (v : bool) (st : State) : State :=
  {| currentSession := currentSession st; isStreaming := v; chunkQueue := chunkQueue st;
     uploadInterval := uploadInterval st; intervals := intervals st;
     nextHandle := nextHandle st; flushes := flushes st;
     startCalls := startCalls st; endCalls := endCalls st; trace := trace st |}.

Definition set_chunkQueue (v : list StreamChunk) (st : State) : State :=
  {| currentSession := currentSession st; isStreaming := isStreaming st; chunkQueue := v;
     uploadInterval := uploadInterval st; intervals := intervals st;
     nextHandle := nextHandle st; flushes := flushes st;
     startCalls := startCalls st; endCalls := endCalls st; trace := trace st |}.

Definition set_timer (ref : option nat) (armed : list nat) (next : nat) (st : State) : State :=
  {| currentSession := currentSession st; isStreaming := isStreaming st;
     chunkQueue := chunkQueue st;
     uploadInterval := ref; intervals := armed; nextHandle := next;
     flushes := flushes st;
     startCalls := startCalls st; endCalls := endCalls st; trace := trace st |}.

Definition set_flushes (v : list (option FlushTask)) (st : State) : State :=
  {| currentSession := currentSession st; isStreaming := isStreaming st;
     chunkQueue := chunkQueue st;
     uploadInterval := uploadInterval st; intervals := intervals st;
     nextHandle := nextHandle st; flushes := v;
     startCalls := startCalls st; endCalls := endCalls st; trace := trace st |}.

Definition set_startCalls (v : list (option string)) (st : State) : State :=
  {| currentSession := currentSession st; isStreaming := isStreaming st;
     chunkQueue := chunkQueue st;
     uploadInterval := uploadInterval st; intervals := intervals st;
     nextHandle := nextHandle st; flushes := flushes st;
     startCalls := v; endCalls := endCalls st; trace := trace st |}.

Definition set_endCalls (v : list (option string)) (st : State) : State :=
  {| currentSession := currentSession st; isStreaming := isStreaming st;
     chunkQueue := chunkQueue st;
     uploadInterval := uploadInterval st; intervals := intervals st;
     nextHandle := nextHandle st; flushes := flushes st;
     startCalls := startCalls st; endCalls := v; trace := trace st |}.

Definition emit (os : list Obs) (st : State) : State :=
  {| currentSession := currentSession st; isStreaming := isStreaming st;
     chunkQueue := chunkQueue st;
     uploadInterval := uploadInterval st; intervals := intervals st;
     nextHandle := nextHandle st; flushes := flushes st;
     startCalls := startCalls st; endCalls := endCalls st; trace := trace st ++ os |}.

(** ** The methods *)

(** [uploadSingleChunk], up to its first [await].  It opens with
    [if (!this.currentSession) return;]: with no session it returns at once
    ([None]: nothing is uploaded and nothing is thrown); otherwise it builds
    the temporary path and suspends on [RNFS.writeFile].  Its later stages
    are [writeFileDone], [fetchDone] and [unlinkDone] below. *)
Definition uploadSingleChunk (chunk : StreamChunk) (st : State) : option UploadPhase :=
  match currentSession st with
  | None => None
  | Some _ => Some AwaitWriteFile
  end.

(** The [for (const chunk of chunksToUpload)] loop of [processChunkQueue],
    from the chunk it is about to start, for the suspended call in slot [i].
    A chunk whose [uploadSingleChunk] returns at once is passed over (it is
    not put back: nothing was thrown) and the loop goes on; otherwise the
    loop is suspended on that upload. *)
Fixpoint forLoop (i : nat) (chunks : list StreamChunk) (st : State) : State :=
  match chunks with
  | [] => set_flushes (<[i := None]> (flushes st)) st
  | c :: rest =>
      match uploadSingleChunk c st with
      | None => forLoop i rest st
      | Some ph =>
          set_flushes
            (<[i := Some {| current := c; phase := ph; remaining := rest |}]>
               (flushes st)) st
      end
  end.

(** [processChunkQueue]: [splice(0, 10)] takes the first ten chunks out of
    the queue. *)
Definition processChunkQueue (st : State) : State :=
  if (length (chunkQueue st) =? 0) || negb (bool_decide (is_Some (currentSession st)))
  then st
  else
    let chunksToUpload := take 10 (chunkQueue st) in
    let st1 := set_chunkQueue (drop 10 (chunkQueue st)) st in
    let i := length (flushes st1) in
    forLoop i chunksToUpload (set_flushes (flushes st1 ++ [None]) st1).

(** The [catch] of [processChunkQueue], reached when [uploadSingleChunk]
    throws (after its own [catch] logged and re-threw), then the rest of the
    loop. *)
Definition uploadFailed (i : nat) (t : FlushTask) (st : State) : State :=
  let st1 := emit [ConsoleError "Chunk upload failed:"; ConsoleError "Failed to upload chunk:"] st in
  let st2 :=
    if length (chunkQueue st1) <? 30
    then set_chunkQueue (current t :: chunkQueue st1) st1
    else st1 in
  forLoop i (remaining t) st2.

Definition startChunkUploader (st : State) : State :=
  let h := nextHandle st in
  set_timer (Some h) (intervals st ++ [h]) (S h) st.

Definition stopChunkUploader (st : State) : State :=
  let st1 :=
    match uploadInterval st with
    | Some h => set_timer None (filter (λ x, x ≠ h) (intervals st)) (nextHandle st) st
    | None => st
    end in
  processChunkQueue st1.

(** [startSession], up to [await this.makeRequest(...)]. *)
Definition startSession (deviceId : string) (st : State) : State :=
  set_startCalls (startCalls st ++ [Some deviceId]) (emit [ReqStartSession deviceId] st).

(** [startSession], resumed: [r] is [Some session_id] when the request
    resolved and [None] when [makeRequest] threw. *)
Definition startSessionResumed (deviceId : string) (r : option string) (now : Z)
    (st : State) : State :=
  match r with
  | Some sid =>
      let s := {| session_id := sid; device_id := deviceId; started_at := now;
                  ended_at := None; duration_seconds := None; is_active := true |} in
      let st1 := set_isStreaming true (set_currentSession (Some s) st) in
      let st2 := startChunkUploader st1 in
      emit [ConsoleLog "Streaming session started:"; StartSessionReturned s] st2
  | None =>
      emit [ConsoleError "Failed to start streaming session:"; StartSessionThrew] st
  end.

(** [endSession], up to [await this.makeRequest(...)]. *)
Definition endSession (st : State) : State :=
  match currentSession st with
  | None => emit [EndSessionReturned] st
  | Some _ =>
      let st1 := stopChunkUploader (set_isStreaming false st) in
      match currentSession st1 with
      | Some s =>
          set_endCalls (endCalls st1 ++ [Some (session_id s)])
            (emit [ReqEndSession (session_id s)] st1)
      | None =>
          emit [ConsoleError "Failed to end streaming session:"; EndSessionThrew] st1
      end
  end.

(** [endSession], resumed.  After a successful request the code evaluates
    [this.currentSession.session_id] for its log line, which throws when the
    field has been cleared in the meantime. *)
Definition endSessionResumed (ok : bool) (st : State) : State :=
  if ok then
    match currentSession st with
    | Some _ =>
        emit [EndSessionReturned]
          (set_currentSession None (emit [ConsoleLog "Streaming session ended:"] st))
    | None => emit [ConsoleError "Failed to end streaming session:"; EndSessionThrew] st
    end
  else emit [ConsoleError "Failed to end streaming session:"; EndSessionThrew] st.

(** [uploadChunk]: [push], then [shift] when the length exceeds 50. *)
Definition uploadChunk (chunkType : ChunkType) (d : list Byte.byte) (now : Z)
    (st : State) : State :=
  match currentSession st with
  | Some s =>
      if isStreaming st then
        let chunk := {| chunk_type := chunkType; data := d; timestamp := now;
                        chunk_session_id := session_id s |} in
        let q := chunkQueue st ++ [chunk] in
        set_chunkQueue (if 50 <? length q then drop 1 q else q) st
      else emit [ConsoleWarn "No active session, chunk discarded"] st
  | None => emit [ConsoleWarn "No active session, chunk discarded"] st
  end.

Definition cleanup (st : State) : State :=
  set_isStreaming false (set_currentSession None (set_chunkQueue [] (stopChunkUploader st))).


Definition isSessionActive (st : State) : bool :=
  isStreaming st && bool_decide (is_Some (currentSession st)).

Definition getQueueSize (st : State) : nat := length (chunkQueue st).

(** ** Resuming a suspended upload: the later stages of [uploadSingleChunk] *)

(** [RNFS.writeFile] settled.  On success the code builds the upload URL
    from [this.currentSession.session_id] (a [TypeError] when the session has
    been cleared since the guard) and issues the [fetch]. *)
Definition writeFileDone (i : nat) (t : FlushTask) (ok : bool) (st : State) : State :=
  if ok then
    match currentSession st with
    | Some s =>
        set_flushes
          (<[i := Some {| current := current t; phase := AwaitFetch (session_id s);
                          remaining := remaining t |}]> (flushes st))
          (emit [ReqUploadChunk (session_id s) (current t)] st)
    | None => uploadFailed i t st
    end
  else uploadFailed i t st.

Definition fetchDone (i : nat) (t : FlushTask) (sid : string) (r : FetchResult)
    (st : State) : State :=
  match r with
  | ResponseOk =>
      set_flushes
        (<[i := Some {| current := current t; phase := AwaitUnlink;
                        remaining := remaining t |}]> (flushes st))
        (emit [UploadAccepted sid (current t)] st)
  | ResponseNotOk _ | FetchRejected => uploadFailed i t st
  end.

Definition unlinkDone (i : nat) (t : FlushTask) (ok : bool) (st : State) : State :=
  if ok then forLoop i (remaining t) st else uploadFailed i t st.

(** ** Events *)

Inductive Event :=
| CallStartSession (deviceId : string)
| StartSessionResponse (call : nat) (r : option string) (now : Z)
| CallEndSession
| EndSessionResponse (call : nat) (ok : bool)
| CallUploadChunk (chunkType : ChunkType) (d : list Byte.byte) (now : Z)
| IntervalFires (h : nat)
| WriteFileDone (task : nat) (ok : bool)
| FetchDone (task : nat) (r : FetchResult)
| UnlinkDone (task : nat) (ok : bool)
| CallCleanup.

(** An event that has nothing to resume (a settled call, a cleared timer, a
    task waiting for something else) leaves the state as it is. *)
Definition step (st : State) (ev : Event) : State :=
  match ev with
  | CallStartSession deviceId => startSession deviceId st
  | StartSessionResponse call r now =>
      match startCalls st !! call with
      | Some (Some deviceId) =>
          startSessionResumed deviceId r now
            (set_startCalls (<[call := None]> (startCalls st)) st)
      | _ => st
      end
  | CallEndSession => endSession st
  | EndSessionResponse call ok =>
      match endCalls st !! call with
      | Some (Some _) =>
          endSessionResumed ok (set_endCalls (<[call := None]> (endCalls st)) st)
      | _ => st
      end
  | CallUploadChunk ty d now => uploadChunk ty d now st
  | IntervalFires h =>
      if bool_decide (h ∈ intervals st) then processChunkQueue st else st
  | WriteFileDone i ok =>
      match flushes st !! i with
      | Some (Some t) =>
          match phase t with
          | AwaitWriteFile => writeFileDone i t ok st
          | _ => st
          end
      | _ => st
      end
  | FetchDone i r =>
      match flushes st !! i with
      | Some (Some t) =>
          match phase t with
          | AwaitFetch sid => fetchDone i t sid r st
          | _ => st
          end
      | _ => st
      end
  | UnlinkDone i ok =>
      match flushes st !! i with
      | Some (Some t) =>
          match phase t with
          | AwaitUnlink => unlinkDone i t ok st
          | _ => st
          end
      | _ => st
      end
  | CallCleanup => cleanup st
  end.

Definition run (st : State) (evs : list Event) : State := foldl step st evs.

(** ** Vocabulary of the properties and the runs they are checked on *)

(** A submission: the arguments of one [uploadChunk] call and the clock
    reading [Date.now()] gives it. *)
Definition Submission : Type := ChunkType * list Byte.byte * Z.

Definition submit (x : Submission) : Event :=
  let '(ty, d, now) := x in CallUploadChunk ty d now.

(** The chunk [uploadChunk] builds from a submission under session [s]. *)
Definition stamp (s : StreamSession) (x : Submission) : StreamChunk :=
  let '(ty, d, now) := x in
  {| chunk_type := ty; data := d; timestamp := now; chunk_session_id := session_id s |}.

(** Does event [ev] make the upload in flight for task [t] of slot [i]
    throw?  A rejected file write, a [TypeError] on a cleared session when
    the URL is built, a rejected or not-ok [fetch], a rejected unlink. *)
Definition uploadThrows (st : State) (i : nat) (t : FlushTask) (ev : Event) : bool :=
  match phase t, ev with
  | AwaitWriteFile, WriteFileDone j ok =>
      (j =? i) && (negb ok || negb (bool_decide (is_Some (currentSession st))))
  | AwaitFetch _, FetchDone j r =>
      (j =? i) && match r with ResponseOk => false | _ => true end
  | AwaitUnlink, UnlinkDone j ok => (j =? i) && negb ok
  | _, _ => false
  end.

Definition isUploadFailure (o : Obs) : bool :=
  match o with
  | ConsoleError msg => String.eqb msg "Failed to upload chunk:"
  | _ => false
  end.

(** How many times the [catch] of [processChunkQueue] ran. *)
Definition failedUploads (st : State) : nat :=
  length (List.filter isUploadFailure (trace st)).

(** The uploads the backend was asked for, and those it accepted, each with
    the session id in the request URL. *)
Definition requestedUploads (st : State) : list (string * StreamChunk) :=
  omap (λ o, match o with ReqUploadChunk sid c => Some (sid, c) | _ => None end) (trace st).

Definition acceptedUploads (st : State) : list (string * StreamChunk) :=
  omap (λ o, match o with UploadAccepted sid c => Some (sid, c) | _ => None end) (trace st).

(** The backend requests other than chunk uploads. *)
Definition isSessionRequest (o : Obs) : bool :=
  match o with
  | ReqStartSession _ | ReqEndSession _ => true
  | _ => false
  end.

(** One flush tick of timer [h] whose first upload is refused by the
    backend. *)
Definition failingTick (h : nat) (st : State) : State :=
  let i := length (flushes st) in
  run st [IntervalFires h; WriteFileDone i true; FetchDone i (ResponseNotOk 500)].

(** Session "A" is started and acknowledged; its flush timer has handle 1. *)
Definition startA : list Event :=
  [CallStartSession "dev"; StartSessionResponse 0 (Some "A") 1000%Z].

(** The [k]-th audio chunk of session "A". *)
Definition chunkA (k : nat) : StreamChunk :=
  {| chunk_type := audio; data := []; timestamp := Z.of_nat k; chunk_session_id := "A" |}.

Definition submits (n : nat) : list Event :=
  map (λ k, CallUploadChunk audio [] (Z.of_nat k)) (seq 1 n).

(** The three awaits of one upload of task [i] all succeed. *)
Definition uploadSucceeds (i : nat) : list Event :=
  [WriteFileDone i true; FetchDone i ResponseOk; UnlinkDone i true].

(** A flush tick of timer 1 as task [i], whose upload the backend answers
    with status 500. *)
Definition tickFails (i : nat) : list Event :=
  [IntervalFires 1; WriteFileDone i true; FetchDone i (ResponseNotOk 500)].

(** One chunk is queued and its upload fails on 31 ticks in a row. *)
Definition thirtyOneFailures : list Event :=
  startA ++ submits 1 ++ flat_map tickFails (seq 0 31).

(** Eleven chunks are queued, [endSession] is called, every upload of the
    terminal flush succeeds, then the backend acknowledges the end. *)
Definition endWithEleven : list Event :=
  startA ++ submits 11 ++ [CallEndSession]
    ++ flat_map (λ _, uploadSucceeds 0) (seq 0 10)
    ++ [EndSessionResponse 0 true].

(** Seven chunks are queued, [endSession] is called and every upload of
    the terminal flush is refused before the backend acknowledges the end. *)
Definition endWithSevenFailing : list Event :=
  startA ++ submits 7 ++ [CallEndSession]
    ++ flat_map (λ _, [WriteFileDone 0 true; FetchDone 0 (ResponseNotOk 500)]) (seq 0 7)
    ++ [EndSessionResponse 0 true].

(** Three chunks are queued, [endSession] is called and the backend
    acknowledges the end before the first file write of the terminal flush
    has completed. *)
Definition endOvertakesFlush : list Event :=
  startA ++ submits 3 ++ [CallEndSession; EndSessionResponse 0 true; WriteFileDone 0 true].

(** The backend refuses to end session "A". *)
Definition endRefused : list Event :=
  startA ++ [CallEndSession; EndSessionResponse 0 false].

(** [startSession] is called again while session "A" is active and the
    backend grants session "B". *)
Definition startTwice : list Event :=
  startA ++ [CallStartSession "dev"; StartSessionResponse 1 (Some "B") 2000%Z].

(** A chunk of session "A" fails in the terminal flush, session "A" ends,
    session "B" starts (flush timer 2) and its first tick uploads. *)
Definition staleChunk : list Event :=
  startA ++ submits 1
    ++ [CallEndSession; WriteFileDone 0 true; FetchDone 0 FetchRejected;
        EndSessionResponse 0 true;
        CallStartSession "dev"; StartSessionResponse 1 (Some "B") 2000%Z;
        IntervalFires 2]
    ++ uploadSucceeds 1.

(** ** The rest of the class *)

(** [String.prototype.includes] on the strings met here. *)
Fixpoint includes (searchString s : string) : bool :=
  String.prefix searchString s ||
  match s with
  | EmptyString => false
  | String _ rest => includes searchString rest
  end.

(** [shouldRetryUpload(error)]; [message] is [error.message], [None] when it
    is undefined. *)
Definition shouldRetryUpload (message : option string) : bool :=
  match message with
  | Some m => if includes "401" m || includes "403" m then false else true
  | None => true
  end.

(** The message of the error [uploadSingleChunk] throws on a response that
    is not ok: [`Upload failed: ${response.status}`]. *)
Definition uploadFailedMessage (status : Z) : string :=
  "Upload failed: " +:+ NilZero.string_of_int (Z.to_int status).

Definition getOptimalChunkSize : Z := 8192%Z.

(** ** Vocabulary of the further properties *)

(** The session ids the backend has granted in the course of [evs]: the
    ids carried by its answers to start-session requests. *)
Definition grantedSessions (evs : list Event) : list string :=
  omap (λ ev, match ev with
              | StartSessionResponse _ (Some sid) _ => Some sid
              | _ => None
              end) evs.

(** A suspended flush only holds chunks stamped with ids of [G] and only
    waits for a request addressed to an id of [G]. *)
Definition taskKnown (G : list string) (t : FlushTask) : Prop :=
  Forall (λ c, chunk_session_id c ∈ G) (current t :: remaining t) ∧
  match phase t with
  | AwaitFetch sid => sid ∈ G
  | _ => True
  end.

(** The chunks the pipeline holds, queued or in a suspended flush, are
    stamped with ids of [G]. *)
Definition heldKnown (G : list string) (st : State) : Prop :=
  Forall (λ c, chunk_session_id c ∈ G) (chunkQueue st) ∧
  (∀ i t, flushes st !! i = Some (Some t) → taskKnown G t).

(** Every session id the pipeline holds or has used is one of [G]: the
    current session, the stamps of the queued and in-flight chunks, and the
    address and the chunk of every upload requested or accepted. *)
Definition sessionsKnown (G : list string) (st : State) : Prop :=
  (∀ s, currentSession st = Some s → session_id s ∈ G) ∧
  heldKnown G st ∧
  Forall (λ x, x.1 ∈ G ∧ chunk_session_id x.2 ∈ G) (requestedUploads st) ∧
  Forall (λ x, x.1 ∈ G ∧ chunk_session_id x.2 ∈ G) (acceptedUploads st).

(** Where an observation added by a step from [st] to [st'] comes from. *)
Definition justified (st st' : State) (o : Obs) : Prop :=
  match o with
  | ReqUploadChunk sid c =>
      (∃ s, currentSession st = Some s ∧ sid = session_id s) ∧
      ∃ i t, flushes st !! i = Some (Some t) ∧ c = current t
  | UploadAccepted sid c =>
      ∃ i t, flushes st !! i = Some (Some t) ∧ phase t = AwaitFetch sid ∧ c = current t
  | StartSessionReturned s => currentSession st' = Some s
  | _ => True
  end.

(** Timer handles are handed out in increasing order, and the handle kept
    in [uploadInterval] is that of an armed timer. *)
Definition timersFresh (st : State) : Prop :=
  Forall (λ h, h < nextHandle st) (intervals st) ∧
  (∀ h, uploadInterval st = Some h → h ∈ intervals st).

(** A flush tick of timer [h] in which every upload of the batch succeeds,
    and one in which the backend cannot be reached for any of them. *)
Definition flushSucceeds (h : nat) (st : State) : State :=
  let i := length (flushes st) in
  run st (IntervalFires h :: flat_map (λ _, uploadSucceeds i) (take 10 (chunkQueue st))).

Definition flushFails (h : nat) (st : State) : State :=
  let i := length (flushes st) in
  run st (IntervalFires h
            :: flat_map (λ _, [WriteFileDone i true; FetchDone i FetchRejected])
                 (take 10 (chunkQueue st))).

(** Chunks [k] to [k + n - 1] are submitted. *)
Definition submitsFrom (k n : nat) : list Event :=
  map (λ k, CallUploadChunk audio [] (Z.of_nat k)) (seq k n).

(** Ten chunks are submitted under session "A" and the upload of each fails
    in the first flush; then the next [n] chunks are submitted. *)
Definition overflowAfterFailedFlush (n : nat) : State :=
  run (flushFails 1 (run init (startA ++ submits 10))) (submitsFrom 11 n).

End Streaming.

(* ===================================================================== *)
(** * WebSocketService.tsx                                                 *)
(* ===================================================================== *)
Module WebSocket.

Definition WS_BASE_URL : string := "ws://localhost:8000".
Definition RECONNECT_INTERVAL : Z := 5000.
Definition MAX_RECONNECT_ATTEMPTS : nat := 10.

(** The [data?: any] of a message: the one payload the provider builds
    itself, or whatever the caller passed. *)
Inductive Payload :=
| DeviceInfo (device_id user_id platform app_version : string)
| Opaque (json : string).

(** [interface WebSocketMessage]; its [type] field is [msg_type]. *)
Record WebSocketMessage := {
  msg_type : string;
  data : option Payload;
  timestamp : option Z;
  device_id : option string
}.

(** The fields of the auth context's [User] that the provider reads. *)
Record User := {
  user_id : string;
  deviceId : option string
}.

Inductive ReadyState := CONNECTING | OPEN | CLOSING | CLOSED.

Inductive ConnectionStatus := connecting | connected | disconnected | error.

Inductive AppStateStatus := active | background | inactive | unknown | extension.

(** A [WebSocket] object of the platform: [sent] is what [send] handed to
    the transport. *)
Record Socket := {
  url : string;
  readyState : ReadyState;
  sent : list WebSocketMessage
}.

(** A pending [setTimeout]. *)
Inductive Timer :=
| ReconnectTimer (delay : Z)  (* armed by scheduleReconnect *)
| ConnectTimer.               (* setTimeout(connect, 1000) of reconnect() *)

Inductive LogEntry :=
| Log (msg : string)
| LogWarn (msg : string)
| LogError (msg : string)
| LogScheduling (attempt : nat) (delay : Z).
    (* `Scheduling reconnect attempt ${attempt} in ${delay}ms` *)

(** The provider: its three [useState] cells (read here as committed at
    once), its four refs, the auth context values, and the platform objects
    it created: sockets (a socket is named by its index) and timeouts (a
    slot per [setTimeout], [None] once fired or cleared). *)
Record State := {
  isConnected : bool;
  connectionStatus : ConnectionStatus;
  lastMessage : option WebSocketMessage;
  wsRef : option nat;
  reconnectTimeoutRef : option nat;
  reconnectAttemptsRef : nat;
  appStateRef : AppStateStatus;
  user : option User;
  token : option string;
  sockets : list Socket;
  timers : list (option Timer);
  console : list LogEntry
}.

Definition init (u : option User) (tk : option string) : State := {|
  isConnected := false; connectionStatus := disconnected; lastMessage := None;
  wsRef := None; reconnectTimeoutRef := None; reconnectAttemptsRef := 0;
  appStateRef := active; user := u; token := tk;
  sockets := []; timers := []; console := []
|}.

(** ** Field updates *)

Definition set_connection (c : bool) (s : ConnectionStatus) (st : State) : State :=
  {| isConnected := c; connectionStatus := s; lastMessage := lastMessage st;
     wsRef := wsRef st; reconnectTimeoutRef := reconnectTimeoutRef st;
     reconnectAttemptsRef := reconnectAttemptsRef st; appStateRef := appStateRef st;
     user := user st; token := token st; sockets := sockets st; timers := timers st;
     console := console st |}.

Definition set_connectionStatus (s : ConnectionStatus) (st : State) : State :=
  set_connection (isConnected st) s st.

Definition set_lastMessage (m : option WebSocketMessage) (st : State) : State :=
  {| isConnected := isConnected st; connectionStatus := connectionStatus st;
     lastMessage := m;
     wsRef := wsRef st; reconnectTimeoutRef := reconnectTimeoutRef st;
     reconnectAttemptsRef := reconnectAttemptsRef st; appStateRef := appStateRef st;
     user := user st; token := token st; sockets := sockets st; timers := timers st;
     console := console st |}.

Definition set_ws (r : option nat) (socks : list Socket) (st : State) : State :=
  {| isConnected := isConnected st; connectionStatus := connectionStatus st;
     lastMessage := lastMessage st;
     wsRef := r; reconnectTimeoutRef := reconnectTimeoutRef st;
     reconnectAttemptsRef := reconnectAttemptsRef st; appStateRef := appStateRef st;
     user := user st; token := token st; sockets := socks; timers := timers st;
     console := console st |}.

Definition set_timeout (r : option nat) (tms : list (option Timer)) (st : State) : State :=
  {| isConnected := isConnected st; connectionStatus := connectionStatus st;
     lastMessage := lastMessage st;
     wsRef := wsRef st; reconnectTimeoutRef := r;
     reconnectAttemptsRef := reconnectAttemptsRef st; appStateRef := appStateRef st;
     user := user st; token := token st; sockets := sockets st; timers := tms;
     console := console st |}.

Definition set_reconnectAttempts (n : nat) (st : State) : State :=
  {| isConnected := isConnected st; connectionStatus := connectionStatus st;
     lastMessage := lastMessage st;
     wsRef := wsRef st; reconnectTimeoutRef := reconnectTimeoutRef st;
     reconnectAttemptsRef := n; appStateRef := appStateRef st;
     user := user st; token := token st; sockets := sockets st; timers := timers st;
     console := console st |}.

Definition set_appState (a : AppStateStatus) (st : State) : State :=
  {| isConnected := isConnected st; connectionStatus := connectionStatus st;
     lastMessage := lastMessage st;
     wsRef := wsRef st; reconnectTimeoutRef := reconnectTimeoutRef st;
     reconnectAttemptsRef := reconnectAttemptsRef st; appStateRef := a;
     user := user st; token := token st; sockets := sockets st; timers := timers st;
     console := console st |}.

Definition log (es : list LogEntry) (st : State) : State :=
  {| isConnected := isConnected st; connectionStatus := connectionStatus st;
     lastMessage := lastMessage st;
     wsRef := wsRef st; reconnectTimeoutRef := reconnectTimeoutRef st;
     reconnectAttemptsRef := reconnectAttemptsRef st; appStateRef := appStateRef st;
     user := user st; token := token st; sockets := sockets st; timers := timers st;
     console := console st ++ es |}.

(** ** JavaScript truthiness and [||] *)

Definition truthy (s : string) : bool := negb (String.eqb s "").

Definition truthy_opt (o : option string) : bool :=
  match o with Some s => truthy s | None => false end.

(** [a || b] on possibly undefined strings. *)
Definition or_else (a b : option string) : option string :=
  if truthy_opt a then a else b.

(** [message.timestamp || Date.now()] *)
Definition timestamp_or (t : option Z) (now : Z) : Z :=
  match t with
  | Some v => if (v =? 0)%Z then now else v
  | None => now
  end.

(** ** The functions of the provider *)

(** [wsRef.current?.readyState] *)
Definition currentReadyState (st : State) : option ReadyState :=
  match wsRef st with
  | Some s => readyState <$> sockets st !! s
  | None => None
  end.

Definition clearTimeout (t : nat) (tms : list (option Timer)) : list (option Timer) :=
  <[t := None]> tms.

(** [Math.min(RECONNECT_INTERVAL * reconnectAttemptsRef.current, 30000)] *)
Definition reconnectDelay (attempts : nat) : Z :=
  Z.min (RECONNECT_INTERVAL * Z.of_nat attempts) 30000.

Definition scheduleReconnect (st : State) : State :=
  let st1 :=
    match reconnectTimeoutRef st with
    | Some t => set_timeout (reconnectTimeoutRef st) (clearTimeout t (timers st)) st
    | None => st
    end in
  let n := S (reconnectAttemptsRef st1) in
  let delay := reconnectDelay n in
  let st2 := log [LogScheduling n delay] (set_reconnectAttempts n st1) in
  set_timeout (Some (length (timers st2))) (timers st2 ++ [Some (ReconnectTimer delay)]) st2.

(** [send] of the open socket [s]. *)
Definition socket_send (s : nat) (m : WebSocketMessage) (socks : list Socket) : list Socket :=
  match socks !! s with
  | Some sock =>
      <[s := {| url := url sock; readyState := readyState sock; sent := sent sock ++ [m] |}]> socks
  | None => socks
  end.

(** [sendMessage]; [throws] says whether [JSON.stringify] or [send] raises
    inside the [try]. *)
Definition sendMessage (message : WebSocketMessage) (now : Z) (throws : bool)
    (st : State) : State :=
  match wsRef st, currentReadyState st with
  | Some s, Some OPEN =>
      if throws then log [LogError "Failed to send WebSocket message:"] st
      else
        let messageWithTimestamp := {|
          msg_type := msg_type message;
          data := data message;
          timestamp := Some (timestamp_or (timestamp message) now);
          device_id :=
            or_else (or_else (device_id message) (user st ≫= deviceId))
                    (user_id <$> user st)
        |} in
        log [Log "WebSocket message sent:"]
          (set_ws (wsRef st) (socket_send s messageWithTimestamp (sockets st)) st)
  | _, _ => log [LogWarn "WebSocket not connected, message not sent:"] st
  end.

(** [connect]; [ctorThrows] says whether [new WebSocket(wsUrl)] raises. *)
Definition connect (ctorThrows : bool) (st : State) : State :=
  match user st with
  | Some u =>
      if truthy_opt (token st) then
        match currentReadyState st with
        | Some CONNECTING | Some OPEN => log [Log "WebSocket already connecting/connected"] st
        | _ =>
            let st1 := set_connectionStatus connecting st in
            if ctorThrows then
              scheduleReconnect
                (set_connectionStatus error
                   (log [LogError "Failed to create WebSocket connection:"] st1))
            else
              let dev := default "" (or_else (deviceId u) (Some (user_id u))) in
              let wsUrl := WS_BASE_URL +:+ "/ws/" +:+ dev +:+ "?token=" +:+ default "" (token st) in
              set_ws (Some (length (sockets st1)))
                (sockets st1 ++ [{| url := wsUrl; readyState := CONNECTING; sent := [] |}]) st1
        end
      else log [Log "No user or token, skipping WebSocket connection"] st
  | None => log [Log "No user or token, skipping WebSocket connection"] st
  end.

(** [close(1000, ...)] of the platform socket: an open or opening socket
    starts closing, a closing or closed one is left alone. *)
Definition socket_close (s : nat) (socks : list Socket) : list Socket :=
  match socks !! s with
  | Some sock =>
      match readyState sock with
      | CONNECTING | OPEN =>
          <[s := {| url := url sock; readyState := CLOSING; sent := sent sock |}]> socks
      | CLOSING | CLOSED => socks
      end
  | None => socks
  end.

Definition disconnect (st : State) : State :=
  let st1 :=
    match reconnectTimeoutRef st with
    | Some t => set_timeout None (clearTimeout t (timers st)) st
    | None => st
    end in
  let st2 :=
    match wsRef st1 with
    | Some s => set_ws None (socket_close s (sockets st1)) st1
    | None => st1
    end in
  set_connection false disconnected st2.

Definition reconnect (st : State) : State :=
  let st1 := disconnect st in
  set_timeout (reconnectTimeoutRef st1) (timers st1 ++ [Some ConnectTimer]) st1.

Definition handleIncomingMessage (message : WebSocketMessage) (st : State) : State :=
  if String.eqb (msg_type message) "alert" then log [Log "Alert received:"] st
  else if String.eqb (msg_type message) "ml_result" then log [Log "ML result received:"] st
  else if String.eqb (msg_type message) "connection_ack"
       then log [Log "Connection acknowledged by server"] st
  else if String.eqb (msg_type message) "error" then log [LogError "Server error:"] st
  else log [Log "Unknown message type:"] st.

(** ** The socket handlers installed by [connect] *)

Definition onopen (now : Z) (sendThrows : bool) (st : State) : State :=
  let st1 := set_reconnectAttempts 0
               (set_connection true connected (log [Log "WebSocket connected"] st)) in
  match user st1 with
  | Some u =>
      let dev := default "" (or_else (deviceId u) (Some (user_id u))) in
      sendMessage {| msg_type := "device_info";
                     data := Some (DeviceInfo dev (user_id u) "mobile" "1.0.0");
                     timestamp := None; device_id := None |} now sendThrows st1
  | None => st1
  end.

(** [parsed] is the result of [JSON.parse(event.data)], [None] when it
    raises. *)
Definition onmessage (parsed : option WebSocketMessage) (st : State) : State :=
  match parsed with
  | Some message =>
      handleIncomingMessage message
        (set_lastMessage (Some message) (log [Log "WebSocket message received:"] st))
  | None => log [LogError "Failed to parse WebSocket message:"] st
  end.

Definition onclose (code : Z) (st : State) : State :=
  let st1 := set_connection false disconnected (log [Log "WebSocket disconnected:"] st) in
  if negb (code =? 1000)%Z && (reconnectAttemptsRef st1 <? MAX_RECONNECT_ATTEMPTS)
  then scheduleReconnect st1
  else st1.

Definition onerror (st : State) : State :=
  set_connectionStatus error (log [LogError "WebSocket error:"] st).

Definition handleAppStateChange (nextAppState : AppStateStatus) (ctorThrows : bool)
    (st : State) : State :=
  let st1 := set_appState nextAppState st in
  match nextAppState with
  | active =>
      if negb (isConnected st1) && bool_decide (is_Some (user st1)) && truthy_opt (token st1)
      then connect ctorThrows st1
      else st1
  | background | inactive =>
      match reconnectTimeoutRef st1 with
      | Some t => set_timeout None (clearTimeout t (timers st1)) st1
      | None => st1
      end
  | unknown | extension => st1
  end.

(** ** Events *)

Definition set_readyState (s : nat) (r : ReadyState) (socks : list Socket) : list Socket :=
  match socks !! s with
  | Some sock => <[s := {| url := url sock; readyState := r; sent := sent sock |}]> socks
  | None => socks
  end.

(** Calls of the host application ([Call...]), events of a platform socket
    (which move its [readyState] before the handler runs) and expiry of a
    timeout.  An event that may reach [new WebSocket] carries whether the
    constructor raises. *)
Inductive Event :=
| CallConnect (ctorThrows : bool)
| CallDisconnect
| CallReconnect
| CallSendMessage (message : WebSocketMessage) (now : Z) (throws : bool)
| SocketOpen (sock : nat) (now : Z) (sendThrows : bool)
| SocketMessage (sock : nat) (parsed : option WebSocketMessage)
| SocketError (sock : nat)
| SocketClose (sock : nat) (code : Z)
| TimerFires (t : nat) (ctorThrows : bool)
| AppStateChange (nextAppState : AppStateStatus) (ctorThrows : bool).

Definition step (st : State) (ev : Event) : State :=
  match ev with
  | CallConnect ctorThrows => connect ctorThrows st
  | CallDisconnect => disconnect st
  | CallReconnect => reconnect st
  | CallSendMessage m now throws => sendMessage m now throws st
  | SocketOpen s now sendThrows =>
      match readyState <$> sockets st !! s with
      | Some CONNECTING =>
          onopen now sendThrows (set_ws (wsRef st) (set_readyState s OPEN (sockets st)) st)
      | _ => st
      end
  | SocketMessage s parsed =>
      match readyState <$> sockets st !! s with
      | Some OPEN | Some CLOSING => onmessage parsed st
      | _ => st
      end
  | SocketError s =>
      match sockets st !! s with
      | Some _ => onerror (set_ws (wsRef st) (set_readyState s CLOSED (sockets st)) st)
      | None => st
      end
  | SocketClose s code =>
      match sockets st !! s with
      | Some _ => onclose code (set_ws (wsRef st) (set_readyState s CLOSED (sockets st)) st)
      | None => st
      end
  | TimerFires t ctorThrows =>
      match timers st !! t with
      | Some (Some tm) =>
          let st1 := set_timeout (reconnectTimeoutRef st) (clearTimeout t (timers st)) st in
          match tm with
          | ReconnectTimer _ =>
              match appStateRef st1 with
              | active => connect ctorThrows st1
              | _ => st1
              end
          | ConnectTimer => connect ctorThrows st1
          end
      | _ => st
      end
  | AppStateChange next ctorThrows => handleAppStateChange next ctorThrows st
  end.

Definition run (st : State) (evs : list Event) : State := foldl step st evs.

(** The delays of the reconnects scheduled so far, oldest first. *)
Definition scheduledDelays (st : State) : list Z :=
  omap (λ e, match e with LogScheduling _ d => Some d | _ => None end) (console st).

(** ** Vocabulary of the properties and the runs they are checked on *)

Definition isSocketOpen (ev : Event) : bool :=
  match ev with SocketOpen _ _ _ => true | _ => false end.

(** Does the event reach [connect] with a raising [new WebSocket]? *)
Definition ctorThrowsIn (ev : Event) : bool :=
  match ev with
  | CallConnect b | TimerFires _ b | AppStateChange _ b => b
  | _ => false
  end.

(** Everything handed to the transport so far, socket by socket. *)
Definition delivered (st : State) : list (list WebSocketMessage) :=
  sent <$> sockets st.

(** A signed-in user. *)
Definition parent : User := {| user_id := "u1"; deviceId := Some "d1" |}.

Definition signedIn : State := init (Some parent) (Some "tok").

(** A connection attempt whose socket closes with [c1], the scheduled
    reconnect whose socket closes with [c2], and the next one whose socket
    closes with [c3]; no socket ever opens. *)
Definition threeCloses (c1 c2 c3 : Z) : list Event :=
  [CallConnect false; SocketClose 0 c1;
   TimerFires 0 false; SocketClose 1 c2;
   TimerFires 1 false; SocketClose 2 c3].

(** Ten connection attempts in a row end in an abnormal close (code 1006). *)
Definition tenFailures : list Event :=
  CallConnect false
    :: flat_map (λ k, [SocketClose k 1006%Z; TimerFires k false]) (seq 0 10).

(** What an event can do to the reconnect bookkeeping: leave the attempt
    count and the scheduled delays alone, or schedule exactly one more
    reconnect. *)
Definition unchanged (st st' : State) : Prop :=
  reconnectAttemptsRef st' = reconnectAttemptsRef st ∧
  scheduledDelays st' = scheduledDelays st.

Definition scheduledOnce (st st' : State) : Prop :=
  reconnectAttemptsRef st' = S (reconnectAttemptsRef st) ∧
  scheduledDelays st' = scheduledDelays st ++ [reconnectDelay (S (reconnectAttemptsRef st))].

(** ** Vocabulary of the further properties *)

(** The message [sendMessage] builds from [message] at clock reading [now]
    for user [u]: [{...message, timestamp: message.timestamp || Date.now(),
    device_id: message.device_id || user?.deviceId || user?.id}]. *)
Definition stampMessage (u : option User) (message : WebSocketMessage) (now : Z)
    : WebSocketMessage :=
  {| msg_type := msg_type message;
     data := data message;
     timestamp := Some (timestamp_or (timestamp message) now);
     device_id := or_else (or_else (device_id message) (u ≫= deviceId)) (user_id <$> u) |}.

(** The [device_info] message of the open handler. *)
Definition deviceInfoMessage (u : User) : WebSocketMessage :=
  {| msg_type := "device_info";
     data := Some (DeviceInfo (default "" (or_else (deviceId u) (Some (user_id u))))
                     (user_id u) "mobile" "1.0.0");
     timestamp := None; device_id := None |}.

(** A run of successful [sendMessage] calls. *)
Definition sends (msgs : list (WebSocketMessage * Z)) : list Event :=
  map (λ x, CallSendMessage x.1 x.2 false) msgs.

(** A socket that is opening or open. *)
Definition live (r : ReadyState) : bool :=
  match r with
  | CONNECTING | OPEN => true
  | CLOSING | CLOSED => false
  end.

Definition readyStates (st : State) : list ReadyState := readyState <$> sockets st.

(** The only socket that can be opening or open is the one in [wsRef]. *)
Definition oneLive (rs : list ReadyState) (ws : option nat) : Prop :=
  ∀ s r, rs !! s = Some r → live r = true → ws = Some s.

Definition oneLiveSocket (st : State) : Prop := oneLive (readyStates st) (wsRef st).

(** The only pending reconnect timer is the one in [reconnectTimeoutRef]. *)
Definition onePending (tms : list (option Timer)) (ref : option nat) : Prop :=
  ∀ t d, tms !! t = Some (Some (ReconnectTimer d)) → ref = Some t.

Definition onePendingReconnect (st : State) : Prop :=
  onePending (timers st) (reconnectTimeoutRef st).

(** No reconnect timer is pending at all. *)
Definition noPendingReconnect (tms : list (option Timer)) : Prop :=
  ∀ t d, tms !! t ≠ Some (Some (ReconnectTimer d)).

(** [!user || !token] *)
Definition noIdentity (st : State) : Prop :=
  user st = None ∨ truthy_opt (token st) = false.

(** A provider that has never reached the transport. *)
Definition untouched (st : State) : Prop :=
  sockets st = [] ∧ wsRef st = None ∧ isConnected st = false ∧
  connectionStatus st = disconnected ∧ reconnectAttemptsRef st = 0 ∧
  scheduledDelays st = [].

(** The reconnect waits lie between the base interval and the cap. *)
Definition delayInRange (d : Z) : Prop := (RECONNECT_INTERVAL ≤ d ≤ 30000)%Z.


(** The four message types the provider knows. *)
Definition knownType (ty : string) : bool :=
  String.eqb ty "alert" || String.eqb ty "ml_result" ||
  String.eqb ty "connection_ack" || String.eqb ty "error".

End WebSocket.

(* ===================================================================== *)
(** * Audio normalisation (StreamingService.ts)                            *)
(* ===================================================================== *)
Module Audio.
Local Open Scope Z_scope.

(** The elements of a [Uint8Array] are integers from 0 to 255.  Integer
    arithmetic on them is exact in JavaScript numbers and is written in
    [Z]; the scale factor and the scaled sample are binary64 values. *)
Definition isSample (x : Z) : Prop := 0 ≤ x < 256.

(** The JavaScript number holding the integer [z]. *)
Definition number (z : Z) : float :=
  if z <? 0 then (- PrimFloat.of_uint63 (Uint63.of_Z (- z)))%float
  else PrimFloat.of_uint63 (Uint63.of_Z z).

(** [Math.min] and [Math.max] of two numbers. *)
Definition mathMin (a b : float) : float :=
  if PrimFloat.is_nan a || PrimFloat.is_nan b then PrimFloat.nan
  else if (a <? b)%float then a
  else if (b <? a)%float then b
  else if PrimFloat.get_sign a then a else b.

Definition mathMax (a b : float) : float :=
  if PrimFloat.is_nan a || PrimFloat.is_nan b then PrimFloat.nan
  else if (a <? b)%float then b
  else if (b <? a)%float then a
  else if PrimFloat.get_sign a then b else a.

(** Storing a number in an element of a [Uint8Array]: the number is
    truncated towards zero and taken modulo 256; NaN, the zeros and the
    infinities are stored as 0. *)
Definition toUint8 (f : float) : Z :=
  match Prim2SF f with
  | S754_finite s m e =>
      let magnitude := if 0 <=? e then Z.shiftl (Z.pos m) e else Z.shiftr (Z.pos m) (- e) in
      (if s then - magnitude else magnitude) mod 256
  | _ => 0
  end.

(** The first loop of [normalizeAudio]. *)
Definition peakOf (audioData : list Z) : Z :=
  foldl (λ peak x, Z.max peak (Z.abs (x - 128))) 0 audioData.

(** The body of the second loop, for one element. *)
Definition scaleSample (peak x : Z) : Z :=
  let scaleFactor := (127 / number peak)%float in
  let sample := (number (x - 128) * scaleFactor + 128)%float in
  toUint8 (mathMax 0 (mathMin 255 sample)).

Definition normalizeAudio (audioData : list Z) : list Z :=
  let peak := peakOf audioData in
  if 10 <? peak then scaleSample peak <$> audioData else audioData.

(** [processAudioBuffer]: the view of the buffer as bytes, normalised;
    nothing in the [try] block raises. *)
Definition processAudioBuffer (audioBuffer : list Z) : list Z :=
  normalizeAudio audioBuffer.

(** ** Vocabulary of the properties *)

(** [P] holds for every significant peak and every sample. *)
Definition everyPeakAndSample (P : Z → Z → bool) : bool :=
  forallb (λ peak, forallb (P peak) (seqZ 0 256)) (seqZ 11 118).

Definition midpointKept (peak x : Z) : bool := scaleSample peak 128 =? 128.

Definition stepMonotone (peak x : Z) : bool :=
  implb (x <? 255) (scaleSample peak x <=? scaleSample peak (x + 1)).

Definition sideKept (peak x : Z) : bool :=
  implb (x <=? 128) (scaleSample peak x <=? 128) &&
  implb (128 <=? x) (128 <=? scaleSample peak x).

(** How far [peak * y] is below the exact scaling of [x]. *)
Definition shortfall (peak x y : Z) : Z := 127 * (x - 128) + 128 * peak - peak * y.

Definition withinOne (peak x : Z) : bool :=
  implb (Z.abs (x - 128) <=? peak)
    ((0 <=? shortfall peak x (scaleSample peak x)) &&
     (shortfall peak x (scaleSample peak x) <=? peak)).

Definition fullScale (y : Z) : Prop := y = 255 ∨ y ≤ 1.

Definition peakToFullScale (peak x : Z) : bool :=
  implb (Z.abs (x - 128) =? peak)
    (if 128 <? x then scaleSample peak x =? 255 else scaleSample peak x <=? 1).

Definition notQuieter (peak x : Z) : bool :=
  implb (Z.abs (x - 128) <=? peak)
    (implb (peak <? 128) (Z.abs (x - 128) <=? Z.abs (scaleSample peak x - 128))).

End Audio.

(* ===================================================================== *)
(** * Notification filter (NotificationService, in StreamingService.ts)    *)
(* ===================================================================== *)
Module Notification.

(** [NotificationConfig]. *)

Record QuietHours := {
  quietHours_enabled : bool;
  startTime : string;
  endTime : string
}.

Record NotificationConfig := {
  enabled : bool;
  soundEnabled : bool;
  vibrationEnabled : bool;
  criticalAlertsOnly : bool;
  quietHours : QuietHours
}.

(** [n.toString()] of a natural number. *)
Definition toString (n : nat) : string := NilZero.string_of_uint (Nat.to_uint n).

(** The first [n] characters of [pad] repeated; [rest] is what is left of
    the copy being written. *)
Fixpoint filler (pad rest : string) (n : nat) : string :=
  match n with
  | 0 => ""
  | S n =>
      match rest with
      | String c rest => String c (filler pad rest n)
      | EmptyString =>
          match pad with
          | String c rest => String c (filler pad rest n)
          | EmptyString => ""
          end
      end
  end.

(** [s.padStart(targetLength, pad)] *)
Definition padStart (targetLength : nat) (pad : string) (s : string) : string :=
  filler pad pad (targetLength - String.length s) +:+ s.

(** The template string of [isQuietHours] for a clock reading. *)
Definition currentTime (hours minutes : nat) : string :=
  padStart 2 "0" (toString hours) +:+ (":" +:+ padStart 2 "0" (toString minutes)).

(** [a > b], [a >= b] and [a <= b] on strings: the comparison character by
    character, a proper prefix coming first (the times compared here are
    ASCII). *)
Definition geString (a b : string) : bool := negb (String.ltb a b).
Definition gtString (a b : string) : bool := String.ltb b a.
Definition leString (a b : string) : bool := negb (String.ltb b a).

Definition isQuietHours (config : NotificationConfig) (hours minutes : nat) : bool :=
  let now := currentTime hours minutes in
  let start := startTime (quietHours config) in
  let finish := endTime (quietHours config) in
  if gtString start finish then geString now start || leString now finish
  else geString now start && leString now finish.


(** [remoteMessage.data?.severity || 'medium'] *)
Definition severityOf (data : option (gmap string string)) : string :=
  match data ≫= (λ d, d !! "severity") with
  | Some s => if String.eqb s "" then "medium" else s
  | None => "medium"
  end.

Definition shouldShowNotification (config : NotificationConfig) (hours minutes : nat)
    (data : option (gmap string string)) : bool :=
  if negb (enabled config) then false
  else
    let severity := severityOf data in
    if quietHours_enabled (quietHours config) && isQuietHours config hours minutes
    then String.eqb severity "critical"
    else if criticalAlertsOnly config
         then String.eqb severity "critical" || String.eqb severity "high"
         else true.

(** ** Vocabulary of the properties *)

(** Minutes since midnight. *)
Definition minuteOfDay (hours minutes : nat) : nat := 60 * hours + minutes.

(** Whether minute [now] of the day lies in the quiet period from [start]
    to [finish], which runs over midnight when [finish] is before
    [start]. *)
Definition quietByClock (start finish now : nat) : bool :=
  if finish <? start then (start <=? now) || (now <=? finish)
  else (start <=? now) && (now <=? finish).

Definition sameOrder (c : comparison) (d : comparison) : bool :=
  match c, d with
  | Eq, Eq | Lt, Lt | Gt, Gt => true
  | _, _ => false
  end.

Definition paddedInOrder : bool :=
  forallb (λ a, forallb (λ b,
    sameOrder (String.compare (padStart 2 "0" (toString a)) (padStart 2 "0" (toString b)))
              (Nat.compare a b) &&
    (String.length (padStart 2 "0" (toString a)) =? 2)) (seq 0 100)) (seq 0 100).

End Notification.

(* ===================================================================== *)
(** * Properties of the streaming pipeline                                 *)
(* ===================================================================== *)
Section StreamingProperties.
Import Streaming.

(** ** What each method leaves alone *)

(** The upload loop only rewrites the slot of its own suspended call. *)
Lemma forLoop_frame i cs st :
  forLoop i cs st = set_flushes (flushes (forLoop i cs st)) st.
Proof.
  induction cs as [|c cs IH]; simpl; [done|].
  destruct (uploadSingleChunk c st); [done|]. exact IH.
Qed.

Lemma forLoop_chunkQueue i cs st : chunkQueue (forLoop i cs st) = chunkQueue st.
Proof. by rewrite forLoop_frame. Qed.

Lemma forLoop_currentSession i cs st :
  currentSession (forLoop i cs st) = currentSession st.
Proof. by rewrite forLoop_frame. Qed.

Lemma forLoop_trace i cs st : trace (forLoop i cs st) = trace st.
Proof. by rewrite forLoop_frame. Qed.

Lemma forLoop_intervals i cs st : intervals (forLoop i cs st) = intervals st.
Proof. by rewrite forLoop_frame. Qed.

Lemma forLoop_isStreaming i cs st : isStreaming (forLoop i cs st) = isStreaming st.
Proof. by rewrite forLoop_frame. Qed.

Lemma forLoop_endCalls i cs st : endCalls (forLoop i cs st) = endCalls st.
Proof. by rewrite forLoop_frame. Qed.

Lemma forLoop_uploadInterval i cs st :
  uploadInterval (forLoop i cs st) = uploadInterval st.
Proof. by rewrite forLoop_frame. Qed.

(** A flush takes chunks out of the queue and never adds any. *)
Lemma processChunkQueue_chunkQueue st :
  chunkQueue (processChunkQueue st) = chunkQueue st ∨
  chunkQueue (processChunkQueue st) = drop 10 (chunkQueue st).
Proof.
  unfold processChunkQueue. case_match; [by left|right].
  by rewrite forLoop_chunkQueue.
Qed.

Lemma processChunkQueue_drop st s :
  currentSession st = Some s →
  chunkQueue (processChunkQueue st) = drop 10 (chunkQueue st).
Proof.
  intros Hs. unfold processChunkQueue. rewrite Hs.
  destruct (chunkQueue st) eqn:Hq; simpl; [done|].
  unfold uploadSingleChunk. simpl. by rewrite Hs.
Qed.

Lemma processChunkQueue_length st :
  length (chunkQueue (processChunkQueue st)) ≤ length (chunkQueue st).
Proof.
  destruct (processChunkQueue_chunkQueue st) as [-> | ->]; [done|].
  rewrite length_drop. lia.
Qed.

Lemma processChunkQueue_currentSession st :
  currentSession (processChunkQueue st) = currentSession st.
Proof.
  unfold processChunkQueue. case_match; [done|]. by rewrite forLoop_currentSession.
Qed.

Lemma processChunkQueue_trace st : trace (processChunkQueue st) = trace st.
Proof. unfold processChunkQueue. case_match; [done|]. by rewrite forLoop_trace. Qed.

Lemma processChunkQueue_endCalls st : endCalls (processChunkQueue st) = endCalls st.
Proof. unfold processChunkQueue. case_match; [done|]. by rewrite forLoop_endCalls. Qed.

Lemma processChunkQueue_isStreaming st :
  isStreaming (processChunkQueue st) = isStreaming st.
Proof.
  unfold processChunkQueue. case_match; [done|]. by rewrite forLoop_isStreaming.
Qed.

Lemma processChunkQueue_timer st :
  uploadInterval (processChunkQueue st) = uploadInterval st ∧
  intervals (processChunkQueue st) = intervals st.
Proof.
  unfold processChunkQueue. case_match; [done|].
  by rewrite forLoop_uploadInterval, forLoop_intervals.
Qed.

(** The [catch] of the flush puts the chunk back at the front exactly when
    the queue is shorter than 30. *)
Lemma uploadFailed_chunkQueue i t st :
  chunkQueue (uploadFailed i t st) =
  if length (chunkQueue st) <? 30 then current t :: chunkQueue st else chunkQueue st.
Proof.
  unfold uploadFailed. rewrite forLoop_chunkQueue. simpl.
  by destruct (length (chunkQueue st) <? 30).
Qed.

Lemma uploadFailed_length i t st :
  length (chunkQueue st) ≤ 50 → length (chunkQueue (uploadFailed i t st)) ≤ 50.
Proof.
  intros H. rewrite uploadFailed_chunkQueue.
  destruct (Nat.ltb_spec (length (chunkQueue st)) 30); simpl; lia.
Qed.

Lemma uploadChunk_length ty d now st :
  length (chunkQueue st) ≤ 50 → length (chunkQueue (uploadChunk ty d now st)) ≤ 50.
Proof.
  intros H. unfold uploadChunk.
  destruct (currentSession st); [|done]. destruct (isStreaming st); [|done].
  simpl. case_match eqn:Hfull; [rewrite length_drop|]; rewrite length_app; simpl.
  - lia.
  - apply Nat.ltb_ge in Hfull. rewrite length_app in Hfull. simpl in Hfull. lia.
Qed.

(** The capacity bound is kept by every event. *)
Lemma step_queue_bound st ev :
  length (chunkQueue st) ≤ 50 → length (chunkQueue (step st ev)) ≤ 50.
Proof.
  intros H. destruct ev; simpl.
  - done.
  - repeat case_match; try done.
    unfold startSessionResumed; repeat case_match; done.
  - unfold endSession. destruct (currentSession st) eqn:E; [|done].
    pose proof (processChunkQueue_length
      (match uploadInterval (set_isStreaming false st) with
       | Some h => set_timer None (filter (λ x, x ≠ h) (intervals (set_isStreaming false st)))
                     (nextHandle (set_isStreaming false st)) (set_isStreaming false st)
       | None => set_isStreaming false st
       end)) as Hp.
    unfold stopChunkUploader.
    repeat case_match; simpl in *; lia.
  - repeat case_match; try done.
    unfold endSessionResumed; repeat case_match; done.
  - by apply uploadChunk_length.
  - case_match; [|done]. pose proof (processChunkQueue_length st). lia.
  - repeat case_match; try done. unfold writeFileDone.
    repeat case_match; try done; by apply uploadFailed_length.
  - repeat case_match; try done; unfold fetchDone; destruct r; try done;
      by apply uploadFailed_length.
  - repeat case_match; try done; unfold unlinkDone; repeat case_match;
      try (by apply uploadFailed_length).
    by rewrite forLoop_chunkQueue.
  - lia.
Qed.

Lemma run_queue_bound st evs :
  length (chunkQueue st) ≤ 50 → length (chunkQueue (run st evs)) ≤ 50.
Proof.
  revert st. induction evs as [|ev evs IH]; intros st H; simpl; [done|].
  apply IH. by apply step_queue_bound.
Qed.

(** ** Submitting chunks *)

Lemma submit_active st s x :
  currentSession st = Some s → isStreaming st = true →
  step st (submit x) =
  set_chunkQueue
    (if 50 <? length (chunkQueue st ++ [stamp s x])
     then drop 1 (chunkQueue st ++ [stamp s x])
     else chunkQueue st ++ [stamp s x]) st.
Proof.
  intros Hs Hon. destruct x as [[ty d] now]. simpl. unfold uploadChunk.
  by rewrite Hs, Hon.
Qed.

(** Submissions with nothing in between keep the newest 50 chunks of the
    queue followed by the submitted ones. *)
Lemma submit_many subs : ∀ st s,
  currentSession st = Some s → isStreaming st = true →
  length (chunkQueue st) ≤ 50 →
  chunkQueue (run st (map submit subs)) =
  drop (length (chunkQueue st ++ map (stamp s) subs) - 50)
       (chunkQueue st ++ map (stamp s) subs).
Proof.
  induction subs as [|x subs IH]; intros st s Hs Hon Hlen.
  - simpl. rewrite app_nil_r.
    replace (length (chunkQueue st) - 50) with 0 by lia. done.
  - change (run st (map submit (x :: subs)))
      with (run (step st (submit x)) (map submit subs)).
    rewrite (submit_active st s x Hs Hon).
    rewrite (IH _ s); simpl; try done.
    + destruct (Nat.ltb_spec 50 (length (chunkQueue st ++ [stamp s x]))) as [Hfull|Hroom];
        rewrite length_app in Hfull || rewrite length_app in Hroom; simpl in *.
      * assert (length (chunkQueue st) = 50) as H50 by lia.
        destruct (chunkQueue st) as [|c0 q] eqn:Hq; [simpl in H50; lia|].
        simpl in *. rewrite drop_0, <- app_assoc. simpl.
        rewrite !length_app. simpl.
        replace (length q + S (length (map (stamp s) subs)) - 49)
          with (S (length q + S (length (map (stamp s) subs)) - 50)) by lia.
        done.
      * rewrite <- app_assoc. done.
    + case_match eqn:Hfull; [rewrite length_drop|]; rewrite length_app; simpl.
      * lia.
      * apply Nat.ltb_ge in Hfull. rewrite length_app in Hfull. simpl in Hfull. lia.
Qed.

(** X28. In every reachable state the chunk queue holds at most 50 chunks;
    a submission to a queue of 50 removes the chunk at the head of the
    queue (the one [shift()] takes) and puts the new one at the tail; 60
    submissions to an empty queue, with no flush in between, leave the last
    50 of them, in order. *)
Theorem queue_capacity :
  (∀ evs, length (chunkQueue (run init evs)) ≤ 50) ∧
  (∀ st s x, currentSession st = Some s → isStreaming st = true →
     length (chunkQueue st) = 50 →
     chunkQueue (step st (submit x)) = drop 1 (chunkQueue st) ++ [stamp s x]) ∧
  (∀ st s subs, currentSession st = Some s → isStreaming st = true →
     chunkQueue st = [] → length subs = 60 →
     chunkQueue (run st (map submit subs)) = drop 10 (map (stamp s) subs)).
Proof.
  split; [|split].
  - intros evs. apply run_queue_bound. simpl. lia.
  - intros st s x Hs Hon Hlen. rewrite (submit_active st s x Hs Hon). simpl.
    rewrite length_app, Hlen. simpl.
    destruct (chunkQueue st); [simpl in Hlen; lia|]. done.
  - intros st s subs Hs Hon Hq Hlen.
    rewrite (submit_many subs st s Hs Hon) by (rewrite Hq; simpl; lia).
    rewrite Hq. simpl. by rewrite length_map, Hlen.
Qed.

(** The theorem at work: 60 submissions after [startA], a submission to the
    full queue, and 60 submissions to the fresh session's empty queue. *)
Lemma queue_capacity_witness :
  length (chunkQueue (run init (startA ++ submits 60))) ≤ 50 ∧
  chunkQueue (step (run init (startA ++ submits 50)) (submit (video, [], 99%Z))) =
    drop 1 (chunkQueue (run init (startA ++ submits 50)))
      ++ [{| chunk_type := video; data := []; timestamp := 99%Z;
             chunk_session_id := "A" |}] ∧
  chunkQueue (run (run init startA)
                (map submit (map (λ k, (audio, [], Z.of_nat k)) (seq 1 60)))) =
    map chunkA (seq 11 50).
Proof.
  destruct queue_capacity as (Hbound & Hfull & Hsixty).
  split; [apply Hbound|split].
  - apply (Hfull _ {| session_id := "A"; device_id := "dev"; started_at := 1000%Z;
                      ended_at := None; duration_seconds := None; is_active := true |});
      reflexivity.
  - rewrite (Hsixty _ {| session_id := "A"; device_id := "dev"; started_at := 1000%Z;
                         ended_at := None; duration_seconds := None; is_active := true |});
      reflexivity.
Defined.

(** C5. The code at the failing input.  Ten chunks are submitted and the
    upload of each fails in the first flush, which puts them back at the
    head of the queue, newest first; forty more chunks fill the queue.  The
    next submission takes the chunk at the head, which is chunk 10: the
    older chunks 1 to 9 stay queued, so what [shift()] removes under the
    comment "Remove oldest chunk" is not the oldest chunk, and the queue
    does not hold the 50 most recently submitted chunks. *)
Theorem overflow_drops_newer_chunk :
  isSessionActive (overflowAfterFailedFlush 40) = true ∧
  map timestamp (chunkQueue (overflowAfterFailedFlush 40)) =
    map Z.of_nat (rev (seq 1 10) ++ seq 11 40) ∧
  chunkQueue (overflowAfterFailedFlush 41) = map chunkA (rev (seq 1 9) ++ seq 11 41) ∧
  Forall (λ c, timestamp c ≠ 10%Z) (chunkQueue (overflowAfterFailedFlush 41)) ∧
  Exists (λ c, timestamp c = 1%Z) (chunkQueue (overflowAfterFailedFlush 41)) ∧
  length (chunkQueue (overflowAfterFailedFlush 41)) = 50.
Proof.
  assert (chunkQueue (overflowAfterFailedFlush 41) =
          map chunkA (rev (seq 1 9) ++ seq 11 41)) as Hq by (vm_compute; reflexivity).
  split; [vm_compute; reflexivity|]. split; [vm_compute; reflexivity|].
  split; [exact Hq|]. rewrite Hq. split; [|split; [|reflexivity]].
  - apply Forall_forall. intros c Hc.
    apply list_elem_of_fmap in Hc as (k & -> & Hk). simpl.
    apply elem_of_app in Hk as [Hk|Hk].
    + apply list_elem_of_In in Hk. apply in_rev, in_seq in Hk. lia.
    + apply elem_of_seq in Hk. lia.
  - apply Exists_exists. exists (chunkA 1). split; [|reflexivity].
    apply list_elem_of_fmap. exists 1. split; [reflexivity|].
    apply elem_of_app. left. apply list_elem_of_In. apply -> in_rev. apply in_seq. lia.
Qed.

(** ** Ending a session that does not exist *)

(** C10, as the code has it.  With no current session ([currentSession] is
    null), [endSession] returns at once: no backend request is issued and
    the session, the streaming flag, the queue, the timer and the suspended
    calls are what they were; the state differs only by the record of the
    call having returned. *)
Theorem endSession_without_session st :
  currentSession st = None →
  step st CallEndSession = emit [EndSessionReturned] st ∧
  (currentSession (step st CallEndSession) = None ∧
   isStreaming (step st CallEndSession) = isStreaming st ∧
   chunkQueue (step st CallEndSession) = chunkQueue st ∧
   uploadInterval (step st CallEndSession) = uploadInterval st ∧
   intervals (step st CallEndSession) = intervals st ∧
   flushes (step st CallEndSession) = flushes st ∧
   endCalls (step st CallEndSession) = endCalls st) ∧
  List.filter isSessionRequest (trace (step st CallEndSession)) =
    List.filter isSessionRequest (trace st) ∧
  requestedUploads (step st CallEndSession) = requestedUploads st.
Proof.
  intros Hnone. simpl. unfold endSession. rewrite Hnone.
  split; [done|split; [done|]].
  unfold requestedUploads. simpl.
  rewrite List.filter_app, omap_app. simpl. by rewrite !app_nil_r.
Qed.

Lemma endSession_without_session_witness :
  step init CallEndSession = emit [EndSessionReturned] init ∧
  isStreaming (step (run init (startA ++ [CallCleanup])) CallEndSession) =
    isStreaming (run init (startA ++ [CallCleanup])).
Proof.
  split.
  - apply (endSession_without_session init). reflexivity.
  - apply (endSession_without_session (run init (startA ++ [CallCleanup]))). reflexivity.
Defined.

(** C10, as stated, fails: the guard of [endSession] is on [currentSession]
    alone.  After the backend has refused to end session "A",
    [isSessionActive()] is false, and yet [endSession()] runs again: it
    issues a second end-session request, which it then awaits. *)
Lemma endSession_inactive_counterexample :
  isSessionActive (run init endRefused) = false ∧
  List.filter isSessionRequest (trace (run init endRefused)) =
    [ReqStartSession "dev"; ReqEndSession "A"] ∧
  List.filter isSessionRequest (trace (step (run init endRefused) CallEndSession)) =
    [ReqStartSession "dev"; ReqEndSession "A"; ReqEndSession "A"] ∧
  endCalls (step (run init endRefused) CallEndSession) =
    endCalls (run init endRefused) ++ [Some "A"%string].
Proof. vm_compute. done. Qed.

(** ** Failed uploads *)

Lemma failedUploads_emit os st :
  failedUploads (emit os st) = failedUploads st + length (List.filter isUploadFailure os).
Proof. unfold failedUploads. simpl. by rewrite List.filter_app, length_app. Qed.

(** A tick that finds one chunk queued and whose upload is refused puts
    the chunk back: the pipeline is where it was, one failure later. *)
Lemma failingTick_spec h st s c :
  currentSession st = Some s → chunkQueue st = [c] → h ∈ intervals st →
  currentSession (failingTick h st) = Some s ∧
  chunkQueue (failingTick h st) = [c] ∧
  intervals (failingTick h st) = intervals st ∧
  failedUploads (failingTick h st) = S (failedUploads st).
Proof.
  destruct st as [cs on q ui iv nh fl sc ec tr]. simpl. intros -> -> Hh.
  unfold failingTick, run. cbn [foldl step intervals flushes].
  rewrite (bool_decide_eq_true_2 _ Hh).
  unfold processChunkQueue. cbn.
  rewrite list_lookup_insert_eq by (rewrite length_app; simpl; lia).
  cbn.
  rewrite list_lookup_insert_eq
    by (rewrite length_insert, length_app; simpl; lia).
  cbn. repeat split; try done.
  unfold failedUploads. cbn. rewrite !List.filter_app, !length_app. simpl. lia.
Qed.

Lemma failingTick_iter n : ∀ h st s c,
  currentSession st = Some s → chunkQueue st = [c] → h ∈ intervals st →
  currentSession (Nat.iter n (failingTick h) st) = Some s ∧
  chunkQueue (Nat.iter n (failingTick h) st) = [c] ∧
  intervals (Nat.iter n (failingTick h) st) = intervals st ∧
  failedUploads (Nat.iter n (failingTick h) st) = failedUploads st + n.
Proof.
  induction n as [|n IH]; intros h st s c Hs Hq Hh.
  - simpl. repeat split; try done; lia.
  - destruct (IH h st s c Hs Hq Hh) as (Hs' & Hq' & Hi' & Hf').
    simpl.
    destruct (failingTick_spec h _ s c Hs' Hq') as (Hs2 & Hq2 & Hi2 & Hf2).
    { by rewrite Hi'. }
    repeat split; try done; try congruence; lia.
Qed.

(** When the upload in flight throws, the state is that of the [catch]
    block followed by the rest of the loop. *)
Lemma step_uploadThrows st i t ev :
  flushes st !! i = Some (Some t) → uploadThrows st i t ev = true →
  step st ev = uploadFailed i t st.
Proof.
  intros Hi Hthrows. unfold uploadThrows in Hthrows.
  destruct (phase t) eqn:Hph, ev; try discriminate;
    apply andb_prop in Hthrows as [Hj Hthrows]; apply Nat.eqb_eq in Hj; subst;
    simpl; rewrite Hi, Hph.
  - unfold writeFileDone. destruct ok; [|done].
    destruct (currentSession st); [discriminate|done].
  - unfold fetchDone. by destruct r.
  - unfold unlinkDone. by destruct ok.
Qed.

(** X29. What the [catch] block of the flush does: a chunk whose upload
    fails is put back at the front of the queue exactly when the queue
    holds fewer than 30 chunks at that moment, and is dropped otherwise.
    The test is on the length of the queue and nothing counts the failures
    of a chunk, so a lone chunk that fails on every tick is still queued
    after any number [n] of ticks. *)
Theorem failed_upload_requeue :
  (∀ st i t ev, flushes st !! i = Some (Some t) → uploadThrows st i t ev = true →
     chunkQueue (step st ev) =
     if length (chunkQueue st) <? 30 then current t :: chunkQueue st else chunkQueue st) ∧
  (∀ n h st s c, currentSession st = Some s → chunkQueue st = [c] → h ∈ intervals st →
     failedUploads (Nat.iter n (failingTick h) st) = failedUploads st + n ∧
     chunkQueue (Nat.iter n (failingTick h) st) = [c]).
Proof.
  split.
  - intros st i t ev Hi Hthrows. rewrite (step_uploadThrows st i t ev Hi Hthrows).
    apply uploadFailed_chunkQueue.
  - intros n h st s c Hs Hq Hh.
    destruct (failingTick_iter n h st s c Hs Hq Hh) as (_ & Hq' & _ & Hf'). done.
Qed.

Lemma failed_upload_requeue_witness :
  chunkQueue (step (run init (startA ++ submits 1 ++ [IntervalFires 1; WriteFileDone 0 true]))
                (FetchDone 0 (ResponseNotOk 500))) = [chunkA 1] ∧
  failedUploads (Nat.iter 31 (failingTick 1) (run init (startA ++ submits 1))) = 31 ∧
  chunkQueue (Nat.iter 31 (failingTick 1) (run init (startA ++ submits 1))) = [chunkA 1].
Proof.
  destruct failed_upload_requeue as [Hone Hmany]. split.
  - apply (Hone (run init (startA ++ submits 1 ++ [IntervalFires 1; WriteFileDone 0 true]))
             0 {| current := chunkA 1; phase := AwaitFetch "A"; remaining := [] |});
      reflexivity.
  - apply (Hmany 31 1 (run init (startA ++ submits 1))
             {| session_id := "A"; device_id := "dev"; started_at := 1000%Z;
                ended_at := None; duration_seconds := None; is_active := true |}
             (chunkA 1)); [reflexivity|reflexivity|].
    apply list_elem_of_here.
Defined.

(** C1. The code at the failing input.  A lone chunk of session "A" whose
    upload is refused on 31 ticks in a row has been requested 31 times,
    accepted never, and is still in the queue; and so it is after any
    number [n] of refused ticks.  The [catch] block is commented "Re-add
    failed chunk to queue for retry (but limit retries)", but what it
    limits is the length of the queue: nothing counts the retries of a
    chunk. *)
Theorem retries_not_limited :
  failedUploads (run init thirtyOneFailures) = 31 ∧
  requestedUploads (run init thirtyOneFailures) = replicate 31 ("A"%string, chunkA 1) ∧
  acceptedUploads (run init thirtyOneFailures) = [] ∧
  chunkQueue (run init thirtyOneFailures) = [chunkA 1] ∧
  (∀ n, failedUploads (Nat.iter n (failingTick 1) (run init (startA ++ submits 1))) = n ∧
        chunkQueue (Nat.iter n (failingTick 1) (run init (startA ++ submits 1))) =
          [chunkA 1]).
Proof.
  split; [vm_compute; reflexivity|]. split; [vm_compute; reflexivity|].
  split; [vm_compute; reflexivity|]. split; [vm_compute; reflexivity|].
  intros n.
  destruct (failingTick_iter n 1 (run init (startA ++ submits 1))
              {| session_id := "A"; device_id := "dev"; started_at := 1000%Z;
                 ended_at := None; duration_seconds := None; is_active := true |}
              (chunkA 1)) as (_ & Hq & _ & Hf);
    [reflexivity|reflexivity|apply list_elem_of_here|].
  split; [exact Hf|exact Hq].
Qed.

(** The other side of the same guard: with 30 chunks still queued, a chunk
    is dropped on its first failure. *)
Example first_failure_dropped :
  failedUploads (run init (startA ++ submits 40 ++ tickFails 0)) = 1 ∧
  chunkQueue (run init (startA ++ submits 40 ++ tickFails 0)) = map chunkA (seq 11 30).
Proof. vm_compute. done. Qed.

(** ** Ending a session *)

Lemma uploadFailed_observed i t st :
  trace (uploadFailed i t st) =
    trace st ++ [ConsoleError "Chunk upload failed:"; ConsoleError "Failed to upload chunk:"] ∧
  currentSession (uploadFailed i t st) = currentSession st ∧
  endCalls (uploadFailed i t st) = endCalls st.
Proof.
  unfold uploadFailed.
  rewrite forLoop_trace, forLoop_currentSession, forLoop_endCalls.
  by destruct (length (chunkQueue _) <? 30).
Qed.

Lemma stopChunkUploader_spec st :
  uploadInterval (stopChunkUploader st) = None ∧
  (∀ h, uploadInterval st = Some h → h ∉ intervals (stopChunkUploader st)) ∧
  currentSession (stopChunkUploader st) = currentSession st ∧
  isStreaming (stopChunkUploader st) = isStreaming st ∧
  trace (stopChunkUploader st) = trace st ∧
  endCalls (stopChunkUploader st) = endCalls st.
Proof.
  unfold stopChunkUploader.
  rewrite processChunkQueue_currentSession, processChunkQueue_isStreaming,
    processChunkQueue_trace, processChunkQueue_endCalls.
  destruct (processChunkQueue_timer
    match uploadInterval st with
    | Some h => set_timer None (filter (λ x, x ≠ h) (intervals st)) (nextHandle st) st
    | None => st
    end) as [-> ->].
  destruct (uploadInterval st) as [h0|] eqn:Hui; simpl; repeat split; try done.
  intros h [= <-]. rewrite list_elem_of_filter. tauto.
Qed.

(** The terminal flush is one call of [processChunkQueue]: whatever the
    queue holds, [endSession] takes its first ten chunks and no more. *)
Lemma endSession_takes_one_batch st s :
  currentSession st = Some s →
  chunkQueue (step st CallEndSession) = drop 10 (chunkQueue st).
Proof.
  intros Hs. simpl. unfold endSession. rewrite Hs.
  destruct (stopChunkUploader_spec (set_isStreaming false st)) as (_ & _ & Hcur & _).
  simpl in Hcur. rewrite Hcur, Hs. simpl.
  unfold stopChunkUploader.
  destruct (uploadInterval (set_isStreaming false st));
    by rewrite (processChunkQueue_drop _ s).
Qed.

(** C2, evaluated.  Eleven chunks are queued when [endSession] is called
    and every upload succeeds: the terminal flush is one ordinary batch of
    ten, the eleventh chunk is never sent and is still queued once the
    session has ended. *)
Theorem endSession_leaves_eleventh :
  currentSession (run init endWithEleven) = None ∧
  intervals (run init endWithEleven) = [] ∧
  flushes (run init endWithEleven) = [None] ∧
  requestedUploads (run init endWithEleven) = map (λ k, ("A"%string, chunkA k)) (seq 1 10) ∧
  acceptedUploads (run init endWithEleven) = map (λ k, ("A"%string, chunkA k)) (seq 1 10) ∧
  chunkQueue (run init endWithEleven) = [chunkA 11].
Proof. vm_compute. done. Qed.

(** Seven chunks, every upload of the terminal flush refused: all seven are
    back in the queue (in reverse order) after the session has ended. *)
Example endSession_keeps_failed_chunks :
  currentSession (run init endWithSevenFailing) = None ∧
  acceptedUploads (run init endWithSevenFailing) = [] ∧
  chunkQueue (run init endWithSevenFailing) = map chunkA [7; 6; 5; 4; 3; 2; 1].
Proof. vm_compute. done. Qed.

(** The terminal flush is not awaited.  When the end of the session is
    acknowledged first, the upload in flight finds no session to address
    (the chunk is put back) and the rest of the batch is passed over
    without being sent. *)
Example endSession_overtakes_flush :
  currentSession (run init endOvertakesFlush) = None ∧
  requestedUploads (run init endOvertakesFlush) = [] ∧
  flushes (run init endOvertakesFlush) = [None] ∧
  chunkQueue (run init endOvertakesFlush) = [chunkA 1].
Proof. vm_compute. done. Qed.




(** ** Starting a session *)

(** C6, as the code has it.  [startSession] has no guard on the current
    session: it always issues the request and leaves the pipeline as it is
    until the answer; a granted request makes the new session the current
    one, whatever was current before; a failed request is thrown to the
    caller and keeps what was current. *)
Theorem startSession_no_guard :
  (∀ st d,
     step st (CallStartSession d) =
       set_startCalls (startCalls st ++ [Some d]) (emit [ReqStartSession d] st)) ∧
  (∀ st call d sid now, startCalls st !! call = Some (Some d) →
     currentSession (step st (StartSessionResponse call (Some sid) now)) =
       Some {| session_id := sid; device_id := d; started_at := now;
               ended_at := None; duration_seconds := None; is_active := true |} ∧
     isStreaming (step st (StartSessionResponse call (Some sid) now)) = true ∧
     trace (step st (StartSessionResponse call (Some sid) now)) =
       trace st ++
       [ConsoleLog "Streaming session started:";
        StartSessionReturned
          {| session_id := sid; device_id := d; started_at := now;
             ended_at := None; duration_seconds := None; is_active := true |}]) ∧
  (∀ st call d now, startCalls st !! call = Some (Some d) →
     currentSession (step st (StartSessionResponse call None now)) = currentSession st ∧
     isStreaming (step st (StartSessionResponse call None now)) = isStreaming st ∧
     trace (step st (StartSessionResponse call None now)) =
       trace st ++ [ConsoleError "Failed to start streaming session:"; StartSessionThrew]).
Proof.
  split; [done|split].
  - intros st call d sid now Hcall. simpl. by rewrite Hcall.
  - intros st call d now Hcall. simpl. by rewrite Hcall.
Qed.

Lemma startSession_no_guard_witness :
  currentSession
    (step (run init (startA ++ [CallStartSession "dev"]))
       (StartSessionResponse 1 (Some "B") 2000%Z)) =
    Some {| session_id := "B"; device_id := "dev"; started_at := 2000%Z;
            ended_at := None; duration_seconds := None; is_active := true |} ∧
  currentSession
    (step (run init (startA ++ [CallStartSession "dev"]))
       (StartSessionResponse 1 None 2000%Z)) =
    currentSession (run init (startA ++ [CallStartSession "dev"])).
Proof.
  destruct startSession_no_guard as (_ & Hgranted & Hrefused). split.
  - apply (Hgranted (run init (startA ++ [CallStartSession "dev"])) 1 "dev"%string).
    reflexivity.
  - apply (Hrefused (run init (startA ++ [CallStartSession "dev"])) 1 "dev"%string).
    reflexivity.
Defined.

(** C6, as stated, fails: [startSession] while session "A" is active
    returns session "B", which replaces "A"; nothing is thrown. *)
Lemma startSession_counterexample :
  session_id <$> currentSession (run init startA) = Some "A"%string ∧
  isSessionActive (run init startA) = true ∧
  session_id <$> currentSession (run init startTwice) = Some "B"%string ∧
  List.filter (λ o, match o with StartSessionThrew => true | _ => false end)
    (trace (run init startTwice)) = [].
Proof. vm_compute. done. Qed.

(** ** Chunks and their session *)

(** Every chunk entering the queue carries the id of the session current
    at that moment. *)
Lemma uploadChunk_stamps st s x :
  currentSession st = Some s → isStreaming st = true →
  last (chunkQueue (step st (submit x))) = Some (stamp s x) ∧
  chunk_session_id (stamp s x) = session_id s.
Proof.
  intros Hs Hon. rewrite (submit_active st s x Hs Hon). simpl. split.
  - case_match eqn:Hfull.
    + destruct (chunkQueue st) as [|c0 q]; [simpl in Hfull; discriminate|].
      simpl. by rewrite drop_0, last_snoc.
    + by rewrite last_snoc.
  - by destruct x as [[ty d] now].
Qed.

(** A submission without an active session queues nothing. *)
Lemma uploadChunk_no_session st x :
  currentSession st = None ∨ isStreaming st = false →
  chunkQueue (step st (submit x)) = chunkQueue st.
Proof.
  destruct x as [[ty d] now]. simpl. unfold uploadChunk.
  intros [-> | ->]; [done|]. by destruct (currentSession st).
Qed.

(** An upload is addressed to the session current when the request is
    built, whatever session the chunk was stamped with. *)
Lemma upload_addressed_to_current_session st i t s :
  flushes st !! i = Some (Some t) → phase t = AwaitWriteFile →
  currentSession st = Some s →
  trace (step st (WriteFileDone i true)) =
    trace st ++ [ReqUploadChunk (session_id s) (current t)].
Proof.
  intros Hi Hph Hs. simpl. rewrite Hi, Hph. unfold writeFileDone. by rewrite Hs.
Qed.

(** C9, evaluated.  A chunk stamped with session "A" fails in the terminal
    flush of "A" and is put back; "A" ends and the chunk is still queued;
    session "B" starts and its first tick uploads the chunk to the endpoint
    of "B", where the backend accepts it. *)
Theorem stale_chunk_uploaded :
  chunk_session_id (chunkA 1) = "A"%string ∧
  currentSession (run init (take 7 staleChunk)) = None ∧
  chunkQueue (run init (take 7 staleChunk)) = [chunkA 1] ∧
  session_id <$> currentSession (run init staleChunk) = Some "B"%string ∧
  acceptedUploads (run init staleChunk) = [("B"%string, chunkA 1)].
Proof. vm_compute. done. Qed.

End StreamingProperties.

(* ===================================================================== *)
(** * Properties of the connection manager                                 *)
(* ===================================================================== *)
Section WebSocketProperties.
Import WebSocket.

(** Console lines other than the scheduling line add no delay. *)
Ltac plain_log :=
  unfold scheduledDelays; simpl; rewrite ?omap_app; simpl; by rewrite ?app_nil_r.

(** ** The reconnect delay *)

Lemma reconnectDelay_mono n : (reconnectDelay n ≤ reconnectDelay (S n))%Z.
Proof. unfold reconnectDelay, RECONNECT_INTERVAL. lia. Qed.

Lemma reconnectDelay_capped n : (reconnectDelay n ≤ 30000)%Z.
Proof. unfold reconnectDelay. lia. Qed.

Lemma reconnectDelay_mono_le n m : n ≤ m → (reconnectDelay n ≤ reconnectDelay m)%Z.
Proof. unfold reconnectDelay, RECONNECT_INTERVAL. lia. Qed.

(** ** Which functions touch the reconnect bookkeeping *)

Lemma unchanged_refl st : unchanged st st.
Proof. by split. Qed.

Lemma unchanged_trans st1 st2 st3 :
  unchanged st1 st2 → unchanged st2 st3 → unchanged st1 st3.
Proof. intros [? ?] [? ?]. split; congruence. Qed.

Lemma unchanged_then_once st1 st2 st3 :
  unchanged st1 st2 → scheduledOnce st2 st3 → scheduledOnce st1 st3.
Proof. intros [Ha Hd] [Ha' Hd']. split; congruence. Qed.

Lemma scheduledDelays_log es st :
  scheduledDelays (log es st) =
  scheduledDelays st ++
    omap (λ e, match e with LogScheduling _ d => Some d | _ => None end) es.
Proof. unfold scheduledDelays. simpl. by rewrite omap_app. Qed.

Lemma scheduleReconnect_once st : scheduledOnce st (scheduleReconnect st).
Proof.
  unfold scheduledOnce, scheduleReconnect.
  destruct (reconnectTimeoutRef st); simpl; split; try done;
    unfold scheduledDelays; simpl; by rewrite omap_app.
Qed.

Lemma scheduleReconnect_timer st :
  reconnectTimeoutRef (scheduleReconnect st) = Some (length (timers st)) ∧
  timers (scheduleReconnect st) !! length (timers st) =
    Some (Some (ReconnectTimer (reconnectDelay (S (reconnectAttemptsRef st))))).
Proof.
  unfold scheduleReconnect.
  destruct (reconnectTimeoutRef st); simpl; unfold clearTimeout;
    rewrite ?length_insert; split; try done; apply list_lookup_middle;
    by rewrite ?length_insert.
Qed.

Lemma sendMessage_unchanged m now throws st : unchanged st (sendMessage m now throws st).
Proof.
  unfold unchanged, sendMessage, scheduledDelays.
  repeat case_match; simpl; rewrite ?omap_app; simpl; by rewrite ?app_nil_r.
Qed.

Lemma disconnect_unchanged st : unchanged st (disconnect st).
Proof.
  unfold unchanged, disconnect, scheduledDelays.
  repeat case_match; simpl; repeat case_match; done.
Qed.

Lemma reconnect_unchanged st : unchanged st (reconnect st).
Proof.
  unfold reconnect. destruct (disconnect_unchanged st) as [Ha Hd].
  split; simpl; [exact Ha|exact Hd].
Qed.

Lemma onmessage_unchanged parsed st : unchanged st (onmessage parsed st).
Proof.
  unfold unchanged, onmessage, handleIncomingMessage, scheduledDelays.
  repeat case_match; simpl; rewrite ?omap_app; simpl; by rewrite ?app_nil_r.
Qed.

Lemma onerror_unchanged st : unchanged st (onerror st).
Proof. split; [done|plain_log]. Qed.

(** [connect] schedules a reconnect only from its [catch]. *)
Lemma connect_effect ctorThrows st :
  unchanged st (connect ctorThrows st) ∨
  (ctorThrows = true ∧ scheduledOnce st (connect ctorThrows st)).
Proof.
  unfold connect.
  destruct (user st); [|left; split; [done|plain_log]].
  destruct (truthy_opt (token st)); [|left; split; [done|plain_log]].
  assert (∀ st0, unchanged st0 (log [Log "WebSocket already connecting/connected"] st0))
    as Hlog by (intros st0; split; [done|plain_log]).
  assert (unchanged st (set_connectionStatus error
            (log [LogError "Failed to create WebSocket connection:"]
               (set_connectionStatus connecting st)))) as Hcatch
    by (split; [done|plain_log]).
  destruct (currentReadyState st) as [[]|]; try (left; apply Hlog);
    (destruct ctorThrows;
     [right; split; [done|];
      exact (unchanged_then_once _ _ _ Hcatch (scheduleReconnect_once _))
     |left; by split]).
Qed.

Lemma connect_false_unchanged st : unchanged st (connect false st).
Proof. destruct (connect_effect false st) as [H|[? _]]; [done|discriminate]. Qed.

(** The close handler schedules a reconnect exactly under its guard. *)
Lemma onclose_effect code st :
  if negb (code =? 1000)%Z && (reconnectAttemptsRef st <? MAX_RECONNECT_ATTEMPTS)
  then scheduledOnce st (onclose code st)
  else unchanged st (onclose code st).
Proof.
  unfold onclose.
  assert (unchanged st (set_connection false disconnected
            (log [Log "WebSocket disconnected:"] st))) as Hpre
    by (split; [done|plain_log]).
  simpl. destruct (negb (code =? 1000)%Z && (reconnectAttemptsRef st <? MAX_RECONNECT_ATTEMPTS)).
  - exact (unchanged_then_once _ _ _ Hpre (scheduleReconnect_once _)).
  - exact Hpre.
Qed.

Lemma onopen_delays now sendThrows st :
  scheduledDelays (onopen now sendThrows st) = scheduledDelays st.
Proof.
  unfold onopen. destruct (user _) eqn:Hu.
  - destruct (sendMessage_unchanged
      {| msg_type := "device_info";
         data := Some (DeviceInfo (default "" (or_else (deviceId u) (Some (user_id u))))
                         (user_id u) "mobile" "1.0.0");
         timestamp := None; device_id := None |} now sendThrows
      (set_reconnectAttempts 0
         (set_connection true connected (log [Log "WebSocket connected"] st)))) as [_ ->].
    plain_log.
  - plain_log.
Qed.

(** ** What one event does to the reconnect bookkeeping *)

Lemma step_effect st ev :
  unchanged st (step st ev) ∨
  (isSocketOpen ev = true ∧ scheduledDelays (step st ev) = scheduledDelays st) ∨
  (scheduledOnce st (step st ev) ∧
   ((∃ s code, ev = SocketClose s code ∧ code ≠ 1000%Z ∧
               reconnectAttemptsRef st < MAX_RECONNECT_ATTEMPTS) ∨
    ctorThrowsIn ev = true)).
Proof.
  destruct ev as [b| | |m now throws|s now sendThrows|s parsed|s|s code|t b|next b]; simpl.
  - destruct (connect_effect b st) as [H|[-> H]]; [by left|right; right; by split; [|right]].
  - left. apply disconnect_unchanged.
  - left. apply reconnect_unchanged.
  - left. apply sendMessage_unchanged.
  - destruct (readyState <$> sockets st !! s) as [[]|]; try (left; apply unchanged_refl).
    right; left. split; [done|]. by rewrite onopen_delays.
  - destruct (readyState <$> sockets st !! s) as [[]|]; try (left; apply unchanged_refl);
      left; apply onmessage_unchanged.
  - destruct (sockets st !! s); [|left; apply unchanged_refl].
    left. apply (unchanged_trans _ (set_ws (wsRef st) (set_readyState s CLOSED (sockets st)) st));
      [by split|apply onerror_unchanged].
  - destruct (sockets st !! s); [|left; apply unchanged_refl].
    pose proof (onclose_effect code
      (set_ws (wsRef st) (set_readyState s CLOSED (sockets st)) st)) as H.
    simpl in H.
    destruct (negb (code =? 1000)%Z && (reconnectAttemptsRef st <? MAX_RECONNECT_ATTEMPTS))
      eqn:Hguard.
    + right; right. split; [exact H|left].
      apply andb_prop in Hguard as [Hcode Hatt].
      exists s, code. repeat split.
      * apply negb_true_iff in Hcode. by apply Z.eqb_neq.
      * by apply Nat.ltb_lt.
    + left. exact H.
  - destruct (timers st !! t) as [[tm|]|]; try (left; apply unchanged_refl).
    assert (unchanged st
      (set_timeout (reconnectTimeoutRef st) (clearTimeout t (timers st)) st)) as Hpre
      by (by split).
    assert (∀ st1, unchanged st st1 →
      unchanged st (connect b st1) ∨
      scheduledOnce st (connect b st1) ∧
      ((∃ s code, TimerFires t b = SocketClose s code ∧ code ≠ 1000%Z ∧
                  reconnectAttemptsRef st < MAX_RECONNECT_ATTEMPTS) ∨ b = true)) as Hconn.
    { intros st1 H1. destruct (connect_effect b st1) as [H|[-> H]].
      - left. by apply (unchanged_trans _ st1).
      - right. split; [by apply (unchanged_then_once _ st1)|by right]. }
    destruct tm.
    + destruct (appStateRef _); try (by left).
      destruct (Hconn _ Hpre) as [H|H]; [by left|by right; right].
    + destruct (Hconn _ Hpre) as [H|H]; [by left|by right; right].
  - unfold handleAppStateChange.
    assert (unchanged st (set_appState next st)) as Hpre by (by split).
    destruct next; simpl.
    + destruct (negb (isConnected st) && bool_decide (is_Some (user st))
                && truthy_opt (token st)); [|by left].
      destruct (connect_effect b (set_appState active st)) as [H|[-> H]].
      * left. by apply (unchanged_trans _ (set_appState active st)).
      * right; right. split; [by apply (unchanged_then_once _ (set_appState active st))|by right].
    + left. by destruct (reconnectTimeoutRef st).
    + left. by destruct (reconnectTimeoutRef st).
    + by left.
    + by left.
Qed.

(** Without a socket opening in between, the delays scheduled since the
    start are those of attempts 1, 2, ... up to the current attempt count. *)
Lemma run_delays evs : ∀ st,
  scheduledDelays st = map reconnectDelay (seq 1 (reconnectAttemptsRef st)) →
  Forall (λ ev, isSocketOpen ev = false) evs →
  scheduledDelays (run st evs) =
  map reconnectDelay (seq 1 (reconnectAttemptsRef (run st evs))).
Proof.
  induction evs as [|ev evs IH]; intros st Hinv Hevs; [done|].
  apply Forall_cons in Hevs as [Hev Hevs]. simpl. apply IH; [|done].
  destruct (step_effect st ev) as [[Ha Hd]|[[Hopen _]|[[Ha Hd] _]]].
  - by rewrite Ha, Hd.
  - congruence.
  - rewrite Ha, Hd, Hinv, seq_S, map_app. done.
Qed.

Lemma SocketClose_abnormal st s code :
  code ≠ 1000%Z → step st (SocketClose s code) = step st (SocketClose s 1006%Z).
Proof.
  intros Hcode. simpl. destruct (sockets st !! s); [|done].
  unfold onclose. apply Z.eqb_neq in Hcode. by rewrite Hcode.
Qed.

(** C4. Each scheduled reconnect increments the attempt count and waits
    min(5000 × attempt count after the increment, 30000) ms; the delay never
    decreases from one attempt to the next and never exceeds 30000 ms; as
    long as no socket opens, the delays scheduled are exactly those of
    attempts 1, 2, ..., N; and three closes in a row with codes other than
    1000 schedule 5000, 10000 and 15000 ms. *)
Theorem reconnect_delays :
  (∀ st,
     reconnectAttemptsRef (scheduleReconnect st) = S (reconnectAttemptsRef st) ∧
     scheduledDelays (scheduleReconnect st) =
       scheduledDelays st ++
       [Z.min (RECONNECT_INTERVAL * Z.of_nat (S (reconnectAttemptsRef st))) 30000] ∧
     timers (scheduleReconnect st) !! length (timers st) =
       Some (Some (ReconnectTimer
         (Z.min (RECONNECT_INTERVAL * Z.of_nat (S (reconnectAttemptsRef st))) 30000)))) ∧
  (∀ n m, n ≤ m →
     (reconnectDelay n ≤ reconnectDelay m)%Z ∧ (reconnectDelay n ≤ 30000)%Z) ∧
  (∀ u tk evs, Forall (λ ev, isSocketOpen ev = false) evs →
     scheduledDelays (run (init u tk) evs) =
     map reconnectDelay (seq 1 (reconnectAttemptsRef (run (init u tk) evs)))) ∧
  (∀ c1 c2 c3, c1 ≠ 1000%Z → c2 ≠ 1000%Z → c3 ≠ 1000%Z →
     scheduledDelays (run signedIn (threeCloses c1 c2 c3)) = [5000; 10000; 15000]%Z).
Proof.
  split; [|split; [|split]].
  - intros st. destruct (scheduleReconnect_once st) as [Ha Hd].
    destruct (scheduleReconnect_timer st) as [_ Ht]. done.
  - intros n m Hnm. split; [by apply reconnectDelay_mono_le|apply reconnectDelay_capped].
  - intros u tk evs Hevs. by apply run_delays.
  - intros c1 c2 c3 H1 H2 H3. unfold threeCloses, run. cbn [foldl].
    rewrite (SocketClose_abnormal _ 0 c1 H1), (SocketClose_abnormal _ 1 c2 H2),
      (SocketClose_abnormal _ 2 c3 H3).
    vm_compute. done.
Qed.

Lemma reconnect_delays_witness :
  ((reconnectDelay 3 ≤ reconnectDelay 7)%Z ∧ (reconnectDelay 3 ≤ 30000)%Z) ∧
  scheduledDelays (run signedIn tenFailures) =
    map reconnectDelay (seq 1 (reconnectAttemptsRef (run signedIn tenFailures))) ∧
  scheduledDelays (run signedIn (threeCloses 1006 1001 1011)) = [5000; 10000; 15000]%Z.
Proof.
  destruct reconnect_delays as (_ & Hmono & Hrun & Hthree).
  split; [|split].
  - apply Hmono. lia.
  - apply Hrun. unfold tenFailures. simpl. repeat constructor.
  - apply Hthree; lia.
Defined.

(** ** Sending without a connection *)


Lemma disconnect_status st :
  connectionStatus (disconnect st) = disconnected ∧ isConnected (disconnect st) = false.
Proof. done. Qed.




(** With an open socket the message is stamped and handed to that socket
    (shown for contrast with the theorem above). *)
Example send_while_connected :
  delivered (run signedIn
    [CallConnect false; SocketOpen 0 5%Z false;
     CallSendMessage {| msg_type := "x"; data := None; timestamp := None;
                        device_id := None |} 7%Z false]) =
  [[ {| msg_type := "device_info";
        data := Some (DeviceInfo "d1" "u1" "mobile" "1.0.0");
        timestamp := Some 5%Z; device_id := Some "d1"%string |};
     {| msg_type := "x"; data := None; timestamp := Some 7%Z;
        device_id := Some "d1"%string |} ]].
Proof. vm_compute. done. Qed.

(** ** When a reconnect is scheduled *)

(** C8, as the code has it.  A reconnect is scheduled only (a) by the close
    handler, for a close code other than 1000 while the attempt count is
    below 10, or (b) by [connect] when creating the socket throws.  Under
    the guard of (a) the close handler does schedule one.  Once the attempt
    count has reached 10, no event schedules a reconnect or changes the
    count, explicit [connect()] calls included, as long as no socket opens
    (which resets the count) and no socket creation throws. *)
Theorem reconnect_scheduling :
  (∀ st ev, scheduledDelays (step st ev) ≠ scheduledDelays st →
     (∃ s code, ev = SocketClose s code ∧ code ≠ 1000%Z ∧
                reconnectAttemptsRef st < MAX_RECONNECT_ATTEMPTS) ∨
     ctorThrowsIn ev = true) ∧
  (∀ st s code, is_Some (sockets st !! s) → code ≠ 1000%Z →
     reconnectAttemptsRef st < MAX_RECONNECT_ATTEMPTS →
     scheduledDelays (step st (SocketClose s code)) =
       scheduledDelays st ++ [reconnectDelay (S (reconnectAttemptsRef st))]) ∧
  (∀ evs st, MAX_RECONNECT_ATTEMPTS ≤ reconnectAttemptsRef st →
     Forall (λ ev, isSocketOpen ev = false ∧ ctorThrowsIn ev = false) evs →
     scheduledDelays (run st evs) = scheduledDelays st ∧
     reconnectAttemptsRef (run st evs) = reconnectAttemptsRef st).
Proof.
  split; [|split].
  - intros st ev Hchanged.
    destruct (step_effect st ev) as [[_ Hd]|[[_ Hd]|[_ Hwhy]]]; done.
  - intros st s code [sock Hsock] Hcode Hatt. simpl. rewrite Hsock.
    pose proof (onclose_effect code
      (set_ws (wsRef st) (set_readyState s CLOSED (sockets st)) st)) as H.
    simpl in H. apply Z.eqb_neq in Hcode. apply Nat.ltb_lt in Hatt.
    rewrite Hcode, Hatt in H. simpl in H. by destruct H as [_ H].
  - induction evs as [|ev evs IH]; intros st Hmax Hevs; [done|].
    apply Forall_cons in Hevs as [[Hopen Hctor] Hevs]. simpl.
    destruct (step_effect st ev) as [[Ha Hd]|[[Hopen' _]|[_ [(s & code & _ & _ & Hlt)|Hctor']]]];
      [|congruence|lia|congruence].
    destruct (IH (step st ev)) as [Hd' Ha']; [by rewrite Ha|done|].
    split; congruence.
Qed.

Lemma reconnect_scheduling_witness :
  scheduledDelays (step (run signedIn [CallConnect false]) (SocketClose 0 1006%Z)) =
    scheduledDelays (run signedIn [CallConnect false]) ++ [reconnectDelay 1] ∧
  scheduledDelays
    (run (run signedIn tenFailures)
       [SocketClose 10 1006%Z; CallConnect false; SocketClose 11 1006%Z]) =
    scheduledDelays (run signedIn tenFailures).
Proof.
  destruct reconnect_scheduling as (_ & Hclose & Hstop). split.
  - apply (Hclose (run signedIn [CallConnect false]) 0 1006%Z).
    + vm_compute. eauto.
    + lia.
    + vm_compute. lia.
  - apply (Hstop [SocketClose 10 1006%Z; CallConnect false; SocketClose 11 1006%Z]
             (run signedIn tenFailures)).
    + vm_compute. lia.
    + repeat constructor.
Defined.

(** C8, as stated, fails: [connect()] with a socket constructor that throws
    schedules a reconnect although no socket was ever created, let alone
    closed. *)
Lemma reconnect_without_close_counterexample :
  sockets (run signedIn [CallConnect true]) = [] ∧
  scheduledDelays (run signedIn [CallConnect true]) = [5000%Z] ∧
  timers (run signedIn [CallConnect true]) = [Some (ReconnectTimer 5000)].
Proof. vm_compute. done. Qed.

(** The [catch] of [connect] does not look at the attempt count: after ten
    failed attempts, a scheduled reconnect whose socket creation throws
    schedules an eleventh. *)
Example attempt_limit_not_checked_in_catch :
  reconnectAttemptsRef (run signedIn (take 20 tenFailures)) = 10 ∧
  scheduledDelays (run signedIn (take 20 tenFailures ++ [TimerFires 9 true])) =
    scheduledDelays (run signedIn (take 20 tenFailures)) ++ [30000%Z].
Proof. vm_compute. done. Qed.

End WebSocketProperties.

(* ===================================================================== *)
(** * Further properties of the streaming pipeline                         *)
(* ===================================================================== *)
Section StreamingCoverage.
Import Streaming.

(** ** What an event adds to the trace *)

(** The observations only grow, and an upload request is always addressed
    to the session current at that moment. *)
Lemma step_trace st ev :
  ∃ os, trace (step st ev) = trace st ++ os ∧
    Forall (λ o, match o with
                 | ReqUploadChunk sid _ =>
                     ∃ s, currentSession st = Some s ∧ sid = session_id s
                 | _ => True
                 end) os.
Proof.
  assert (∀ i t st0, currentSession st0 = currentSession st → trace st0 = trace st →
            ∃ os, trace (uploadFailed i t st0) = trace st ++ os ∧
              Forall (λ o, match o with
                           | ReqUploadChunk sid _ =>
                               ∃ s, currentSession st = Some s ∧ sid = session_id s
                           | _ => True
                           end) os) as Hfailed.
  { intros i t st0 _ Htr. destruct (uploadFailed_observed i t st0) as (-> & _ & _).
    rewrite Htr. eexists. split; [reflexivity|]. by repeat constructor. }
  assert (∃ os, trace st = trace st ++ os ∧
            Forall (λ o, match o with
                         | ReqUploadChunk sid _ =>
                             ∃ s, currentSession st = Some s ∧ sid = session_id s
                         | _ => True
                         end) os) as Hnone.
  { exists []. by rewrite app_nil_r. }
  destruct ev as [d|call r now| |call ok|ty d now|h|i ok|i r|i ok| ]; simpl.
  - eexists. split; [reflexivity|]. by repeat constructor.
  - destruct (startCalls st !! call) as [[d|]|]; try exact Hnone.
    destruct r; simpl; (eexists; split; [reflexivity|]; by repeat constructor).
  - unfold endSession. destruct (currentSession st) eqn:Hs.
    + destruct (stopChunkUploader_spec (set_isStreaming false st))
        as (_ & _ & Hcur & _ & Htr & _).
      simpl in Hcur, Htr. rewrite Hcur, Hs. simpl. rewrite Htr.
      eexists. split; [reflexivity|]. by repeat constructor.
    + eexists. split; [reflexivity|]. by repeat constructor.
  - destruct (endCalls st !! call) as [[sid|]|]; try exact Hnone.
    unfold endSessionResumed. simpl.
    destruct ok; [destruct (currentSession st)|]; simpl;
      try (eexists; split; [reflexivity|]; by repeat constructor).
    rewrite <- app_assoc. eexists. split; [reflexivity|]. by repeat constructor.
  - unfold uploadChunk. destruct (currentSession st); [destruct (isStreaming st)|];
      simpl; try exact Hnone; (eexists; split; [reflexivity|]; by repeat constructor).
  - destruct (bool_decide _); [|exact Hnone]. rewrite processChunkQueue_trace. exact Hnone.
  - destruct (flushes st !! i) as [[t|]|]; try exact Hnone.
    destruct (phase t); try exact Hnone. unfold writeFileDone.
    destruct ok; [|by apply Hfailed]. destruct (currentSession st) as [s|] eqn:Hs;
      [|by apply Hfailed].
    simpl. eexists. split; [reflexivity|]. repeat constructor. by exists s.
  - destruct (flushes st !! i) as [[t|]|]; try exact Hnone.
    destruct (phase t); try exact Hnone. unfold fetchDone.
    destruct r; try (by apply Hfailed).
    simpl. eexists. split; [reflexivity|]. by repeat constructor.
  - destruct (flushes st !! i) as [[t|]|]; try exact Hnone.
    destruct (phase t); try exact Hnone. unfold unlinkDone.
    destruct ok; [|by apply Hfailed]. rewrite forLoop_trace. exact Hnone.
  - unfold cleanup. simpl.
    destruct (stopChunkUploader_spec st) as (_ & _ & _ & _ & -> & _). exact Hnone.
Qed.

(** ** Without a session *)

(** X1. While no session is current the pipeline sends no chunk: no event
    of any kind issues an upload request, a flush tick leaves the pipeline
    exactly as it is (the queue is not touched), and a submitted chunk is
    not queued. *)
Theorem no_upload_without_session st :
  currentSession st = None →
  (∀ ev, requestedUploads (step st ev) = requestedUploads st) ∧
  (∀ h, step st (IntervalFires h) = st) ∧
  (∀ ty d now, chunkQueue (step st (CallUploadChunk ty d now)) = chunkQueue st).
Proof.
  intros Hnone. split; [|split].
  - intros ev. destruct (step_trace st ev) as (os & Htr & Hos).
    unfold requestedUploads. rewrite Htr, omap_app.
    assert (omap (λ o, match o with
                       | ReqUploadChunk sid c => Some (sid, c)
                       | _ => None
                       end) os = []) as ->; [|by rewrite app_nil_r].
    clear Htr. induction Hos as [|o os Ho _ IH]; [done|].
    destruct o; simpl; try exact IH.
    destruct Ho as (s & Hs & _). congruence.
  - intros h. simpl. destruct (bool_decide _); [|done].
    unfold processChunkQueue. rewrite Hnone. simpl. by rewrite orb_true_r.
  - intros ty d now. simpl. unfold uploadChunk. by rewrite Hnone.
Qed.

Lemma no_upload_without_session_witness :
  requestedUploads
    (step (run init (startA ++ submits 3 ++ [CallEndSession; EndSessionResponse 0 true]))
       (WriteFileDone 0 true)) =
  requestedUploads (run init (startA ++ submits 3 ++ [CallEndSession; EndSessionResponse 0 true])).
Proof.
  apply (no_upload_without_session
           (run init (startA ++ submits 3 ++ [CallEndSession; EndSessionResponse 0 true]))).
  reflexivity.
Defined.

(** ** Submitting and the active flag *)

(** X2. [uploadChunk] accepts a chunk exactly when [isSessionActive()]
    holds.  Then the chunk, stamped with the current session's id and the
    clock reading, becomes the last element of the queue and nothing is
    logged; otherwise the only effect of the call is one warning. *)
Theorem uploadChunk_needs_active_session st ty d now :
  (isSessionActive st = true →
     ∃ s, currentSession st = Some s ∧
       last (chunkQueue (step st (CallUploadChunk ty d now))) = Some (stamp s (ty, d, now)) ∧
       trace (step st (CallUploadChunk ty d now)) = trace st) ∧
  (isSessionActive st = false →
     step st (CallUploadChunk ty d now) =
       emit [ConsoleWarn "No active session, chunk discarded"] st).
Proof.
  unfold isSessionActive. simpl. unfold uploadChunk. split.
  - intros Hact. apply andb_prop in Hact as [Hon Hs].
    apply bool_decide_eq_true_1 in Hs as [s Hs]. exists s. rewrite Hs, Hon. simpl.
    repeat split; try done.
    case_match eqn:Hfull; [|by rewrite last_snoc].
    destruct (chunkQueue st) as [|c0 q]; [simpl in Hfull; discriminate|].
    simpl. by rewrite drop_0, last_snoc.
  - intros Hact. destruct (currentSession st) as [s|]; [|done].
    destruct (isStreaming st); [|done].
    rewrite bool_decide_eq_true_2 in Hact by eauto. discriminate.
Qed.

Lemma uploadChunk_needs_active_session_witness :
  (∃ s, currentSession (run init startA) = Some s ∧
     last (chunkQueue (step (run init startA) (CallUploadChunk video [] 5%Z))) =
       Some (stamp s (video, [], 5%Z)) ∧
     trace (step (run init startA) (CallUploadChunk video [] 5%Z)) = trace (run init startA)) ∧
  step (run init endRefused) (CallUploadChunk video [] 5%Z) =
    emit [ConsoleWarn "No active session, chunk discarded"] (run init endRefused).
Proof.
  split.
  - apply (uploadChunk_needs_active_session (run init startA) video [] 5%Z). reflexivity.
  - apply (uploadChunk_needs_active_session (run init endRefused) video [] 5%Z). reflexivity.
Defined.

(** ** Teardown *)

(** X3. [cleanup()] leaves no session, no streaming flag, an empty queue
    and no timer reference, whatever the state it is called in, and calling
    it again changes nothing.  After it, submitted chunks are discarded and
    flush ticks do nothing. *)
Theorem cleanup_idempotent st :
  step (step st CallCleanup) CallCleanup = step st CallCleanup ∧
  currentSession (step st CallCleanup) = None ∧
  isStreaming (step st CallCleanup) = false ∧
  isSessionActive (step st CallCleanup) = false ∧
  chunkQueue (step st CallCleanup) = [] ∧
  getQueueSize (step st CallCleanup) = 0 ∧
  uploadInterval (step st CallCleanup) = None ∧
  (∀ h, uploadInterval st = Some h → h ∉ intervals (step st CallCleanup)) ∧
  (∀ ty d now, chunkQueue (step (step st CallCleanup) (CallUploadChunk ty d now)) = []) ∧
  (∀ h, step (step st CallCleanup) (IntervalFires h) = step st CallCleanup).
Proof.
  destruct (stopChunkUploader_spec st) as (Hui & Harmed & _).
  assert (uploadInterval (cleanup st) = None) as Hui' by exact Hui.
  assert (processChunkQueue (cleanup st) = cleanup st) as Hflush by done.
  simpl. repeat split; try done.
  - unfold cleanup at 1. unfold stopChunkUploader. by rewrite Hui', Hflush.
  - intros h. by destruct (bool_decide _).
Qed.

Lemma cleanup_idempotent_witness :
  uploadInterval (run init startA) = Some 1 ∧
  (1 ∉ intervals (step (run init startA) CallCleanup)) ∧
  step (step (run init (startA ++ submits 3)) CallCleanup) CallCleanup =
    step (run init (startA ++ submits 3)) CallCleanup.
Proof.
  split; [reflexivity|]. split.
  - destruct (cleanup_idempotent (run init startA)) as (_ & _ & _ & _ & _ & _ & _ & Hh & _).
    apply (Hh 1). reflexivity.
  - apply (cleanup_idempotent (run init (startA ++ submits 3))).
Defined.

(** With no session the loop passes over every chunk it has left. *)
Lemma forLoop_no_session i l st :
  currentSession st = None →
  forLoop i l st = set_flushes (<[i := None]> (flushes st)) st.
Proof.
  intros Hnone. induction l as [|c l IH]; simpl; [done|].
  unfold uploadSingleChunk. by rewrite Hnone.
Qed.

(** X4. The flush started by [cleanup()] is not awaited and outlives it.
    With a session and a non-empty queue, [cleanup()] empties the queue, but
    when the file write of the first chunk settles afterwards (successfully
    or not) the upload finds no session: nothing is sent, the rest of the
    batch is passed over, and the first chunk is put back, so the queue that
    [cleanup()] emptied holds one chunk again. *)
Theorem cleanup_revives_first_chunk st s c q ok :
  currentSession st = Some s → chunkQueue st = c :: q →
  chunkQueue (step st CallCleanup) = [] ∧
  chunkQueue (step (step st CallCleanup) (WriteFileDone (length (flushes st)) ok)) = [c] ∧
  flushes (step (step st CallCleanup) (WriteFileDone (length (flushes st)) ok))
    !! length (flushes st) = Some None ∧
  requestedUploads (step (step st CallCleanup) (WriteFileDone (length (flushes st)) ok)) =
    requestedUploads st ∧
  currentSession (step (step st CallCleanup) (WriteFileDone (length (flushes st)) ok)) = None.
Proof.
  destruct st as [cs on qu ui iv nh fl sc ec tr]. simpl. intros -> ->.
  unfold cleanup, stopChunkUploader, processChunkQueue.
  destruct ui as [h|]; cbn;
    (rewrite list_lookup_insert_eq by (rewrite length_app; simpl; lia)); cbn;
    destruct ok; cbn; rewrite forLoop_no_session by done; cbn;
    rewrite list_lookup_insert_eq
      by (rewrite length_insert, length_app; simpl; lia);
    repeat split; try done;
    unfold requestedUploads; cbn; rewrite omap_app; cbn; by rewrite app_nil_r.
Qed.

Lemma cleanup_revives_first_chunk_witness :
  chunkQueue (step (run init (startA ++ submits 3)) CallCleanup) = [] ∧
  chunkQueue (step (step (run init (startA ++ submits 3)) CallCleanup)
                (WriteFileDone 0 true)) = [chunkA 1].
Proof.
  destruct (cleanup_revives_first_chunk (run init (startA ++ submits 3))
              {| session_id := "A"; device_id := "dev"; started_at := 1000%Z;
                 ended_at := None; duration_seconds := None; is_active := true |}
              (chunkA 1) [chunkA 2; chunkA 3] true) as (H1 & H2 & _);
    [reflexivity|reflexivity|].
  split; [exact H1|exact H2].
Defined.

(** ** A whole flush *)

Lemma run_app st evs1 evs2 : run st (evs1 ++ evs2) = run (run st evs1) evs2.
Proof. unfold run. apply foldl_app. Qed.

(** The loop of a flush whose uploads all succeed: each chunk of the batch
    is requested and accepted in turn under the current session. *)
Lemma loop_succeeds i s : ∀ rest c st,
  currentSession st = Some s →
  flushes st !! i =
    Some (Some {| current := c; phase := AwaitWriteFile; remaining := rest |}) →
  currentSession (run st (flat_map (λ _, uploadSucceeds i) (c :: rest))) = Some s ∧
  chunkQueue (run st (flat_map (λ _, uploadSucceeds i) (c :: rest))) = chunkQueue st ∧
  trace (run st (flat_map (λ _, uploadSucceeds i) (c :: rest))) =
    trace st ++ flat_map (λ c, [ReqUploadChunk (session_id s) c;
                                UploadAccepted (session_id s) c]) (c :: rest) ∧
  flushes (run st (flat_map (λ _, uploadSucceeds i) (c :: rest))) !! i = Some None.
Proof.
  induction rest as [|c2 rest IH]; intros c st Hs Hfl;
    pose proof (lookup_lt_Some _ _ _ Hfl) as Hlt;
    destruct st as [cs on qu ui iv nh fl sc ec tr]; simpl in Hs, Hfl, Hlt; subst cs.
  - cbn. rewrite Hfl. cbn.
    rewrite list_lookup_insert_eq by done. cbn.
    rewrite list_lookup_insert_eq by (by rewrite length_insert). cbn.
    rewrite list_lookup_insert_eq by (by rewrite !length_insert).
    repeat split; try done. by rewrite <- app_assoc.
  - change (flat_map (λ _, uploadSucceeds i) (c :: c2 :: rest))
      with (uploadSucceeds i ++ flat_map (λ _, uploadSucceeds i) (c2 :: rest)).
    rewrite !run_app.
    match goal with |- context [run (run ?st0 (uploadSucceeds i)) _] =>
      set (st1 := run st0 (uploadSucceeds i)) end.
    assert (currentSession st1 = Some s ∧ chunkQueue st1 = qu ∧
            trace st1 = tr ++ [ReqUploadChunk (session_id s) c;
                               UploadAccepted (session_id s) c] ∧
            flushes st1 !! i =
              Some (Some {| current := c2; phase := AwaitWriteFile; remaining := rest |}))
      as (Hs1 & Hq1 & Htr1 & Hfl1).
    { subst st1. cbn. rewrite Hfl. cbn.
      rewrite list_lookup_insert_eq by done. cbn.
      rewrite list_lookup_insert_eq by (by rewrite length_insert). cbn.
      rewrite list_lookup_insert_eq by (by rewrite !length_insert).
      repeat split; try done. by rewrite <- app_assoc. }
    destruct (IH c2 st1 Hs1 Hfl1) as (Hs2 & Hq2 & Htr2 & Hfl2).
    repeat split; try done.
    + by rewrite Hq2.
    + rewrite Htr2, Htr1. by rewrite <- app_assoc.
Qed.

(** X5. A flush tick under a session, in which every upload succeeds,
    sends the first ten chunks of the queue and only those, one after the
    other in queue order and each to the endpoint of the current session;
    the backend accepts them in that order and the queue is left with the
    chunks from the eleventh on. *)
Theorem flush_uploads_first_ten_in_order st s h :
  currentSession st = Some s → h ∈ intervals st →
  chunkQueue (flushSucceeds h st) = drop 10 (chunkQueue st) ∧
  requestedUploads (flushSucceeds h st) =
    requestedUploads st ++ map (λ c, (session_id s, c)) (take 10 (chunkQueue st)) ∧
  acceptedUploads (flushSucceeds h st) =
    acceptedUploads st ++ map (λ c, (session_id s, c)) (take 10 (chunkQueue st)) ∧
  currentSession (flushSucceeds h st) = Some s.
Proof.
  intros Hs Hh. unfold flushSucceeds.
  change (run st (IntervalFires h :: ?evs)) with (run (step st (IntervalFires h)) evs).
  simpl step. rewrite (bool_decide_eq_true_2 _ Hh).
  destruct (chunkQueue st) as [|c q] eqn:Hq.
  - unfold processChunkQueue. rewrite Hq. simpl.
    rewrite Hq, !app_nil_r. done.
  - set (st1 := processChunkQueue st).
    assert (currentSession st1 = Some s ∧ chunkQueue st1 = drop 10 (c :: q) ∧
            trace st1 = trace st ∧
            flushes st1 !! length (flushes st) =
              Some (Some {| current := c; phase := AwaitWriteFile;
                            remaining := take 9 q |})) as (Hs1 & Hq1 & Htr1 & Hfl1).
    { subst st1. unfold processChunkQueue. rewrite Hq, Hs. simpl.
      unfold uploadSingleChunk. simpl. rewrite Hs. simpl.
      repeat split; try done.
      apply list_lookup_insert_eq. rewrite length_app. simpl. lia. }
    destruct (loop_succeeds (length (flushes st)) s (take 9 q) c st1 Hs1 Hfl1)
      as (Hs2 & Hq2 & Htr2 & _).
    change (take 10 (c :: q)) with (c :: take 9 q).
    split; [by rewrite Hq2|]. split; [|split; [|done]].
    + unfold requestedUploads. rewrite Htr2, Htr1, omap_app. f_equal.
      generalize (c :: take 9 q). intros l. induction l as [|c1 l IH]; [done|].
      simpl. f_equal. exact IH.
    + unfold acceptedUploads. rewrite Htr2, Htr1, omap_app. f_equal.
      generalize (c :: take 9 q). intros l. induction l as [|c1 l IH]; [done|].
      simpl. f_equal. exact IH.
Qed.

Lemma flush_uploads_first_ten_in_order_witness :
  chunkQueue (flushSucceeds 1 (run init (startA ++ submits 12))) = [chunkA 11; chunkA 12] ∧
  acceptedUploads (flushSucceeds 1 (run init (startA ++ submits 12))) =
    map (λ k, ("A"%string, chunkA k)) (seq 1 10).
Proof.
  destruct (flush_uploads_first_ten_in_order (run init (startA ++ submits 12))
              {| session_id := "A"; device_id := "dev"; started_at := 1000%Z;
                 ended_at := None; duration_seconds := None; is_active := true |} 1)
    as (Hq & _ & Hacc & _); [reflexivity|apply list_elem_of_here|].
  split; [exact Hq|exact Hacc].
Defined.

(** Where the loop stands after the [catch]. *)
Lemma uploadFailed_next i t st s :
  currentSession st = Some s → i < length (flushes st) →
  flushes (uploadFailed i t st) !! i =
    match remaining t with
    | [] => Some None
    | c2 :: rest =>
        Some (Some {| current := c2; phase := AwaitWriteFile; remaining := rest |})
    end.
Proof.
  intros Hs Hlt. unfold uploadFailed.
  destruct (remaining t) as [|c2 rest]; simpl; unfold uploadSingleChunk;
    destruct (length (chunkQueue _) <? 30); simpl; rewrite ?Hs; simpl;
    by apply list_lookup_insert_eq.
Qed.

Lemma acceptedUploads_uploadFailed i t st :
  acceptedUploads (uploadFailed i t st) = acceptedUploads st.
Proof.
  unfold acceptedUploads. destruct (uploadFailed_observed i t st) as (-> & _).
  rewrite omap_app. simpl. by rewrite app_nil_r.
Qed.

(** One upload that reaches the [fetch] and is rejected there. *)
Lemma round_fails i s c rest st :
  currentSession st = Some s →
  flushes st !! i =
    Some (Some {| current := c; phase := AwaitWriteFile; remaining := rest |}) →
  length (chunkQueue st) < 30 →
  currentSession (run st [WriteFileDone i true; FetchDone i FetchRejected]) = Some s ∧
  chunkQueue (run st [WriteFileDone i true; FetchDone i FetchRejected]) =
    c :: chunkQueue st ∧
  acceptedUploads (run st [WriteFileDone i true; FetchDone i FetchRejected]) =
    acceptedUploads st ∧
  flushes (run st [WriteFileDone i true; FetchDone i FetchRejected]) !! i =
    match rest with
    | [] => Some None
    | c2 :: rest' =>
        Some (Some {| current := c2; phase := AwaitWriteFile; remaining := rest' |})
    end.
Proof.
  intros Hs Hfl Hlen. pose proof (lookup_lt_Some _ _ _ Hfl) as Hlt.
  apply Nat.ltb_lt in Hlen.
  set (tf := {| current := c; phase := AwaitFetch (session_id s); remaining := rest |}).
  set (stw := set_flushes (<[i := Some tf]> (flushes st))
                (emit [ReqUploadChunk (session_id s) c] st)).
  assert (step st (WriteFileDone i true) = stw) as Hw.
  { simpl. rewrite Hfl. simpl. unfold writeFileDone. by rewrite Hs. }
  assert (step stw (FetchDone i FetchRejected) = uploadFailed i tf stw) as Hf.
  { apply step_uploadThrows.
    - simpl. by apply list_lookup_insert_eq.
    - unfold uploadThrows, tf. simpl. by rewrite Nat.eqb_refl. }
  unfold run. cbn [foldl]. rewrite Hw, Hf.
  destruct (uploadFailed_observed i tf stw) as (_ & Hcur & _).
  rewrite Hcur, uploadFailed_chunkQueue, acceptedUploads_uploadFailed.
  rewrite (uploadFailed_next i tf stw s) by (simpl; by rewrite ?length_insert).
  simpl. rewrite Hlen. repeat split; try done.
  unfold acceptedUploads. simpl. rewrite omap_app. simpl. by rewrite app_nil_r.
Qed.

(** The loop of a flush in which the backend cannot be reached: each chunk
    of the batch in turn is put back at the head of the queue. *)
Lemma loop_fails i s : ∀ rest c st,
  currentSession st = Some s →
  flushes st !! i =
    Some (Some {| current := c; phase := AwaitWriteFile; remaining := rest |}) →
  length (chunkQueue st) + length (c :: rest) ≤ 30 →
  chunkQueue (run st (flat_map (λ _, [WriteFileDone i true; FetchDone i FetchRejected])
                        (c :: rest))) = rev (c :: rest) ++ chunkQueue st ∧
  acceptedUploads (run st (flat_map (λ _, [WriteFileDone i true; FetchDone i FetchRejected])
                             (c :: rest))) = acceptedUploads st.
Proof.
  induction rest as [|c2 rest IH]; intros c st Hs Hfl Hroom; simpl in Hroom.
  - destruct (round_fails i s c [] st Hs Hfl) as (_ & Hq & Hacc & _); [lia|].
    simpl flat_map. by rewrite Hq, Hacc.
  - destruct (round_fails i s c (c2 :: rest) st Hs Hfl) as (Hs1 & Hq1 & Hacc1 & Hfl1);
      [lia|].
    change (flat_map (λ _, [WriteFileDone i true; FetchDone i FetchRejected])
              (c :: c2 :: rest))
      with ([WriteFileDone i true; FetchDone i FetchRejected]
              ++ flat_map (λ _, [WriteFileDone i true; FetchDone i FetchRejected])
                   (c2 :: rest)).
    rewrite !run_app.
    destruct (IH c2 _ Hs1 Hfl1) as (Hq2 & Hacc2).
    { rewrite Hq1. simpl. lia. }
    split.
    + rewrite Hq2, Hq1. simpl. by rewrite <- !app_assoc.
    + by rewrite Hacc2.
Qed.

(** X6. A flush tick under a session in which no upload gets through,
    with at most 30 chunks queued, loses no chunk but puts the batch back in
    reverse: afterwards the queue is its first ten chunks in reverse order
    followed by the rest, so the newest chunk of the batch is now the first
    to be sent. *)
Theorem failed_flush_reverses_batch st s h :
  currentSession st = Some s → h ∈ intervals st → length (chunkQueue st) ≤ 30 →
  chunkQueue (flushFails h st) =
    rev (take 10 (chunkQueue st)) ++ drop 10 (chunkQueue st) ∧
  length (chunkQueue (flushFails h st)) = length (chunkQueue st) ∧
  acceptedUploads (flushFails h st) = acceptedUploads st.
Proof.
  intros Hs Hh Hlen.
  assert (chunkQueue (flushFails h st) =
            rev (take 10 (chunkQueue st)) ++ drop 10 (chunkQueue st) ∧
          acceptedUploads (flushFails h st) = acceptedUploads st) as [Hq Hacc].
  { unfold flushFails.
    change (run st (IntervalFires h :: ?evs)) with (run (step st (IntervalFires h)) evs).
    simpl step. rewrite (bool_decide_eq_true_2 _ Hh).
    destruct (chunkQueue st) as [|c q] eqn:Hq.
    - unfold processChunkQueue. rewrite Hq. simpl. by rewrite Hq.
    - set (st1 := processChunkQueue st).
      assert (currentSession st1 = Some s ∧ chunkQueue st1 = drop 10 (c :: q) ∧
              acceptedUploads st1 = acceptedUploads st ∧
              flushes st1 !! length (flushes st) =
                Some (Some {| current := c; phase := AwaitWriteFile;
                              remaining := take 9 q |})) as (Hs1 & Hq1 & Hacc1 & Hfl1).
      { subst st1. unfold processChunkQueue. rewrite Hq, Hs. simpl.
        unfold uploadSingleChunk. simpl. rewrite Hs. simpl.
        repeat split; try done.
        apply list_lookup_insert_eq. rewrite length_app. simpl. lia. }
      change (take 10 (c :: q)) with (c :: take 9 q).
      destruct (loop_fails (length (flushes st)) s (take 9 q) c st1 Hs1 Hfl1)
        as (Hq2 & Hacc2).
      { rewrite Hq1. simpl. rewrite length_drop, length_take. simpl in Hlen. lia. }
      rewrite Hq2, Hq1, Hacc2, Hacc1. done. }
  split; [done|split; [|done]].
  rewrite Hq, length_app, length_rev, <- length_app, take_drop. done.
Qed.

Lemma failed_flush_reverses_batch_witness :
  chunkQueue (flushFails 1 (run init (startA ++ submits 4))) =
    [chunkA 4; chunkA 3; chunkA 2; chunkA 1].
Proof.
  destruct (failed_flush_reverses_batch (run init (startA ++ submits 4))
              {| session_id := "A"; device_id := "dev"; started_at := 1000%Z;
                 ended_at := None; duration_seconds := None; is_active := true |} 1)
    as (Hq & _); [reflexivity|apply list_elem_of_here|vm_compute; lia|].
  exact Hq.
Defined.

(** X7. An upload the backend has accepted is not safe from being sent
    again: when removing the temporary file fails afterwards, the chunk is
    treated as failed and, with fewer than 30 chunks queued, put back at the
    head of the queue although its upload is on record as accepted. *)
Theorem accepted_chunk_requeued_on_unlink_failure st i t sid :
  flushes st !! i = Some (Some t) → phase t = AwaitFetch sid →
  length (chunkQueue st) < 30 →
  acceptedUploads (run st [FetchDone i ResponseOk; UnlinkDone i false]) =
    acceptedUploads st ++ [(sid, current t)] ∧
  chunkQueue (run st [FetchDone i ResponseOk; UnlinkDone i false]) =
    current t :: chunkQueue st.
Proof.
  intros Hfl Hph Hlen. pose proof (lookup_lt_Some _ _ _ Hfl) as Hlt.
  apply Nat.ltb_lt in Hlen.
  set (tu := {| current := current t; phase := AwaitUnlink; remaining := remaining t |}).
  set (stf := set_flushes (<[i := Some tu]> (flushes st))
                (emit [UploadAccepted sid (current t)] st)).
  assert (step st (FetchDone i ResponseOk) = stf) as Hf.
  { simpl. by rewrite Hfl, Hph. }
  assert (step stf (UnlinkDone i false) = uploadFailed i tu stf) as Hu.
  { apply step_uploadThrows.
    - simpl. by apply list_lookup_insert_eq.
    - unfold uploadThrows, tu. simpl. by rewrite Nat.eqb_refl. }
  unfold run. cbn [foldl]. rewrite Hf, Hu.
  rewrite uploadFailed_chunkQueue, acceptedUploads_uploadFailed. simpl. rewrite Hlen.
  split; [|done]. unfold acceptedUploads. simpl. by rewrite omap_app.
Qed.

Lemma accepted_chunk_requeued_on_unlink_failure_witness :
  chunkQueue (run (run init (startA ++ submits 1 ++ [IntervalFires 1; WriteFileDone 0 true]))
                [FetchDone 0 ResponseOk; UnlinkDone 0 false]) = [chunkA 1] ∧
  acceptedUploads
    (run (run init (startA ++ submits 1 ++ [IntervalFires 1; WriteFileDone 0 true]))
       [FetchDone 0 ResponseOk; UnlinkDone 0 false]) = [("A"%string, chunkA 1)].
Proof.
  destruct (accepted_chunk_requeued_on_unlink_failure
              (run init (startA ++ submits 1 ++ [IntervalFires 1; WriteFileDone 0 true]))
              0 {| current := chunkA 1; phase := AwaitFetch "A"; remaining := [] |} "A"%string)
    as (Hacc & Hq); [reflexivity|reflexivity|vm_compute; lia|].
  split; [exact Hq|exact Hacc].
Defined.

(** ** The unused retry filter *)

Lemma statuses_classified :
  forallb (λ k, Bool.eqb
                  (shouldRetryUpload (Some (uploadFailedMessage (100 + Z.of_nat k))))
                  (negb ((100 + Z.of_nat k =? 401)%Z || (100 + Z.of_nat k =? 403)%Z)))
          (seq 0 500) = true.
Proof. vm_compute. reflexivity. Qed.

(** X8. On the errors the uploader itself raises for an HTTP status
    ([Upload failed: <status>], status 100 to 599), [shouldRetryUpload]
    answers false exactly for 401 and 403, and it answers true for an error
    without a message.  The flush never asks it: a chunk refused with any
    status, 401 and 403 included, leaves the pipeline in the same state as a
    chunk whose request could not be sent at all. *)
Theorem retry_filter_not_consulted :
  (∀ status, (100 ≤ status ≤ 599)%Z →
     shouldRetryUpload (Some (uploadFailedMessage status)) =
       negb ((status =? 401)%Z || (status =? 403)%Z)) ∧
  shouldRetryUpload None = true ∧
  (∀ st i status,
     step st (FetchDone i (ResponseNotOk status)) = step st (FetchDone i FetchRejected)) ∧
  (∀ st i t sid status, flushes st !! i = Some (Some t) → phase t = AwaitFetch sid →
     length (chunkQueue st) < 30 →
     chunkQueue (step st (FetchDone i (ResponseNotOk status))) = current t :: chunkQueue st).
Proof.
  split; [|split; [done|split]].
  - intros status Hrange.
    pose proof statuses_classified as Hall.
    rewrite List.forallb_forall in Hall.
    specialize (Hall (Z.to_nat (status - 100))).
    replace (100 + Z.of_nat (Z.to_nat (status - 100)))%Z with status in Hall by lia.
    apply Bool.eqb_prop, Hall, in_seq. lia.
  - intros st i status. simpl.
    by destruct (flushes st !! i) as [[t|]|].
  - intros st i t sid status Hfl Hph Hlen. simpl. rewrite Hfl, Hph. simpl.
    rewrite uploadFailed_chunkQueue. apply Nat.ltb_lt in Hlen. by rewrite Hlen.
Qed.

Lemma retry_filter_not_consulted_witness :
  shouldRetryUpload (Some (uploadFailedMessage 401)) = false ∧
  shouldRetryUpload (Some (uploadFailedMessage 500)) = true ∧
  chunkQueue (step (run init (startA ++ submits 1 ++ [IntervalFires 1; WriteFileDone 0 true]))
                (FetchDone 0 (ResponseNotOk 401))) = [chunkA 1].
Proof.
  destruct retry_filter_not_consulted as (Hclass & _ & _ & Hback).
  split; [|split].
  - apply (Hclass 401%Z). lia.
  - apply (Hclass 500%Z). lia.
  - apply (Hback (run init (startA ++ submits 1 ++ [IntervalFires 1; WriteFileDone 0 true]))
             0 {| current := chunkA 1; phase := AwaitFetch "A"; remaining := [] |} "A"%string);
      [reflexivity|reflexivity|vm_compute; lia].
Defined.

(** ** Flush timers *)

Lemma forLoop_nextHandle i cs st : nextHandle (forLoop i cs st) = nextHandle st.
Proof. by rewrite forLoop_frame. Qed.

Lemma processChunkQueue_nextHandle st : nextHandle (processChunkQueue st) = nextHandle st.
Proof.
  unfold processChunkQueue. case_match; [done|]. by rewrite forLoop_nextHandle.
Qed.

Lemma uploadFailed_timers i t st :
  uploadInterval (uploadFailed i t st) = uploadInterval st ∧
  intervals (uploadFailed i t st) = intervals st ∧
  nextHandle (uploadFailed i t st) = nextHandle st.
Proof.
  unfold uploadFailed.
  rewrite forLoop_uploadInterval, forLoop_intervals, forLoop_nextHandle.
  by destruct (length (chunkQueue _) <? 30).
Qed.

Lemma stopChunkUploader_timers st :
  uploadInterval (stopChunkUploader st) = None ∧
  intervals (stopChunkUploader st) =
    match uploadInterval st with
    | Some h => filter (λ x, x ≠ h) (intervals st)
    | None => intervals st
    end ∧
  nextHandle (stopChunkUploader st) = nextHandle st.
Proof.
  unfold stopChunkUploader. rewrite processChunkQueue_nextHandle.
  destruct (processChunkQueue_timer
    match uploadInterval st with
    | Some h => set_timer None (filter (λ x, x ≠ h) (intervals st)) (nextHandle st) st
    | None => st
    end) as [-> ->].
  by destruct (uploadInterval st) eqn:Hui.
Qed.

(** What one event does to the timers: nothing; or it arms a fresh timer
    and keeps its handle ([startSession] granted); or it disarms the timer
    whose handle is kept, and no other ([endSession], [cleanup]). *)
Lemma step_timers st ev :
  (uploadInterval (step st ev) = uploadInterval st ∧
   intervals (step st ev) = intervals st ∧
   nextHandle (step st ev) = nextHandle st) ∨
  (uploadInterval (step st ev) = Some (nextHandle st) ∧
   intervals (step st ev) = intervals st ++ [nextHandle st] ∧
   nextHandle (step st ev) = S (nextHandle st)) ∨
  (uploadInterval (step st ev) = None ∧
   intervals (step st ev) =
     match uploadInterval st with
     | Some h => filter (λ x, x ≠ h) (intervals st)
     | None => intervals st
     end ∧
   nextHandle (step st ev) = nextHandle st).
Proof.
  destruct ev as [d|call r now| |call ok|ty d now|h|i ok|i r|i ok| ]; simpl.
  - by left.
  - destruct (startCalls st !! call) as [[d|]|]; try (by left).
    destruct r; [right; left|left]; done.
  - unfold endSession. destruct (currentSession st) eqn:Hs; [|by left].
    destruct (stopChunkUploader_spec (set_isStreaming false st)) as (_ & _ & Hcur & _).
    destruct (stopChunkUploader_timers (set_isStreaming false st)) as (Hui & Hiv & Hnh).
    simpl in Hcur, Hiv, Hnh. rewrite Hcur, Hs. simpl. right; right. by rewrite Hui, Hiv, Hnh.
  - destruct (endCalls st !! call) as [[sid|]|]; try (by left).
    unfold endSessionResumed. left.
    destruct ok; [destruct (currentSession _)|]; done.
  - left. unfold uploadChunk.
    destruct (currentSession st); [destruct (isStreaming st)|]; done.
  - left. destruct (bool_decide _); [|done].
    destruct (processChunkQueue_timer st) as [-> ->]. by rewrite processChunkQueue_nextHandle.
  - left. destruct (flushes st !! i) as [[t|]|]; try done.
    destruct (phase t); try done. unfold writeFileDone.
    destruct ok; [destruct (currentSession st)|]; try done; apply uploadFailed_timers.
  - left. destruct (flushes st !! i) as [[t|]|]; try done.
    destruct (phase t); try done. unfold fetchDone.
    destruct r; try done; apply uploadFailed_timers.
  - left. destruct (flushes st !! i) as [[t|]|]; try done.
    destruct (phase t); try done. unfold unlinkDone.
    destruct ok; [|apply uploadFailed_timers].
    by rewrite forLoop_uploadInterval, forLoop_intervals, forLoop_nextHandle.
  - right; right. unfold cleanup. simpl. apply stopChunkUploader_timers.
Qed.

Lemma step_timersFresh st ev : timersFresh st → timersFresh (step st ev).
Proof.
  intros [Hlt Href]. unfold timersFresh.
  destruct (step_timers st ev) as [(-> & -> & ->)|[(-> & -> & ->)|(-> & -> & ->)]].
  - done.
  - split.
    + apply Forall_app. split; [|repeat constructor].
      eapply Forall_impl; [exact Hlt|]. simpl. lia.
    + intros h [= <-]. apply elem_of_app. right. apply list_elem_of_here.
  - split; [|done]. destruct (uploadInterval st); [|done].
    rewrite Forall_forall in Hlt. apply Forall_forall. intros x Hx.
    apply list_elem_of_filter in Hx as [_ Hx]. by apply Hlt.
Qed.

Lemma run_timersFresh evs : ∀ st, timersFresh st → timersFresh (run st evs).
Proof.
  induction evs as [|ev evs IH]; intros st Hst; [done|].
  simpl. apply IH. by apply step_timersFresh.
Qed.

Lemma init_timersFresh : timersFresh init.
Proof. split; [constructor|done]. Qed.

(** An armed timer whose handle is not the one kept stays so. *)
Lemma step_keeps_unreferenced st ev h :
  timersFresh st → h ∈ intervals st → uploadInterval st ≠ Some h →
  h ∈ intervals (step st ev) ∧ uploadInterval (step st ev) ≠ Some h.
Proof.
  intros [Hlt Href] Hh Hnot. rewrite Forall_forall in Hlt.
  destruct (step_timers st ev) as [(-> & -> & _)|[(-> & -> & _)|(-> & -> & _)]].
  - done.
  - split; [apply elem_of_app; by left|].
    intros [= <-]. specialize (Hlt _ Hh). lia.
  - split; [|done]. destruct (uploadInterval st) as [h0|]; [|done].
    apply list_elem_of_filter. split; [|done]. congruence.
Qed.

(** X9. A granted [startSession] arms a fresh flush timer and keeps only
    its handle: a timer that was armed before stays armed.  No operation
    ever disarms an armed timer other than the one whose handle is kept in
    [uploadInterval] ([endSession] and [cleanup] clear that one only), so a
    timer replaced this way keeps firing flush ticks for the rest of the
    pipeline's life. *)
Theorem replaced_timer_never_disarmed :
  (∀ evs call d sid now h,
     startCalls (run init evs) !! call = Some (Some d) →
     uploadInterval (run init evs) = Some h →
     h ∈ intervals (step (run init evs) (StartSessionResponse call (Some sid) now)) ∧
     uploadInterval (step (run init evs) (StartSessionResponse call (Some sid) now)) ≠
       Some h) ∧
  (∀ evs evs' h,
     h ∈ intervals (run init evs) → uploadInterval (run init evs) ≠ Some h →
     h ∈ intervals (run (run init evs) evs') ∧
     uploadInterval (run (run init evs) evs') ≠ Some h).
Proof.
  split.
  - intros evs call d sid now h Hcall Hui.
    destruct (run_timersFresh evs init init_timersFresh) as [Hlt Href].
    pose proof (Href h Hui) as Hh. rewrite Forall_forall in Hlt.
    specialize (Hlt h Hh). simpl. rewrite Hcall. simpl.
    split; [apply elem_of_app; by left|]. intros [= Heq]. lia.
  - intros evs evs'. revert evs.
    assert (∀ st h, timersFresh st → h ∈ intervals st → uploadInterval st ≠ Some h →
              h ∈ intervals (run st evs') ∧ uploadInterval (run st evs') ≠ Some h) as Hgen.
    { induction evs' as [|ev evs' IH]; intros st h Hfresh Hh Hnot; [done|].
      simpl. destruct (step_keeps_unreferenced st ev h Hfresh Hh Hnot) as [Hh' Hnot'].
      apply IH; [by apply step_timersFresh|done|done]. }
    intros evs h. apply Hgen. apply run_timersFresh, init_timersFresh.
Qed.

Lemma replaced_timer_never_disarmed_witness :
  1 ∈ intervals (step (run init (startA ++ [CallStartSession "dev"]))
                   (StartSessionResponse 1 (Some "B") 2000%Z)) ∧
  1 ∈ intervals (run (run init startTwice) [CallEndSession; EndSessionResponse 0 true;
                                            CallCleanup]).
Proof.
  destruct replaced_timer_never_disarmed as [Hleak Hstays]. split.
  - apply (Hleak (startA ++ [CallStartSession "dev"]) 1 "dev"%string "B"%string 2000%Z 1);
      reflexivity.
  - apply (Hstays startTwice [CallEndSession; EndSessionResponse 0 true; CallCleanup] 1).
    + vm_compute. apply list_elem_of_here.
    + vm_compute. discriminate.
Defined.

(** ** Sessions and stamps *)

(** What a step adds to the trace, and what it does to the session. *)
Lemma step_summary st ev :
  ∃ os, trace (step st ev) = trace st ++ os ∧
    Forall (justified st (step st ev)) os ∧
    (currentSession (step st ev) = currentSession st ∨
     currentSession (step st ev) = None ∨
     ∃ s call now, currentSession (step st ev) = Some s ∧
       ev = StartSessionResponse call (Some (session_id s)) now).
Proof.
  assert (∀ i t st', st' = uploadFailed i t st →
            ∃ os, trace st' = trace st ++ os ∧ Forall (justified st st') os ∧
              (currentSession st' = currentSession st ∨ currentSession st' = None ∨
               ∃ s call now, currentSession st' = Some s ∧
                 ev = StartSessionResponse call (Some (session_id s)) now)) as Hfailed.
  { intros i t st' ->. destruct (uploadFailed_observed i t st) as (-> & -> & _).
    eexists. split; [reflexivity|]. split; [by repeat constructor|by left]. }
  assert (∀ st', trace st' = trace st → currentSession st' = currentSession st →
            ∃ os, trace st' = trace st ++ os ∧ Forall (justified st st') os ∧
              (currentSession st' = currentSession st ∨ currentSession st' = None ∨
               ∃ s call now, currentSession st' = Some s ∧
                 ev = StartSessionResponse call (Some (session_id s)) now)) as Hnone.
  { intros st' Htr Hs. exists []. rewrite app_nil_r. split; [done|]. split; [done|by left]. }
  destruct ev as [d|call r now| |call ok|ty d now|h|i ok|i r|i ok| ]; simpl.
  - eexists. split; [reflexivity|]. split; [by repeat constructor|by left].
  - destruct (startCalls st !! call) as [[d|]|]; try (by apply Hnone).
    destruct r; simpl.
    + eexists. split; [reflexivity|]. split; [by repeat constructor|].
      right; right. by eexists _, _, _.
    + eexists. split; [reflexivity|]. split; [by repeat constructor|by left].
  - unfold endSession. destruct (currentSession st) eqn:Hs.
    + destruct (stopChunkUploader_spec (set_isStreaming false st))
        as (_ & _ & Hcur & _ & Htr & _).
      simpl in Hcur, Htr. rewrite Hcur, Hs. simpl. rewrite Htr, Hcur.
      eexists. split; [reflexivity|]. split; [by repeat constructor|by left].
    + simpl. rewrite Hs. eexists. split; [reflexivity|].
      split; [by repeat constructor|by left].
  - destruct (endCalls st !! call) as [[sid|]|]; try (by apply Hnone).
    unfold endSessionResumed. simpl.
    destruct ok; [destruct (currentSession st) eqn:Hs|]; simpl;
      try (eexists; split; [reflexivity|]; split; [by repeat constructor|by left]).
    rewrite <- app_assoc. eexists. split; [reflexivity|].
    split; [by repeat constructor|by right; left].
  - unfold uploadChunk. destruct (currentSession st) eqn:Hs; [destruct (isStreaming st)|].
    + by apply Hnone.
    + simpl. rewrite Hs. eexists. split; [reflexivity|].
      split; [by repeat constructor|by left].
    + simpl. rewrite Hs. eexists. split; [reflexivity|].
      split; [by repeat constructor|by left].
  - destruct (bool_decide _); [|by apply Hnone].
    apply Hnone; [apply processChunkQueue_trace|apply processChunkQueue_currentSession].
  - destruct (flushes st !! i) as [[t|]|] eqn:Hfl; try (by apply Hnone).
    destruct (phase t); try (by apply Hnone). unfold writeFileDone.
    destruct ok; [|by eapply Hfailed]. destruct (currentSession st) as [s|] eqn:Hs;
      [|by eapply Hfailed].
    simpl. rewrite Hs. eexists. split; [reflexivity|]. split; [|by left].
    repeat constructor; [by exists s|by exists i, t].
  - destruct (flushes st !! i) as [[t|]|] eqn:Hfl; try (by apply Hnone).
    destruct (phase t) eqn:Hph; try (by apply Hnone). unfold fetchDone.
    destruct r; try (by eapply Hfailed).
    simpl. eexists. split; [reflexivity|]. split; [|by left].
    repeat constructor. exists i, t. done.
  - destruct (flushes st !! i) as [[t|]|]; try (by apply Hnone).
    destruct (phase t); try (by apply Hnone). unfold unlinkDone.
    destruct ok; [|by eapply Hfailed].
    apply Hnone; [apply forLoop_trace|apply forLoop_currentSession].
  - unfold cleanup. simpl.
    destruct (stopChunkUploader_spec st) as (_ & _ & _ & _ & -> & _).
    exists []. rewrite app_nil_r. split; [done|]. split; [done|by right; left].
Qed.

Lemma taskKnown_mono (G G' : list string) t :
  (∀ x, x ∈ G → x ∈ G') → taskKnown G t → taskKnown G' t.
Proof.
  intros Hsub [Hchunks Hph]. split.
  - eapply Forall_impl; [exact Hchunks|]. simpl. eauto.
  - destruct (phase t); eauto.
Qed.

Lemma heldKnown_mono (G G' : list string) st :
  (∀ x, x ∈ G → x ∈ G') → heldKnown G st → heldKnown G' st.
Proof.
  intros Hsub [Hq Hfl]. split.
  - eapply Forall_impl; [exact Hq|]. simpl. eauto.
  - intros i t Hi. eapply taskKnown_mono; eauto.
Qed.

(** The upload loop only suspends on chunks of its batch. *)
Lemma forLoop_known (G : list string) i : ∀ cs st,
  (∀ j t, flushes st !! j = Some (Some t) → taskKnown G t) →
  Forall (λ c, chunk_session_id c ∈ G) cs →
  ∀ j t, flushes (forLoop i cs st) !! j = Some (Some t) → taskKnown G t.
Proof.
  induction cs as [|c cs IH]; intros st Hfl Hcs j t Hj; simpl in Hj.
  - apply list_lookup_insert_Some in Hj as [(_ & [=] & _)|[_ Hj]]. eauto.
  - apply Forall_cons in Hcs as [Hc Hcs].
    unfold uploadSingleChunk in Hj. destruct (currentSession st).
    + simpl in Hj. apply list_lookup_insert_Some in Hj as [(_ & [= <-] & _)|[_ Hj]];
        [|eauto].
      split; [by constructor|done].
    + eapply IH; eauto.
Qed.

Lemma processChunkQueue_known (G : list string) st :
  heldKnown G st → heldKnown G (processChunkQueue st).
Proof.
  intros [Hq Hfl]. unfold processChunkQueue. case_match; [done|]. split.
  - rewrite forLoop_chunkQueue. simpl. by apply Forall_drop.
  - apply forLoop_known; [|by apply Forall_take].
    simpl. intros j t Hj.
    apply lookup_app_Some in Hj as [Hj|[_ Hj]]; [eauto|].
    by destruct (j - length (flushes st)) as [|[|?]].
Qed.

Lemma uploadFailed_known (G : list string) i t st :
  heldKnown G st → taskKnown G t → heldKnown G (uploadFailed i t st).
Proof.
  intros [Hq Hfl] [Hchunks _]. apply Forall_cons in Hchunks as [Hc Hrest].
  unfold uploadFailed. split.
  - rewrite forLoop_chunkQueue. simpl.
    destruct (length (chunkQueue st) <? 30); simpl; [by constructor|done].
  - apply forLoop_known; [|done].
    by destruct (length (chunkQueue _) <? 30).
Qed.

(** One step keeps the held chunks within any set of ids that contains the
    current session's. *)
Lemma step_heldKnown (G : list string) st ev :
  (∀ s, currentSession st = Some s → session_id s ∈ G) →
  heldKnown G st → heldKnown G (step st ev).
Proof.
  intros Hcur Hheld. pose proof Hheld as [Hq Hfl].
  destruct ev as [d|call r now| |call ok|ty d now|h|i ok|i r|i ok| ]; simpl.
  - done.
  - destruct (startCalls st !! call) as [[d|]|]; try done. by destruct r.
  - unfold endSession. destruct (currentSession st) eqn:Hs; [|done].
    assert (heldKnown G (stopChunkUploader (set_isStreaming false st))) as Hstop.
    { unfold stopChunkUploader. apply processChunkQueue_known.
      by destruct (uploadInterval _). }
    by destruct (currentSession (stopChunkUploader _)).
  - destruct (endCalls st !! call) as [[sid|]|]; try done.
    unfold endSessionResumed. destruct ok; [destruct (currentSession _)|]; done.
  - unfold uploadChunk. destruct (currentSession st) as [s|] eqn:Hs; [|done].
    destruct (isStreaming st); [|done]. split; [|done]. simpl.
    assert (Forall (λ c, chunk_session_id c ∈ G)
              (chunkQueue st ++ [stamp s (ty, d, now)])) as Hnew.
    { apply Forall_app. split; [done|]. repeat constructor. simpl. eauto. }
    case_match; [by apply Forall_drop|done].
  - destruct (bool_decide _); [|done]. by apply processChunkQueue_known.
  - destruct (flushes st !! i) as [[t|]|] eqn:Hi; try done.
    destruct (phase t); try done. unfold writeFileDone.
    pose proof (Hfl i t Hi) as Ht.
    destruct ok; [|by apply uploadFailed_known].
    destruct (currentSession st) as [s|] eqn:Hs; [|by apply uploadFailed_known].
    split; [done|]. simpl. intros j t' Hj.
    apply list_lookup_insert_Some in Hj as [(_ & [= <-] & _)|[_ Hj]]; [|eauto].
    destruct Ht as [Hchunks _]. split; [done|]. simpl. eauto.
  - destruct (flushes st !! i) as [[t|]|] eqn:Hi; try done.
    destruct (phase t); try done. unfold fetchDone.
    pose proof (Hfl i t Hi) as Ht.
    destruct r; try (by apply uploadFailed_known).
    split; [done|]. simpl. intros j t' Hj.
    apply list_lookup_insert_Some in Hj as [(_ & [= <-] & _)|[_ Hj]]; [|eauto].
    destruct Ht as [Hchunks _]. by split.
  - destruct (flushes st !! i) as [[t|]|] eqn:Hi; try done.
    destruct (phase t); try done. unfold unlinkDone.
    pose proof (Hfl i t Hi) as Ht.
    destruct ok; [|by apply uploadFailed_known].
    split; [by rewrite forLoop_chunkQueue|].
    apply forLoop_known; [done|].
    destruct Ht as [Hchunks _]. by apply Forall_cons in Hchunks as [_ ?].
  - unfold cleanup. split; [constructor|]. simpl.
    assert (heldKnown G (stopChunkUploader st)) as [_ Hstop]; [|done].
    unfold stopChunkUploader. apply processChunkQueue_known.
    by destruct (uploadInterval _).
Qed.

Lemma step_sessionsKnown (G : list string) st ev :
  sessionsKnown G st → sessionsKnown (G ++ grantedSessions [ev]) (step st ev).
Proof.
  intros (Hcur & Hheld & Hreq & Hacc).
  destruct (step_summary st ev) as (os & Htr & Hos & Hsess).
  assert (∀ x, x ∈ G → x ∈ G ++ grantedSessions [ev]) as Hmono.
  { intros x Hx. apply elem_of_app. by left. }
  rewrite Forall_forall in Hos.
  split; [|split; [|split]].
  - intros s Hs. destruct Hsess as [Hsame|[Hnone|(s' & call & now & Hs' & ->)]].
    + apply Hmono, Hcur. congruence.
    + congruence.
    + assert (s' = s) as -> by congruence.
      apply elem_of_app. right. apply list_elem_of_here.
  - eapply heldKnown_mono; [exact Hmono|]. by apply step_heldKnown.
  - unfold requestedUploads. rewrite Htr, omap_app. apply Forall_app. split.
    + eapply Forall_impl; [exact Hreq|]. intros x [? ?]. split; by apply Hmono.
    + apply Forall_forall. intros [sid c] Hx.
      apply list_elem_of_omap in Hx as (o & Ho & Hox).
      destruct o; try discriminate. injection Hox as -> ->.
      destruct (Hos _ Ho) as [(s & Hs & ->) (i & t & Hi & ->)]. simpl.
      destruct Hheld as [_ Hfl]. destruct (Hfl i t Hi) as [Hchunks _].
      apply Forall_cons in Hchunks as [Hc _].
      split; apply Hmono; [by apply Hcur|done].
  - unfold acceptedUploads. rewrite Htr, omap_app. apply Forall_app. split.
    + eapply Forall_impl; [exact Hacc|]. intros x [? ?]. split; by apply Hmono.
    + apply Forall_forall. intros [sid c] Hx.
      apply list_elem_of_omap in Hx as (o & Ho & Hox).
      destruct o; try discriminate. injection Hox as -> ->.
      destruct (Hos _ Ho) as (i & t & Hi & Hph & ->). simpl.
      destruct Hheld as [_ Hfl]. destruct (Hfl i t Hi) as [Hchunks Hsid].
      rewrite Hph in Hsid. apply Forall_cons in Hchunks as [Hc _].
      split; by apply Hmono.
Qed.

Lemma run_sessionsKnown evs : ∀ G st,
  sessionsKnown G st → sessionsKnown (G ++ grantedSessions evs) (run st evs).
Proof.
  induction evs as [|ev evs IH]; intros G st Hst.
  - simpl. by rewrite app_nil_r.
  - change (ev :: evs) with ([ev] ++ evs) at 1.
    unfold grantedSessions. rewrite omap_app, app_assoc.
    apply (IH _ (step st ev)). by apply step_sessionsKnown.
Qed.

Lemma init_sessionsKnown : sessionsKnown [] init.
Proof.
  split; [done|]. split; [|split; constructor].
  split; [constructor|]. intros i t Hi. by destruct i.
Qed.

(** X10. The pipeline never invents a session id.  In every reachable
    state the id of the current session is one the backend sent in its
    answer to a start-session request; every queued chunk is stamped with
    such an id; and every upload ever requested or accepted was addressed to
    such an id and carried a chunk stamped with one. *)
Theorem session_ids_come_from_backend evs :
  (∀ s, currentSession (run init evs) = Some s →
     session_id s ∈ grantedSessions evs) ∧
  (∀ c, c ∈ chunkQueue (run init evs) →
     chunk_session_id c ∈ grantedSessions evs) ∧
  (∀ sid c, (sid, c) ∈ requestedUploads (run init evs) →
     sid ∈ grantedSessions evs ∧ chunk_session_id c ∈ grantedSessions evs) ∧
  (∀ sid c, (sid, c) ∈ acceptedUploads (run init evs) →
     sid ∈ grantedSessions evs ∧ chunk_session_id c ∈ grantedSessions evs).
Proof.
  destruct (run_sessionsKnown evs [] init init_sessionsKnown)
    as (Hcur & [Hq _] & Hreq & Hacc).
  rewrite Forall_forall in Hq. rewrite Forall_forall in Hreq.
  rewrite Forall_forall in Hacc.
  split; [done|]. split; [done|]. split.
  - intros sid c Hx. apply (Hreq (sid, c) Hx).
  - intros sid c Hx. apply (Hacc (sid, c) Hx).
Qed.

Lemma session_ids_come_from_backend_witness :
  grantedSessions staleChunk = ["A"; "B"]%string ∧
  "B"%string ∈ grantedSessions staleChunk ∧
  chunk_session_id (chunkA 1) ∈ grantedSessions staleChunk.
Proof.
  split; [reflexivity|].
  destruct (session_ids_come_from_backend staleChunk) as (_ & _ & _ & Hacc).
  apply (Hacc "B"%string (chunkA 1)). vm_compute. apply list_elem_of_here.
Defined.

End StreamingCoverage.

(* ===================================================================== *)
(** * Further properties of the connection manager                         *)
(* ===================================================================== *)
Section WebSocketCoverage.
Import WebSocket.

(** ** Which functions touch sockets and timers *)

Lemma socket_send_readyStates s m socks :
  readyState <$> socket_send s m socks = readyState <$> socks.
Proof.
  unfold socket_send. destruct (socks !! s) as [sock|] eqn:Hs; [|done].
  rewrite list_fmap_insert. simpl. apply list_insert_id.
  by rewrite list_lookup_fmap, Hs.
Qed.

Lemma set_readyState_readyStates s r socks :
  readyState <$> set_readyState s r socks = <[s := r]> (readyState <$> socks).
Proof.
  unfold set_readyState. destruct (socks !! s) as [sock|] eqn:Hs.
  - by rewrite list_fmap_insert.
  - symmetry. apply list_insert_ge. rewrite length_fmap. by apply lookup_ge_None.
Qed.

Lemma socket_close_readyStates s socks :
  readyState <$> socket_close s socks =
  match (readyState <$> socks) !! s with
  | Some r => <[s := if live r then CLOSING else r]> (readyState <$> socks)
  | None => readyState <$> socks
  end.
Proof.
  unfold socket_close. rewrite list_lookup_fmap.
  destruct (socks !! s) as [sock|] eqn:Hs; simpl; [|done].
  destruct (readyState sock) eqn:Hr; simpl; rewrite ?list_fmap_insert; try done;
    symmetry; apply list_insert_id; by rewrite list_lookup_fmap, Hs, <- Hr.
Qed.

Lemma sendMessage_frame m now throws st :
  readyStates (sendMessage m now throws st) = readyStates st ∧
  wsRef (sendMessage m now throws st) = wsRef st ∧
  timers (sendMessage m now throws st) = timers st ∧
  reconnectTimeoutRef (sendMessage m now throws st) = reconnectTimeoutRef st ∧
  user (sendMessage m now throws st) = user st ∧
  token (sendMessage m now throws st) = token st.
Proof.
  unfold sendMessage, readyStates.
  destruct (wsRef st) eqn:Hws; [|by repeat split].
  destruct (currentReadyState st) as [[]|]; try (by repeat split).
  destruct throws; simpl; rewrite ?socket_send_readyStates; by repeat split.
Qed.

Lemma scheduleReconnect_frame st :
  readyStates (scheduleReconnect st) = readyStates st ∧
  wsRef (scheduleReconnect st) = wsRef st ∧
  user (scheduleReconnect st) = user st ∧
  token (scheduleReconnect st) = token st.
Proof.
  unfold scheduleReconnect. destruct (reconnectTimeoutRef st) eqn:Href; by repeat split.
Qed.

Lemma currentReadyState_readyStates st :
  currentReadyState st =
  match wsRef st with
  | Some s => readyStates st !! s
  | None => None
  end.
Proof.
  unfold currentReadyState, readyStates. destruct (wsRef st); [|done].
  by rewrite list_lookup_fmap.
Qed.

(** [connect] leaves the sockets alone or, when the current socket is
    neither opening nor open, creates one and makes it current. *)
Lemma connect_sockets b st :
  (readyStates (connect b st) = readyStates st ∧ wsRef (connect b st) = wsRef st) ∨
  ((∀ r, currentReadyState st = Some r → live r = false) ∧
   readyStates (connect b st) = readyStates st ++ [CONNECTING] ∧
   wsRef (connect b st) = Some (length (readyStates st))).
Proof.
  unfold connect. destruct (user st); [|by left].
  destruct (truthy_opt (token st)); [|by left].
  destruct (currentReadyState st) as [[]|] eqn:Hcur; try (by left);
    (destruct b;
     [left; destruct (scheduleReconnect_frame
        (set_connectionStatus error
           (log [LogError "Failed to create WebSocket connection:"]
              (set_connectionStatus connecting st)))) as (-> & -> & _); done
     |right; split; [by intros r [= <-]|];
      unfold readyStates; simpl; by rewrite fmap_app, length_fmap]).
Qed.

Lemma disconnect_sockets st :
  wsRef (disconnect st) = None ∧
  readyStates (disconnect st) =
    match wsRef st with
    | Some s =>
        match readyStates st !! s with
        | Some r => <[s := if live r then CLOSING else r]> (readyStates st)
        | None => readyStates st
        end
    | None => readyStates st
    end.
Proof.
  unfold disconnect, readyStates.
  destruct (reconnectTimeoutRef st) eqn:Href; simpl;
    (destruct (wsRef st) eqn:Hws; simpl; [|done]);
    by rewrite socket_close_readyStates.
Qed.

Lemma oneLive_insert_dead rs ws s r :
  live r = false → oneLive rs ws → oneLive (<[s := r]> rs) ws.
Proof.
  intros Hdead Hinv s' r' Hs' Hlive.
  apply list_lookup_insert_Some in Hs' as [(-> & <- & _)|[_ Hs']]; [congruence|eauto].
Qed.

Lemma oneLive_none_after_close rs s :
  oneLive rs (Some s) →
  ∀ s' r', match rs !! s with
           | Some r => <[s := if live r then CLOSING else r]> rs
           | None => rs
           end !! s' = Some r' → live r' = false.
Proof.
  intros Hinv s' r' Hs'. destruct (live r') eqn:Hlive; [|done].
  destruct (rs !! s) as [r|] eqn:Hs.
  - apply list_lookup_insert_Some in Hs' as [(-> & <- & _)|[Hne Hs']].
    + by destruct (live r) eqn:Hr; [|congruence].
    + specialize (Hinv s' r' Hs' Hlive). congruence.
  - specialize (Hinv s' r' Hs' Hlive). congruence.
Qed.

(** After [disconnect] no socket is opening or open. *)
Lemma disconnect_no_live st :
  oneLiveSocket st →
  ∀ s r, readyStates (disconnect st) !! s = Some r → live r = false.
Proof.
  intros Hinv s r Hs. destruct (disconnect_sockets st) as [_ Hrs]. rewrite Hrs in Hs.
  unfold oneLiveSocket in Hinv. destruct (wsRef st) as [s0|] eqn:Hws.
  - by apply (oneLive_none_after_close _ s0 Hinv s r).
  - destruct (live r) eqn:Hlive; [|done]. by specialize (Hinv s r Hs Hlive).
Qed.

Lemma onopen_frame now thr st :
  readyStates (onopen now thr st) = readyStates st ∧ wsRef (onopen now thr st) = wsRef st ∧
  timers (onopen now thr st) = timers st ∧
  reconnectTimeoutRef (onopen now thr st) = reconnectTimeoutRef st ∧
  user (onopen now thr st) = user st ∧ token (onopen now thr st) = token st.
Proof.
  unfold onopen. simpl. destruct (user st) as [u|] eqn:Hu; [|by repeat split].
  destruct (sendMessage_frame (deviceInfoMessage u) now thr
    (set_reconnectAttempts 0
       (set_connection true connected (log [Log "WebSocket connected"] st))))
    as (H1 & H2 & H3 & H4 & H5 & H6).
  unfold deviceInfoMessage in *. by rewrite H1, H2, H3, H4, H5, H6.
Qed.

Lemma onclose_frame code st :
  readyStates (onclose code st) = readyStates st ∧ wsRef (onclose code st) = wsRef st ∧
  user (onclose code st) = user st ∧ token (onclose code st) = token st.
Proof.
  unfold onclose. simpl. case_match; [|by repeat split].
  destruct (scheduleReconnect_frame
    (set_connection false disconnected (log [Log "WebSocket disconnected:"] st)))
    as (-> & -> & -> & ->). by repeat split.
Qed.

Lemma onmessage_frame parsed st :
  sockets (onmessage parsed st) = sockets st ∧ wsRef (onmessage parsed st) = wsRef st ∧
  timers (onmessage parsed st) = timers st ∧
  reconnectTimeoutRef (onmessage parsed st) = reconnectTimeoutRef st ∧
  reconnectAttemptsRef (onmessage parsed st) = reconnectAttemptsRef st ∧
  isConnected (onmessage parsed st) = isConnected st ∧
  connectionStatus (onmessage parsed st) = connectionStatus st ∧
  appStateRef (onmessage parsed st) = appStateRef st ∧
  user (onmessage parsed st) = user st ∧ token (onmessage parsed st) = token st.
Proof.
  unfold onmessage, handleIncomingMessage.
  destruct parsed as [m|]; [|by repeat split].
  repeat case_match; by repeat split.
Qed.

Lemma reconnect_sockets st :
  readyStates (reconnect st) = readyStates (disconnect st) ∧
  wsRef (reconnect st) = wsRef (disconnect st).
Proof. done. Qed.

(** ** One live socket *)

Lemma step_oneLiveSocket st ev : oneLiveSocket st → oneLiveSocket (step st ev).
Proof.
  intros Hinv. unfold oneLiveSocket in *.
  assert (∀ b st1, readyStates st1 = readyStates st → wsRef st1 = wsRef st →
            oneLive (readyStates (connect b st1)) (wsRef (connect b st1))) as Hconn.
  { intros b st1 Hrs Hws.
    destruct (connect_sockets b st1) as [[-> ->]|(Hdead & -> & ->)];
      rewrite ?Hrs, ?Hws; [done|].
    intros s r Hs Hlive.
    apply lookup_app_Some in Hs as [Hs|[Hge Hs]].
    - specialize (Hinv s r Hs Hlive).
      rewrite currentReadyState_readyStates, Hws, Hinv, Hrs, Hs in Hdead.
      specialize (Hdead r eq_refl). congruence.
    - destruct (s - length (readyStates st)) as [|n] eqn:Hn; [|by destruct n].
      f_equal. lia. }
  destruct ev as [b| | |m now throws|s now sendThrows|s parsed|s|s code|t b|next b];
    cbn [step].
  - by apply Hconn.
  - destruct (disconnect_sockets st) as [-> _].
    intros s r Hs Hlive. by rewrite (disconnect_no_live st Hinv s r Hs) in Hlive.
  - destruct (reconnect_sockets st) as [-> ->].
    destruct (disconnect_sockets st) as [-> _].
    intros s r Hs Hlive. by rewrite (disconnect_no_live st Hinv s r Hs) in Hlive.
  - by destruct (sendMessage_frame m now throws st) as (-> & -> & _).
  - destruct (readyState <$> sockets st !! s) as [[]|] eqn:Hs; try done.
    destruct (onopen_frame now sendThrows
      (set_ws (wsRef st) (set_readyState s OPEN (sockets st)) st)) as (-> & -> & _).
    unfold readyStates. simpl. rewrite set_readyState_readyStates.
    intros s' r' Hs' Hlive.
    apply list_lookup_insert_Some in Hs' as [(-> & <- & _)|[_ Hs']]; [|eauto].
    apply (Hinv s' CONNECTING); [|done]. unfold readyStates. by rewrite list_lookup_fmap.
  - destruct (readyState <$> sockets st !! s) as [[]|]; try done;
      by destruct (onmessage_frame parsed st) as (Hso & -> & _);
         unfold readyStates; rewrite Hso.
  - destruct (sockets st !! s); [|done]. unfold onerror, readyStates. simpl.
    rewrite set_readyState_readyStates. by apply oneLive_insert_dead.
  - destruct (sockets st !! s); [|done].
    destruct (onclose_frame code
      (set_ws (wsRef st) (set_readyState s CLOSED (sockets st)) st)) as (-> & -> & _).
    unfold readyStates. simpl. rewrite set_readyState_readyStates.
    by apply oneLive_insert_dead.
  - destruct (timers st !! t) as [[tm|]|]; try done.
    destruct tm; [destruct (appStateRef _)|]; try done; by apply Hconn.
  - unfold handleAppStateChange. destruct next; simpl; try done.
    + case_match; [by apply Hconn|done].
    + by destruct (reconnectTimeoutRef st).
    + by destruct (reconnectTimeoutRef st).
Qed.

Lemma run_oneLiveSocket evs : ∀ st, oneLiveSocket st → oneLiveSocket (run st evs).
Proof.
  induction evs as [|ev evs IH]; intros st Hst; [done|].
  simpl. apply IH. by apply step_oneLiveSocket.
Qed.

Lemma init_oneLiveSocket u tk : oneLiveSocket (init u tk).
Proof. intros s r Hs. by destruct s. Qed.

(** X11. The provider never has two sockets in use.  In every reachable
    state a socket that is opening or open is the current one ([wsRef]), so
    at most one socket is opening or open at any time; every socket it has
    replaced or dropped is closing or closed. *)
Theorem one_socket_in_use u tk evs :
  (∀ s sock, sockets (run (init u tk) evs) !! s = Some sock →
     live (readyState sock) = true → wsRef (run (init u tk) evs) = Some s) ∧
  (∀ s1 s2 sock1 sock2,
     sockets (run (init u tk) evs) !! s1 = Some sock1 →
     sockets (run (init u tk) evs) !! s2 = Some sock2 →
     live (readyState sock1) = true → live (readyState sock2) = true → s1 = s2).
Proof.
  pose proof (run_oneLiveSocket evs _ (init_oneLiveSocket u tk)) as Hinv.
  assert (∀ s sock, sockets (run (init u tk) evs) !! s = Some sock →
            live (readyState sock) = true → wsRef (run (init u tk) evs) = Some s) as H1.
  { intros s sock Hs Hlive. apply (Hinv s (readyState sock)); [|done].
    unfold readyStates. by rewrite list_lookup_fmap, Hs. }
  split; [exact H1|].
  intros s1 s2 sock1 sock2 Hs1 Hs2 Hl1 Hl2.
  pose proof (H1 _ _ Hs1 Hl1). pose proof (H1 _ _ Hs2 Hl2). congruence.
Qed.

Lemma one_socket_in_use_witness :
  wsRef (run signedIn [CallConnect false; SocketOpen 0 5%Z false; CallReconnect;
                       TimerFires 0 false]) = Some 1.
Proof.
  destruct (one_socket_in_use (Some parent) (Some "tok"%string)
              [CallConnect false; SocketOpen 0 5%Z false; CallReconnect; TimerFires 0 false])
    as [Hcur _].
  apply (Hcur 1 {| url := "ws://localhost:8000/ws/d1?token=tok";
                   readyState := CONNECTING; sent := [] |}); reflexivity.
Defined.

(** ** Sending on an open socket *)

Lemma sendMessage_open m now st s sock :
  wsRef st = Some s → sockets st !! s = Some sock → readyState sock = OPEN →
  sendMessage m now false st =
    log [Log "WebSocket message sent:"]
      (set_ws (Some s)
         (<[s := {| url := url sock; readyState := OPEN;
                    sent := sent sock ++ [stampMessage (user st) m now] |}]> (sockets st))
         st).
Proof.
  intros Hws Hs Hopen. unfold sendMessage, currentReadyState, socket_send.
  rewrite Hws, Hs. simpl. by rewrite Hopen.
Qed.

(** X12. Messages passed to [sendMessage] while the current socket is open
    are handed to that socket in call order, one transport message per call
    and none to any other socket; each keeps its type and payload, keeps a
    caller-supplied timestamp unless it is 0 and a caller-supplied device id
    unless it is empty, and otherwise gets the clock reading and the user's
    device id (the user id when the user has none). *)
Theorem sends_delivered_in_order msgs : ∀ st s sock,
  wsRef st = Some s → sockets st !! s = Some sock → readyState sock = OPEN →
  sockets (run st (sends msgs)) =
    <[s := {| url := url sock; readyState := OPEN;
              sent := sent sock ++ map (λ x, stampMessage (user st) x.1 x.2) msgs |}]>
      (sockets st) ∧
  wsRef (run st (sends msgs)) = Some s ∧
  (∀ m now, msg_type (stampMessage (user st) m now) = msg_type m ∧
            data (stampMessage (user st) m now) = data m ∧
            (∀ t, timestamp m = Some t → t ≠ 0%Z →
                  timestamp (stampMessage (user st) m now) = Some t) ∧
            (timestamp m = None ∨ timestamp m = Some 0%Z →
                  timestamp (stampMessage (user st) m now) = Some now) ∧
            (∀ dev, device_id m = Some dev → dev ≠ ""%string →
                  device_id (stampMessage (user st) m now) = Some dev)).
Proof.
  induction msgs as [|[m now] msgs IH]; intros st s sock Hws Hs Hopen.
  - simpl. rewrite app_nil_r. split; [|split; [done|]].
    + symmetry. apply list_insert_id. rewrite Hs. f_equal. destruct sock. simpl in *.
      by subst.
    + intros m now. repeat split.
      * intros t -> Ht. simpl. by apply Z.eqb_neq in Ht as ->.
      * by intros [-> | ->].
      * intros dev -> Hdev. unfold stampMessage, or_else. simpl.
        assert (truthy dev = true) as Htr.
        { unfold truthy. apply negb_true_iff, String.eqb_neq. done. }
        rewrite Htr. simpl. by rewrite Htr.
  - change (run st (sends ((m, now) :: msgs)))
      with (run (step st (CallSendMessage m now false)) (sends msgs)).
    cbn [step]. rewrite (sendMessage_open m now st s sock Hws Hs Hopen).
    pose proof (lookup_lt_Some _ _ _ Hs) as Hlt.
    destruct (IH (log [Log "WebSocket message sent:"]
                    (set_ws (Some s)
                       (<[s := {| url := url sock; readyState := OPEN;
                                  sent := sent sock ++ [stampMessage (user st) m now] |}]>
                          (sockets st)) st))
                 s {| url := url sock; readyState := OPEN;
                      sent := sent sock ++ [stampMessage (user st) m now] |})
      as (Hsocks & Href & _); [done|by apply list_lookup_insert_eq|done|].
    split; [|split; [done|]].
    + rewrite Hsocks. simpl. rewrite list_insert_insert_eq. by rewrite <- app_assoc.
    + destruct (IH st s sock Hws Hs Hopen) as (_ & _ & Hstamp). exact Hstamp.
Qed.

Lemma sends_delivered_in_order_witness :
  delivered (run (run signedIn [CallConnect false; SocketOpen 0 5%Z false])
               (sends [({| msg_type := "a"; data := None; timestamp := Some 0%Z;
                           device_id := Some ""%string |}, 7%Z);
                       ({| msg_type := "b"; data := None; timestamp := Some 3%Z;
                           device_id := Some "x"%string |}, 8%Z)])) =
  [[ {| msg_type := "device_info"; data := Some (DeviceInfo "d1" "u1" "mobile" "1.0.0");
        timestamp := Some 5%Z; device_id := Some "d1"%string |};
     {| msg_type := "a"; data := None; timestamp := Some 7%Z;
        device_id := Some "d1"%string |};
     {| msg_type := "b"; data := None; timestamp := Some 3%Z;
        device_id := Some "x"%string |} ]].
Proof.
  unfold delivered.
  destruct (sends_delivered_in_order
              [({| msg_type := "a"; data := None; timestamp := Some 0%Z;
                   device_id := Some ""%string |}, 7%Z);
               ({| msg_type := "b"; data := None; timestamp := Some 3%Z;
                   device_id := Some "x"%string |}, 8%Z)]
              (run signedIn [CallConnect false; SocketOpen 0 5%Z false]) 0
              {| url := "ws://localhost:8000/ws/d1?token=tok"; readyState := OPEN;
                 sent := [ {| msg_type := "device_info";
                              data := Some (DeviceInfo "d1" "u1" "mobile" "1.0.0");
                              timestamp := Some 5%Z; device_id := Some "d1"%string |} ] |})
    as (-> & _); [reflexivity|reflexivity|reflexivity|].
  reflexivity.
Defined.

(** ** Opening *)

(** X13. When the current socket opens, the provider is connected, the
    reconnect attempt count is back to 0, and the first message on the
    socket is the device announcement, stamped with the clock reading and
    the device id; no timer is touched.  If sending the announcement throws,
    the provider is connected all the same and nothing has been sent. *)
Theorem open_resets_and_announces st s sock u now :
  wsRef st = Some s → sockets st !! s = Some sock → readyState sock = CONNECTING →
  user st = Some u →
  (isConnected (step st (SocketOpen s now false)) = true ∧
   connectionStatus (step st (SocketOpen s now false)) = connected ∧
   reconnectAttemptsRef (step st (SocketOpen s now false)) = 0 ∧
   timers (step st (SocketOpen s now false)) = timers st ∧
   sockets (step st (SocketOpen s now false)) =
     <[s := {| url := url sock; readyState := OPEN;
               sent := sent sock ++ [stampMessage (Some u) (deviceInfoMessage u) now] |}]>
       (sockets st)) ∧
  (isConnected (step st (SocketOpen s now true)) = true ∧
   connectionStatus (step st (SocketOpen s now true)) = connected ∧
   reconnectAttemptsRef (step st (SocketOpen s now true)) = 0 ∧
   sockets (step st (SocketOpen s now true)) =
     <[s := {| url := url sock; readyState := OPEN; sent := sent sock |}]> (sockets st)).
Proof.
  intros Hws Hs Hconn Hu. pose proof (lookup_lt_Some _ _ _ Hs) as Hlt.
  cbn [step]. rewrite Hs. simpl. rewrite Hconn. unfold onopen. simpl. rewrite Hu.
  unfold set_readyState. rewrite Hs. split.
  - rewrite (sendMessage_open _ now _ s
               {| url := url sock; readyState := OPEN; sent := sent sock |});
      [|done|by apply list_lookup_insert_eq|done].
    simpl. rewrite list_insert_insert_eq, Hu. done.
  - unfold sendMessage, currentReadyState. simpl. rewrite Hws. simpl.
    rewrite list_lookup_insert_eq by done. simpl. done.
Qed.

Lemma open_resets_and_announces_witness :
  reconnectAttemptsRef
    (step (run signedIn (threeCloses 1006 1006 1006 ++ [TimerFires 2 false]))
       (SocketOpen 3 9%Z false)) = 0 ∧
  delivered
    (step (run signedIn [CallConnect false]) (SocketOpen 0 9%Z false)) =
    [[ {| msg_type := "device_info"; data := Some (DeviceInfo "d1" "u1" "mobile" "1.0.0");
          timestamp := Some 9%Z; device_id := Some "d1"%string |} ]].
Proof.
  split.
  - destruct (open_resets_and_announces
                (run signedIn (threeCloses 1006 1006 1006 ++ [TimerFires 2 false])) 3
                {| url := "ws://localhost:8000/ws/d1?token=tok"; readyState := CONNECTING;
                   sent := [] |} parent 9%Z) as [(_ & _ & H0 & _) _];
      [reflexivity|reflexivity|reflexivity|reflexivity|].
    exact H0.
  - unfold delivered.
    destruct (open_resets_and_announces (run signedIn [CallConnect false]) 0
                {| url := "ws://localhost:8000/ws/d1?token=tok"; readyState := CONNECTING;
                   sent := [] |} parent 9%Z) as [(_ & _ & _ & _ & ->) _];
      [reflexivity|reflexivity|reflexivity|reflexivity|].
    reflexivity.
Defined.

(** ** Inbound messages *)

(** X14. An inbound message never disturbs the connection: whatever
    arrives, the sockets, the timers, the reconnect attempt count, the
    connection status and the connected flag are unchanged.  Text that does
    not parse changes nothing but the console and leaves [lastMessage] as it
    was; a parsed message of a type other than alert, ml_result,
    connection_ack and error becomes [lastMessage] and is logged as unknown,
    with a plain log line and no error. *)
Theorem inbound_message_harmless st s parsed :
  (sockets (step st (SocketMessage s parsed)) = sockets st ∧
   wsRef (step st (SocketMessage s parsed)) = wsRef st ∧
   timers (step st (SocketMessage s parsed)) = timers st ∧
   reconnectTimeoutRef (step st (SocketMessage s parsed)) = reconnectTimeoutRef st ∧
   reconnectAttemptsRef (step st (SocketMessage s parsed)) = reconnectAttemptsRef st ∧
   isConnected (step st (SocketMessage s parsed)) = isConnected st ∧
   connectionStatus (step st (SocketMessage s parsed)) = connectionStatus st) ∧
  (parsed = None → lastMessage (step st (SocketMessage s parsed)) = lastMessage st) ∧
  (∀ sock m, sockets st !! s = Some sock → readyState sock = OPEN → parsed = Some m →
     knownType (msg_type m) = false →
     lastMessage (step st (SocketMessage s parsed)) = Some m ∧
     console (step st (SocketMessage s parsed)) =
       console st ++ [Log "WebSocket message received:"; Log "Unknown message type:"]).
Proof.
  split; [|split].
  - cbn [step]. destruct (readyState <$> sockets st !! s) as [[]|]; try done;
      destruct (onmessage_frame parsed st) as (-> & -> & -> & -> & -> & -> & -> & _);
      done.
  - intros ->. cbn [step]. by destruct (readyState <$> sockets st !! s) as [[]|].
  - intros sock m Hs Hopen -> Hunknown. cbn [step]. rewrite Hs. simpl. rewrite Hopen.
    unfold knownType in Hunknown.
    apply orb_false_elim in Hunknown as [Hunknown H4].
    apply orb_false_elim in Hunknown as [Hunknown H3].
    apply orb_false_elim in Hunknown as [H1 H2].
    unfold onmessage, handleIncomingMessage. simpl. rewrite H1, H2, H3, H4. simpl.
    by rewrite <- app_assoc.
Qed.

Lemma inbound_message_harmless_witness :
  lastMessage
    (step (run signedIn [CallConnect false; SocketOpen 0 5%Z false])
       (SocketMessage 0 (Some {| msg_type := "ping"; data := None; timestamp := None;
                                 device_id := None |}))) =
  Some {| msg_type := "ping"; data := None; timestamp := None; device_id := None |}.
Proof.
  destruct (inbound_message_harmless
              (run signedIn [CallConnect false; SocketOpen 0 5%Z false]) 0
              (Some {| msg_type := "ping"; data := None; timestamp := None;
                       device_id := None |})) as (_ & _ & Hunknown).
  apply (Hunknown {| url := "ws://localhost:8000/ws/d1?token=tok"; readyState := OPEN;
                     sent := [ {| msg_type := "device_info";
                                  data := Some (DeviceInfo "d1" "u1" "mobile" "1.0.0");
                                  timestamp := Some 5%Z;
                                  device_id := Some "d1"%string |} ] |}
                  {| msg_type := "ping"; data := None; timestamp := None;
                     device_id := None |}); reflexivity.
Defined.

(** ** Pending reconnects *)

Lemma onePending_clear tms ref t :
  onePending tms ref → onePending (clearTimeout t tms) ref.
Proof.
  intros Hinv t' d Ht'. unfold clearTimeout in Ht'.
  apply list_lookup_insert_Some in Ht' as [(_ & [=] & _)|[_ Ht']]. eauto.
Qed.

Lemma onePending_cancel tms ref :
  onePending tms ref →
  noPendingReconnect match ref with
                     | Some t => clearTimeout t tms
                     | None => tms
                     end.
Proof.
  intros Hinv t d Ht. destruct ref as [t0|].
  - unfold clearTimeout in Ht.
    apply list_lookup_insert_Some in Ht as [(_ & [=] & _)|[Hne Ht]].
    specialize (Hinv t d Ht). congruence.
  - by specialize (Hinv t d Ht).
Qed.

Lemma noPending_onePending tms ref : noPendingReconnect tms → onePending tms ref.
Proof. intros Hnone t d Ht. by destruct (Hnone t d). Qed.

Lemma scheduleReconnect_timers st :
  timers (scheduleReconnect st) =
    match reconnectTimeoutRef st with
    | Some t => clearTimeout t (timers st)
    | None => timers st
    end ++ [Some (ReconnectTimer (reconnectDelay (S (reconnectAttemptsRef st))))] ∧
  reconnectTimeoutRef (scheduleReconnect st) = Some (length (timers st)).
Proof.
  unfold scheduleReconnect. destruct (reconnectTimeoutRef st) eqn:Href; simpl; [|done].
  unfold clearTimeout. by rewrite length_insert.
Qed.

Lemma scheduleReconnect_onePending st :
  onePendingReconnect st → onePendingReconnect (scheduleReconnect st).
Proof.
  intros Hinv. unfold onePendingReconnect.
  destruct (scheduleReconnect_timers st) as [-> ->].
  pose proof (onePending_cancel _ _ Hinv) as Hnone.
  intros t d Ht. apply lookup_app_Some in Ht as [Ht|[Hge Ht]].
  - by destruct (Hnone t d).
  - assert (length match reconnectTimeoutRef st with
                    | Some t0 => clearTimeout t0 (timers st)
                    | None => timers st
                    end = length (timers st)) as Hlen.
    { destruct (reconnectTimeoutRef st); [|done]. unfold clearTimeout.
      by rewrite length_insert. }
    rewrite Hlen in Ht, Hge.
    destruct (t - length (timers st)) as [|n] eqn:Hn; [|by destruct n].
    f_equal. lia.
Qed.

Lemma connect_onePending b st :
  onePendingReconnect st → onePendingReconnect (connect b st).
Proof.
  intros Hinv. unfold connect. destruct (user st); [|done].
  destruct (truthy_opt (token st)); [|done].
  destruct (currentReadyState st) as [[]|]; try done;
    (destruct b; [by apply scheduleReconnect_onePending|done]).
Qed.

Lemma disconnect_timers st :
  reconnectTimeoutRef (disconnect st) = None ∧
  timers (disconnect st) =
    match reconnectTimeoutRef st with
    | Some t => clearTimeout t (timers st)
    | None => timers st
    end.
Proof.
  unfold disconnect.
  destruct (reconnectTimeoutRef st) eqn:Href; simpl; by destruct (wsRef st).
Qed.

Lemma reconnect_timers st :
  timers (reconnect st) = timers (disconnect st) ++ [Some ConnectTimer] ∧
  reconnectTimeoutRef (reconnect st) = reconnectTimeoutRef (disconnect st).
Proof. unfold reconnect. by destruct (disconnect st). Qed.

Lemma step_onePending st ev : onePendingReconnect st → onePendingReconnect (step st ev).
Proof.
  intros Hinv.
  destruct ev as [b| | |m now throws|s now sendThrows|s parsed|s|s code|t b|next b];
    cbn [step].
  - by apply connect_onePending.
  - unfold onePendingReconnect. destruct (disconnect_timers st) as [-> ->].
    apply noPending_onePending. by apply onePending_cancel.
  - unfold onePendingReconnect.
    destruct (reconnect_timers st) as [-> ->].
    destruct (disconnect_timers st) as [-> ->].
    intros t d Ht. apply lookup_app_Some in Ht as [Ht|[_ Ht]].
    + by destruct (onePending_cancel _ _ Hinv t d).
    + by destruct (t - _) as [|[|?]].
  - unfold onePendingReconnect.
    by destruct (sendMessage_frame m now throws st) as (_ & _ & -> & -> & _).
  - destruct (readyState <$> sockets st !! s) as [[]|]; try done.
    unfold onePendingReconnect.
    by destruct (onopen_frame now sendThrows
      (set_ws (wsRef st) (set_readyState s OPEN (sockets st)) st)) as (_ & _ & -> & -> & _).
  - destruct (readyState <$> sockets st !! s) as [[]|]; try done;
      unfold onePendingReconnect;
      by destruct (onmessage_frame parsed st) as (_ & _ & -> & -> & _).
  - by destruct (sockets st !! s).
  - destruct (sockets st !! s); [|done]. unfold onclose. simpl.
    case_match; [|done]. by apply scheduleReconnect_onePending.
  - destruct (timers st !! t) as [[tm|]|]; try done.
    assert (onePendingReconnect
              (set_timeout (reconnectTimeoutRef st) (clearTimeout t (timers st)) st))
      as Hcleared by (by apply onePending_clear).
    destruct tm; [destruct (appStateRef _)|]; try done; by apply connect_onePending.
  - unfold handleAppStateChange. destruct next; simpl; try done.
    + case_match; [by apply connect_onePending|done].
    + destruct (reconnectTimeoutRef st) eqn:Href; [|done].
      apply noPending_onePending. simpl.
      pose proof (onePending_cancel _ _ Hinv) as Hnone. by rewrite Href in Hnone.
    + destruct (reconnectTimeoutRef st) eqn:Href; [|done].
      apply noPending_onePending. simpl.
      pose proof (onePending_cancel _ _ Hinv) as Hnone. by rewrite Href in Hnone.
Qed.

Lemma run_onePending evs : ∀ st, onePendingReconnect st → onePendingReconnect (run st evs).
Proof.
  induction evs as [|ev evs IH]; intros st Hst; [done|].
  simpl. apply IH. by apply step_onePending.
Qed.

Lemma init_onePending u tk : onePendingReconnect (init u tk).
Proof. intros t d Ht. by destruct t. Qed.

(** X15. At most one automatic reconnect is pending at any time: in every
    reachable state a pending reconnect timer is the one whose handle is in
    [reconnectTimeoutRef], so two pending reconnect timers are the same
    timer.  Scheduling a reconnect replaces the pending one, it never adds
    to it. *)
Theorem one_reconnect_pending u tk evs :
  (∀ t d, timers (run (init u tk) evs) !! t = Some (Some (ReconnectTimer d)) →
     reconnectTimeoutRef (run (init u tk) evs) = Some t) ∧
  (∀ t1 t2 d1 d2,
     timers (run (init u tk) evs) !! t1 = Some (Some (ReconnectTimer d1)) →
     timers (run (init u tk) evs) !! t2 = Some (Some (ReconnectTimer d2)) →
     t1 = t2 ∧ d1 = d2).
Proof.
  pose proof (run_onePending evs _ (init_onePending u tk)) as Hinv.
  split; [exact Hinv|].
  intros t1 t2 d1 d2 H1 H2.
  pose proof (Hinv _ _ H1). pose proof (Hinv _ _ H2).
  assert (t1 = t2) as -> by congruence. split; congruence.
Qed.

Lemma one_reconnect_pending_witness :
  reconnectTimeoutRef (run signedIn (threeCloses 1006 1006 1006)) = Some 2.
Proof.
  destruct (one_reconnect_pending (Some parent) (Some "tok"%string)
              (threeCloses 1006 1006 1006)) as [Href _].
  apply (Href 2 15000%Z). reflexivity.
Defined.

(** ** Disconnecting *)

(** X16. [disconnect()] is idempotent and leaves the provider identified
    as disconnected with no current socket and no timer reference.  On
    every reachable state it leaves no socket opening or open (the current
    one is closing) and no automatic reconnect pending. *)
Theorem disconnect_is_final :
  (∀ st,
     step (step st CallDisconnect) CallDisconnect = step st CallDisconnect ∧
     wsRef (step st CallDisconnect) = None ∧
     reconnectTimeoutRef (step st CallDisconnect) = None ∧
     isConnected (step st CallDisconnect) = false ∧
     connectionStatus (step st CallDisconnect) = disconnected ∧
     scheduledDelays (step st CallDisconnect) = scheduledDelays st) ∧
  (∀ u tk evs,
     (∀ s sock, sockets (step (run (init u tk) evs) CallDisconnect) !! s = Some sock →
        live (readyState sock) = false) ∧
     noPendingReconnect (timers (step (run (init u tk) evs) CallDisconnect))).
Proof.
  split.
  - intros st. cbn [step].
    destruct (disconnect_sockets st) as [Hws _].
    destruct (disconnect_timers st) as [Href _].
    destruct (disconnect_unchanged st) as [_ Hd].
    repeat split; try done.
    unfold disconnect at 1. rewrite Href, Hws.
    unfold disconnect. by repeat case_match.
  - intros u tk evs. cbn [step]. split.
    + intros s sock Hs.
      apply (disconnect_no_live _ (run_oneLiveSocket evs _ (init_oneLiveSocket u tk)) s).
      unfold readyStates. by rewrite list_lookup_fmap, Hs.
    + destruct (disconnect_timers (run (init u tk) evs)) as [_ ->].
      apply onePending_cancel. apply (run_onePending evs _ (init_onePending u tk)).
Qed.

Lemma disconnect_is_final_witness :
  step (step (run signedIn [CallConnect false; SocketOpen 0 7%Z false]) CallDisconnect)
    CallDisconnect =
  step (run signedIn [CallConnect false; SocketOpen 0 7%Z false]) CallDisconnect ∧
  readyStates (step (run signedIn [CallConnect false; SocketOpen 0 7%Z false])
                 CallDisconnect) = [CLOSING].
Proof.
  destruct disconnect_is_final as [Hidem _].
  split; [|reflexivity].
  apply (Hidem (run signedIn [CallConnect false; SocketOpen 0 7%Z false])).
Defined.

(** ** The application going to the background and coming back *)

Lemma connect_fresh st u :
  user st = Some u → truthy_opt (token st) = true →
  (∀ r, currentReadyState st = Some r → live r = false) →
  currentReadyState (connect false st) = Some CONNECTING ∧
  wsRef (connect false st) = Some (length (sockets st)) ∧
  connectionStatus (connect false st) = connecting ∧
  appStateRef (connect false st) = appStateRef st.
Proof.
  intros Hu Htk Hdead. unfold connect. rewrite Hu, Htk.
  assert (∀ st', sockets st' = sockets st ++
                   [{| url := WS_BASE_URL +:+ "/ws/" +:+
                             default "" (or_else (deviceId u) (Some (user_id u))) +:+
                             "?token=" +:+ default "" (token st);
                       readyState := CONNECTING; sent := [] |}] →
                 wsRef st' = Some (length (sockets st)) →
                 currentReadyState st' = Some CONNECTING) as Hnew.
  { intros st' Hs Hw. unfold currentReadyState. rewrite Hw, Hs.
    rewrite lookup_app_r by lia. by rewrite Nat.sub_diag. }
  destruct (currentReadyState st) as [[]|] eqn:Hst;
    try (by specialize (Hdead _ eq_refl)); (split; [by apply Hnew|done]).
Qed.

(** X17. When the application goes to the background or becomes inactive,
    the pending automatic reconnect is cancelled and nothing else happens:
    no socket is closed or created.  A reconnect timer that expires while
    the application is not active (one scheduled by a close that arrived in
    the background) does not connect and schedules nothing.  When the
    application becomes active again while the provider is not connected,
    has an identity and no socket opening or open, a new socket is created
    at once. *)
Theorem background_suspends_reconnect :
  (∀ u tk evs next b,
     next = background ∨ next = inactive →
     noPendingReconnect (timers (step (run (init u tk) evs) (AppStateChange next b))) ∧
     reconnectTimeoutRef (step (run (init u tk) evs) (AppStateChange next b)) = None ∧
     sockets (step (run (init u tk) evs) (AppStateChange next b)) =
       sockets (run (init u tk) evs) ∧
     wsRef (step (run (init u tk) evs) (AppStateChange next b)) =
       wsRef (run (init u tk) evs) ∧
     appStateRef (step (run (init u tk) evs) (AppStateChange next b)) = next) ∧
  (∀ st t d b,
     appStateRef st ≠ active →
     timers st !! t = Some (Some (ReconnectTimer d)) →
     sockets (step st (TimerFires t b)) = sockets st ∧
     wsRef (step st (TimerFires t b)) = wsRef st ∧
     timers (step st (TimerFires t b)) = clearTimeout t (timers st) ∧
     connectionStatus (step st (TimerFires t b)) = connectionStatus st ∧
     unchanged st (step st (TimerFires t b))) ∧
  (∀ st u,
     user st = Some u → truthy_opt (token st) = true → isConnected st = false →
     (∀ r, currentReadyState st = Some r → live r = false) →
     currentReadyState (step st (AppStateChange active false)) = Some CONNECTING ∧
     wsRef (step st (AppStateChange active false)) = Some (length (sockets st)) ∧
     connectionStatus (step st (AppStateChange active false)) = connecting ∧
     appStateRef (step st (AppStateChange active false)) = active).
Proof.
  split; [|split].
  - intros u tk evs next b Hnext.
    pose proof (run_onePending evs _ (init_onePending u tk)) as Hinv.
    pose proof (onePending_cancel _ _ Hinv) as Hnone.
    cbn [step]. unfold handleAppStateChange.
    destruct Hnext as [-> | ->]; simpl;
      destruct (reconnectTimeoutRef (run (init u tk) evs)) eqn:Href; done.
  - intros st t d b Happ Ht. cbn [step]. rewrite Ht. simpl.
    destruct (appStateRef st); done.
  - intros st u Hu Htk Hconn Hdead. cbn [step]. unfold handleAppStateChange.
    assert (negb (isConnected (set_appState active st)) &&
              bool_decide (is_Some (user (set_appState active st))) &&
              truthy_opt (token (set_appState active st)) = true) as ->.
    { simpl. rewrite Hconn, Htk, bool_decide_true by eauto. done. }
    by destruct (connect_fresh (set_appState active st) u Hu Htk Hdead)
      as (-> & -> & -> & ->).
Qed.

Lemma background_suspends_reconnect_witness :
  sockets (step (run signedIn
                   [CallConnect false; AppStateChange background false;
                    SocketClose 0 1006%Z])
             (TimerFires 0 false)) =
  sockets (run signedIn
             [CallConnect false; AppStateChange background false; SocketClose 0 1006%Z]) ∧
  currentReadyState
    (step (run signedIn
             [CallConnect false; AppStateChange background false; SocketClose 0 1006%Z;
              TimerFires 0 false])
       (AppStateChange active false)) = Some CONNECTING ∧
  reconnectTimeoutRef
    (step (run signedIn [CallConnect false; SocketClose 0 1006%Z])
       (AppStateChange background false)) = None.
Proof.
  destruct background_suspends_reconnect as (Hback & Hfire & Hfront).
  split; [|split].
  - apply (Hfire (run signedIn
                    [CallConnect false; AppStateChange background false;
                     SocketClose 0 1006%Z]) 0 5000%Z false); [discriminate|reflexivity].
  - apply (Hfront (run signedIn
                     [CallConnect false; AppStateChange background false;
                      SocketClose 0 1006%Z; TimerFires 0 false]) parent);
      [reflexivity|reflexivity|reflexivity|].
    intros r Hr. vm_compute in Hr. by injection Hr as <-.
  - apply (Hback (Some parent) (Some "tok"%string)
             [CallConnect false; SocketClose 0 1006%Z] background false). by left.
Defined.

(** ** The explicit reconnect *)

(** X18. The one-second timer armed by [reconnect()] is not kept in
    [reconnectTimeoutRef], so [disconnect()] does not cancel it: after
    [reconnect()] followed by [disconnect()], the timer still fires and
    creates a socket, whatever the state of the application. *)
Theorem reconnect_timer_survives_disconnect st u :
  user st = Some u → truthy_opt (token st) = true →
  timers (run st [CallReconnect; CallDisconnect]) !! length (timers st) =
    Some (Some ConnectTimer) ∧
  wsRef (run st [CallReconnect; CallDisconnect]) = None ∧
  currentReadyState
    (run st [CallReconnect; CallDisconnect; TimerFires (length (timers st)) false]) =
    Some CONNECTING ∧
  connectionStatus
    (run st [CallReconnect; CallDisconnect; TimerFires (length (timers st)) false]) =
    connecting.
Proof.
  intros Hu Htk.
  assert (length (timers (disconnect st)) = length (timers st)) as Hlen.
  { destruct (disconnect_timers st) as [_ ->].
    destruct (reconnectTimeoutRef st); [|done]. unfold clearTimeout.
    by rewrite length_insert. }
  assert (∀ st0, user (disconnect st0) = user st0 ∧ token (disconnect st0) = token st0 ∧
                 sockets (disconnect st0) = sockets (disconnect st0)) as Hid.
  { intros st0. unfold disconnect. by repeat case_match. }
  set (st1 := step st CallReconnect).
  assert (timers st1 = timers (disconnect st) ++ [Some ConnectTimer] ∧
          reconnectTimeoutRef st1 = None ∧ wsRef st1 = None ∧
          user st1 = Some u ∧ token st1 = token st) as (Ht1 & Hr1 & Hw1 & Hu1 & Hk1).
  { subst st1. cbn [step]. destruct (reconnect_timers st) as [-> ->].
    destruct (disconnect_timers st) as [-> _].
    destruct (reconnect_sockets st) as [_ ->].
    destruct (disconnect_sockets st) as [-> _].
    destruct (Hid st) as (Hu' & Htk' & _).
    repeat split; try done; unfold reconnect; cbn [user token set_timeout]; congruence. }
  set (st2 := step st1 CallDisconnect).
  assert (timers st2 = timers st1 ∧ wsRef st2 = None ∧ user st2 = Some u ∧
          token st2 = token st) as (Ht2 & Hw2 & Hu2 & Hk2).
  { subst st2. cbn [step]. destruct (disconnect_timers st1) as [_ ->].
    destruct (disconnect_sockets st1) as [-> _].
    destruct (Hid st1) as (-> & -> & _). by rewrite Hr1. }
  assert (timers st2 !! length (timers st) = Some (Some ConnectTimer)) as Hlook.
  { rewrite Ht2, Ht1, lookup_app_r by lia. by rewrite Hlen, Nat.sub_diag. }
  change (run st [CallReconnect; CallDisconnect]) with st2.
  change (run st [CallReconnect; CallDisconnect; TimerFires (length (timers st)) false])
    with (step st2 (TimerFires (length (timers st)) false)).
  clearbody st2. split; [done|]. split; [done|].
  cbn [step]. rewrite Hlook.
  destruct (connect_fresh
              (set_timeout (reconnectTimeoutRef st2)
                 (clearTimeout (length (timers st)) (timers st2)) st2) u)
    as (-> & _ & -> & _); try done.
  - simpl. by rewrite Hk2.
  - unfold currentReadyState. simpl. by rewrite Hw2.
Qed.

Lemma reconnect_timer_survives_disconnect_witness :
  currentReadyState
    (run (run signedIn [CallConnect false; SocketOpen 0 7%Z false])
       [CallReconnect; CallDisconnect; TimerFires 0 false]) = Some CONNECTING.
Proof.
  destruct (reconnect_timer_survives_disconnect
              (run signedIn [CallConnect false; SocketOpen 0 7%Z false]) parent)
    as (_ & _ & Hcur & _); [reflexivity|reflexivity|].
  exact Hcur.
Defined.

(** ** Bounds on the reconnect bookkeeping *)

Lemma step_attempts_bounded st ev :
  ctorThrowsIn ev = false →
  reconnectAttemptsRef st ≤ MAX_RECONNECT_ATTEMPTS →
  reconnectAttemptsRef (step st ev) ≤ MAX_RECONNECT_ATTEMPTS.
Proof.
  intros Hev Hst.
  destruct (step_effect st ev) as [[-> _]|[[Hopen _]|[[-> _] [(s & code & _ & _ & Hlt)|Hthr]]]];
    [done| |lia|congruence].
  destruct ev as [| | | |s now thr| | | | |]; try done. cbn [step].
  destruct (readyState <$> sockets st !! s) as [[]|]; try done.
  unfold onopen. simpl. destruct (user st); [|simpl; unfold MAX_RECONNECT_ATTEMPTS; lia].
  match goal with
  | |- context [sendMessage ?m ?n ?t ?x] =>
      destruct (sendMessage_unchanged m n t x) as [-> _]
  end.
  simpl. unfold MAX_RECONNECT_ATTEMPTS. lia.
Qed.

Lemma step_delays_in_range st ev :
  Forall delayInRange (scheduledDelays st) →
  Forall delayInRange (scheduledDelays (step st ev)).
Proof.
  intros Hst.
  destruct (step_effect st ev) as [[_ ->]|[[_ ->]|[[_ ->] _]]]; try done.
  apply Forall_app. split; [done|]. apply Forall_singleton.
  unfold delayInRange, reconnectDelay, RECONNECT_INTERVAL. lia.
Qed.

(** X19. The count of reconnect attempts never exceeds
    [MAX_RECONNECT_ATTEMPTS] on a run in which creating a socket never
    throws, and every wait scheduled before an automatic reconnect, on any
    run, is between 5 and 30 seconds. *)
Theorem reconnect_bookkeeping_bounded u tk evs :
  (Forall (λ ev, ctorThrowsIn ev = false) evs →
   reconnectAttemptsRef (run (init u tk) evs) ≤ MAX_RECONNECT_ATTEMPTS) ∧
  Forall delayInRange (scheduledDelays (run (init u tk) evs)).
Proof.
  split.
  - intros Hevs.
    assert (reconnectAttemptsRef (init u tk) ≤ MAX_RECONNECT_ATTEMPTS) as Hinit
      by (simpl; unfold MAX_RECONNECT_ATTEMPTS; lia).
    revert Hinit. generalize (init u tk).
    induction Hevs as [|ev evs Hev _ IH]; intros st Hst; [done|].
    simpl. apply IH. by apply step_attempts_bounded.
  - assert (Forall delayInRange (scheduledDelays (init u tk))) as Hinit by constructor.
    revert Hinit. generalize (init u tk).
    induction evs as [|ev evs IH]; intros st Hst; [done|].
    simpl. apply IH. by apply step_delays_in_range.
Qed.

Lemma reconnect_bookkeeping_bounded_witness :
  reconnectAttemptsRef (run signedIn (threeCloses 1006 1006 1006)) ≤ MAX_RECONNECT_ATTEMPTS.
Proof.
  destruct (reconnect_bookkeeping_bounded (Some parent) (Some "tok"%string)
              (threeCloses 1006 1006 1006)) as [Hbound _].
  apply Hbound. repeat constructor.
Defined.

(** ** A provider without identity *)

Lemma step_untouched st ev :
  noIdentity st → untouched st → noIdentity (step st ev) ∧ untouched (step st ev).
Proof.
  intros Hid (Hs & Hw & Hc & Hstat & Ha & Hd).
  assert (∀ st', user st' = user st → token st' = token st → ∀ b,
            connect b st' = log [Log "No user or token, skipping WebSocket connection"] st')
    as Hconnect.
  { intros st' Hu Hk b. unfold connect. rewrite Hu, Hk.
    destruct Hid as [->| ->]; [done|]. by destruct (user st). }
  assert (∀ es st', user st' = user st → token st' = token st → sockets st' = [] →
            wsRef st' = None → isConnected st' = false →
            connectionStatus st' = disconnected → reconnectAttemptsRef st' = 0 →
            scheduledDelays st' = [] →
            Forall (λ e, match e with LogScheduling _ _ => False | _ => True end) es →
            noIdentity (log es st') ∧ untouched (log es st')) as Hlog.
  { intros es st' Hu Hk Hs' Hw' Hc' Hstat' Ha' Hd' Hes.
    unfold noIdentity, untouched. rewrite scheduledDelays_log, Hd'. simpl.
    rewrite Hu, Hk. repeat split; try done.
    clear -Hes. induction Hes as [|e es He _ IH]; [done|]. by destruct e. }
  assert (∀ st', st' = log [] st') as Hnolog
    by (intros []; unfold log; simpl; by rewrite app_nil_r).
  destruct ev as [b| | |m now throws|s now sendThrows|s parsed|s|s code|t b|next b];
    cbn [step]; rewrite ?Hs; try done.
  - rewrite Hconnect by done. apply Hlog; try done. by repeat constructor.
  - unfold disconnect. rewrite (Hnolog (set_connection _ _ _)).
    destruct (reconnectTimeoutRef st); simpl; rewrite Hw; by apply Hlog.
  - unfold reconnect, disconnect. rewrite (Hnolog (set_timeout _ _ _)).
    destruct (reconnectTimeoutRef st); simpl; rewrite Hw; by apply Hlog.
  - unfold sendMessage. rewrite Hw. apply Hlog; try done. by repeat constructor.
  - destruct (timers st !! t) as [[tm|]|]; try done.
    destruct tm; [destruct (appStateRef _)|]; rewrite ?Hconnect by done;
      try (apply Hlog; try done; by repeat constructor);
      rewrite (Hnolog (set_timeout _ _ _)); by apply Hlog.
  - unfold handleAppStateChange.
    assert (negb (isConnected (set_appState next st)) &&
              bool_decide (is_Some (user (set_appState next st))) &&
              truthy_opt (token (set_appState next st)) = false) as Hno.
    { simpl. destruct Hid as [->| ->]; [by rewrite andb_false_r|apply andb_false_r]. }
    destruct next; rewrite ?Hno; simpl;
      try (rewrite (Hnolog (set_appState _ _)); by apply Hlog);
      (destruct (reconnectTimeoutRef st);
       [rewrite (Hnolog (set_timeout _ _ _))|rewrite (Hnolog (set_appState _ _))];
       by apply Hlog).
Qed.

(** X20. A provider without a user or without a token never reaches the
    transport: whatever is called and whatever timers expire, no socket is
    ever created, the provider stays disconnected, and no reconnect is ever
    scheduled. *)
Theorem no_identity_no_socket u tk evs :
  u = None ∨ truthy_opt tk = false →
  untouched (run (init u tk) evs).
Proof.
  intros Hid.
  assert (noIdentity (init u tk) ∧ untouched (init u tk)) as Hinit by done.
  revert Hinit. generalize (init u tk).
  induction evs as [|ev evs IH]; intros st [Hst Hun]; [done|].
  simpl. apply IH. by apply step_untouched.
Qed.

Lemma no_identity_no_socket_witness :
  untouched (run (init (Some parent) (Some ""%string))
               [CallConnect false; CallReconnect; TimerFires 0 false;
                AppStateChange active false]).
Proof.
  apply (no_identity_no_socket (Some parent) (Some ""%string)). right. reflexivity.
Defined.

(** ** Close events of a replaced socket *)

Lemma onclose_status code st :
  isConnected (onclose code st) = false ∧ connectionStatus (onclose code st) = disconnected.
Proof. unfold onclose, scheduleReconnect. simpl. by repeat case_match. Qed.

(** X21. The close handler of a socket that has been replaced still runs
    against the provider: when the close event of an earlier socket arrives
    while the current socket is open, the provider reports itself
    disconnected although the current socket stays open and usable, and a
    later [connect()] does not repair the flag, because it finds the socket
    open and returns. *)
Theorem stale_close_marks_disconnected st s s' code b :
  wsRef st = Some s' → s ≠ s' →
  readyStates st !! s' = Some OPEN → is_Some (sockets st !! s) →
  isConnected (step st (SocketClose s code)) = false ∧
  connectionStatus (step st (SocketClose s code)) = disconnected ∧
  currentReadyState (step st (SocketClose s code)) = Some OPEN ∧
  isConnected (run st [SocketClose s code; CallConnect b]) = false ∧
  sockets (run st [SocketClose s code; CallConnect b]) =
    sockets (step st (SocketClose s code)).
Proof.
  intros Hws Hne Hopen [sock Hs].
  change (run st [SocketClose s code; CallConnect b])
    with (connect b (step st (SocketClose s code))).
  cbn [step]. rewrite Hs.
  set (st1 := set_ws (wsRef st) (set_readyState s CLOSED (sockets st)) st).
  destruct (onclose_status code st1) as [Hc Hstat].
  destruct (onclose_frame code st1) as (Hrs & Hw & _).
  assert (currentReadyState (onclose code st1) = Some OPEN) as Hcur.
  { rewrite currentReadyState_readyStates, Hw, Hrs. subst st1. simpl. rewrite Hws.
    unfold readyStates. simpl. rewrite set_readyState_readyStates.
    by rewrite list_lookup_insert_ne. }
  repeat split; try done; unfold connect; rewrite Hcur;
    (destruct (user _); [destruct (truthy_opt _)|]; done).
Qed.

Lemma stale_close_marks_disconnected_witness :
  isConnected
    (run signedIn
       [CallConnect false; SocketOpen 0 7%Z false; CallReconnect; TimerFires 0 false;
        SocketOpen 1 9%Z false]) = true ∧
  isConnected
    (step (run signedIn
             [CallConnect false; SocketOpen 0 7%Z false; CallReconnect; TimerFires 0 false;
              SocketOpen 1 9%Z false])
       (SocketClose 0 1000%Z)) = false ∧
  currentReadyState
    (step (run signedIn
             [CallConnect false; SocketOpen 0 7%Z false; CallReconnect; TimerFires 0 false;
              SocketOpen 1 9%Z false])
       (SocketClose 0 1000%Z)) = Some OPEN.
Proof.
  split; [reflexivity|].
  destruct (stale_close_marks_disconnected
              (run signedIn
                 [CallConnect false; SocketOpen 0 7%Z false; CallReconnect;
                  TimerFires 0 false; SocketOpen 1 9%Z false])
              0 1 1000%Z false) as (Hc & _ & Hcur & _);
    [reflexivity|discriminate|reflexivity|eexists; reflexivity|].
  split; [exact Hc|exact Hcur].
Defined.

End WebSocketCoverage.

(* ===================================================================== *)
(** * Further properties of the audio normalisation                       *)
(* ===================================================================== *)
Section AudioCoverage.
Import Audio.
Local Open Scope Z_scope.

(** ** The peak *)

Lemma peak_fold data : ∀ acc, 0 ≤ acc →
  foldl (λ peak x, Z.max peak (Z.abs (x - 128))) acc data = Z.max acc (peakOf data).
Proof.
  unfold peakOf. induction data as [|x data IH]; intros acc Hacc; [simpl; lia|].
  change (foldl (λ peak x, Z.max peak (Z.abs (x - 128))) (Z.max acc (Z.abs (x - 128))) data =
          Z.max acc (foldl (λ peak x, Z.max peak (Z.abs (x - 128)))
                       (Z.max 0 (Z.abs (x - 128))) data)).
  rewrite (IH (Z.max acc _)), (IH (Z.max 0 _)) by lia. lia.
Qed.

Lemma peakOf_cons x data : peakOf (x :: data) = Z.max (Z.abs (x - 128)) (peakOf data).
Proof.
  change (peakOf (x :: data))
    with (foldl (λ peak x, Z.max peak (Z.abs (x - 128))) (Z.max 0 (Z.abs (x - 128))) data).
  rewrite peak_fold by lia. lia.
Qed.

Lemma peakOf_nonneg data : 0 ≤ peakOf data.
Proof. destruct data; [done|]. rewrite peakOf_cons. lia. Qed.

Lemma peakOf_bound b data :
  0 ≤ b → Forall (λ x, Z.abs (x - 128) ≤ b) data → peakOf data ≤ b.
Proof.
  intros Hb Hdata. induction Hdata as [|x data Hx _ IH]; [done|].
  rewrite peakOf_cons. lia.
Qed.

Lemma peakOf_covers data x : x ∈ data → Z.abs (x - 128) ≤ peakOf data.
Proof.
  induction data as [|y data IH]; intros Hx; [by apply elem_of_nil in Hx|].
  rewrite peakOf_cons. apply elem_of_cons in Hx as [->|Hx]; [lia|].
  specialize (IH Hx). lia.
Qed.

Lemma peakOf_attained data :
  0 < peakOf data → ∃ i x, data !! i = Some x ∧ Z.abs (x - 128) = peakOf data.
Proof.
  induction data as [|y data IH]; [done|].
  rewrite peakOf_cons. intros Hpos.
  destruct (Z.max_spec (Z.abs (y - 128)) (peakOf data)) as [[Hlt ->]|[Hle ->]].
  - destruct IH as (i & x & Hi & Hx); [lia|]. by exists (S i), x.
  - by exists 0%nat, y.
Qed.

Lemma peakOf_samples data : Forall isSample data → peakOf data ≤ 128.
Proof.
  intros Hdata. apply peakOf_bound; [done|].
  eapply Forall_impl; [exact Hdata|]. unfold isSample. intros x Hx. simpl. lia.
Qed.

(** ** Scaling one sample *)

Lemma everyPeakAndSample_spec P :
  everyPeakAndSample P = true →
  ∀ peak x, 10 < peak ≤ 128 → isSample x → P peak x = true.
Proof.
  unfold everyPeakAndSample, isSample. intros Hall peak x Hpeak Hx.
  rewrite forallb_forall in Hall.
  assert (In peak (seqZ 11 118)) as Hin by (apply list_elem_of_In, elem_of_seqZ; lia).
  specialize (Hall _ Hin). rewrite forallb_forall in Hall.
  apply Hall, list_elem_of_In, elem_of_seqZ. lia.
Qed.

Lemma scaleSample_isSample peak x : isSample (scaleSample peak x).
Proof.
  unfold scaleSample, toUint8, isSample. destruct (Prim2SF _); try lia.
  apply Z.mod_pos_bound. lia.
Qed.

Lemma scaleSample_midpoint peak : 10 < peak ≤ 128 → scaleSample peak 128 = 128.
Proof.
  intros Hpeak.
  assert (everyPeakAndSample midpointKept = true) as Hall by (vm_compute; reflexivity).
  apply Z.eqb_eq. apply (everyPeakAndSample_spec _ Hall peak 0 Hpeak). unfold isSample. lia.
Qed.

Lemma scaleSample_step peak x :
  10 < peak ≤ 128 → 0 ≤ x < 255 → scaleSample peak x ≤ scaleSample peak (x + 1).
Proof.
  intros Hpeak Hx.
  assert (everyPeakAndSample stepMonotone = true) as Hall by (vm_compute; reflexivity).
  assert (isSample x) as Hs by (unfold isSample; lia).
  pose proof (everyPeakAndSample_spec _ Hall peak x Hpeak Hs) as H.
  unfold stepMonotone in H. replace (x <? 255) with true in H by (symmetry; apply Z.ltb_lt; lia).
  simpl in H. by apply Z.leb_le.
Qed.

Lemma scaleSample_mono peak x y :
  10 < peak ≤ 128 → isSample x → isSample y → x ≤ y →
  scaleSample peak x ≤ scaleSample peak y.
Proof.
  unfold isSample. intros Hpeak Hx Hy Hxy.
  assert (∀ n : nat, x + Z.of_nat n < 256 →
            scaleSample peak x ≤ scaleSample peak (x + Z.of_nat n)) as Hn.
  { induction n as [|n IH]; intros Hn.
    - by rewrite Z.add_0_r.
    - etrans; [apply IH; lia|].
      replace (x + Z.of_nat (S n)) with (x + Z.of_nat n + 1) by lia.
      apply scaleSample_step; [done|lia]. }
  replace y with (x + Z.of_nat (Z.to_nat (y - x))) by lia. apply Hn. lia.
Qed.

Lemma scaleSample_side peak x :
  10 < peak ≤ 128 → isSample x →
  (x ≤ 128 → scaleSample peak x ≤ 128) ∧ (128 ≤ x → 128 ≤ scaleSample peak x).
Proof.
  intros Hpeak Hx.
  assert (everyPeakAndSample sideKept = true) as Hall by (vm_compute; reflexivity).
  pose proof (everyPeakAndSample_spec _ Hall peak x Hpeak Hx) as H.
  unfold sideKept in H. apply andb_true_iff in H as [H1 H2].
  split; intros Hside.
  - replace (x <=? 128) with true in H1 by (symmetry; apply Z.leb_le; lia).
    by apply Z.leb_le.
  - replace (128 <=? x) with true in H2 by (symmetry; apply Z.leb_le; lia).
    by apply Z.leb_le.
Qed.

Lemma scaleSample_withinOne peak x :
  10 < peak ≤ 128 → isSample x → Z.abs (x - 128) ≤ peak →
  0 ≤ shortfall peak x (scaleSample peak x) ≤ peak.
Proof.
  intros Hpeak Hx Hle.
  assert (everyPeakAndSample withinOne = true) as Hall by (vm_compute; reflexivity).
  pose proof (everyPeakAndSample_spec _ Hall peak x Hpeak Hx) as H.
  unfold withinOne in H.
  replace (Z.abs (x - 128) <=? peak) with true in H by (symmetry; apply Z.leb_le; lia).
  apply andb_true_iff in H as [H1 H2]. split; by apply Z.leb_le.
Qed.

Lemma scaleSample_peak peak x :
  10 < peak ≤ 128 → isSample x → Z.abs (x - 128) = peak →
  fullScale (scaleSample peak x).
Proof.
  intros Hpeak Hx Heq.
  assert (everyPeakAndSample peakToFullScale = true) as Hall by (vm_compute; reflexivity).
  pose proof (everyPeakAndSample_spec _ Hall peak x Hpeak Hx) as H.
  unfold peakToFullScale in H.
  replace (Z.abs (x - 128) =? peak) with true in H by (symmetry; apply Z.eqb_eq; lia).
  simpl in H. unfold fullScale. destruct (128 <? x).
  - left. by apply Z.eqb_eq.
  - right. by apply Z.leb_le.
Qed.

Lemma scaleSample_notQuieter peak x :
  10 < peak < 128 → isSample x → Z.abs (x - 128) ≤ peak →
  Z.abs (x - 128) ≤ Z.abs (scaleSample peak x - 128).
Proof.
  intros Hpeak Hx Hle.
  assert (everyPeakAndSample notQuieter = true) as Hall by (vm_compute; reflexivity).
  assert (10 < peak ≤ 128) as Hpeak' by lia.
  pose proof (everyPeakAndSample_spec _ Hall peak x Hpeak' Hx) as H.
  unfold notQuieter in H.
  replace (Z.abs (x - 128) <=? peak) with true in H by (symmetry; apply Z.leb_le; lia).
  replace (peak <? 128) with true in H by (symmetry; apply Z.ltb_lt; lia).
  by apply Z.leb_le.
Qed.

(** ** Normalising a buffer *)

(** X22. A buffer whose samples all lie within 10 of the midpoint 128 is
    returned as it is; a buffer of bytes with a sample further away is
    rescaled, sample by sample, with the factor of its peak. *)
Theorem quiet_audio_unchanged data :
  (Forall (λ x, 118 ≤ x ≤ 138) data → normalizeAudio data = data) ∧
  (∀ x, x ∈ data → 10 < Z.abs (x - 128) →
     normalizeAudio data = scaleSample (peakOf data) <$> data).
Proof.
  unfold normalizeAudio. split.
  - intros Hquiet.
    assert (peakOf data ≤ 10) as Hpeak.
    { apply peakOf_bound; [done|]. eapply Forall_impl; [exact Hquiet|]. simpl. lia. }
    by replace (10 <? peakOf data) with false by (symmetry; apply Z.ltb_ge; lia).
  - intros x Hx Hloud. pose proof (peakOf_covers _ _ Hx).
    by replace (10 <? peakOf data) with true by (symmetry; apply Z.ltb_lt; lia).
Qed.

Lemma quiet_audio_unchanged_witness :
  normalizeAudio [128; 130; 120; 138; 118] = [128; 130; 120; 138; 118] ∧
  normalizeAudio [128; 130; 117] = scaleSample 11 <$> [128; 130; 117].
Proof.
  split.
  - apply (quiet_audio_unchanged [128; 130; 120; 138; 118]).
    repeat constructor; lia.
  - destruct (quiet_audio_unchanged [128; 130; 117]) as [_ Hloud].
    apply (Hloud 117); [|simpl; lia].
    apply list_elem_of_In. simpl. tauto.
Defined.

(** X23. Normalising a buffer of bytes gives a buffer of bytes of the same
    length, in which silence (128) stays silence, every sample stays on its
    side of the midpoint, and the order of any two samples is kept. *)
Theorem normalizeAudio_shape data :
  Forall isSample data →
  length (normalizeAudio data) = length data ∧
  Forall isSample (normalizeAudio data) ∧
  (∀ i, data !! i = Some 128 → normalizeAudio data !! i = Some 128) ∧
  (∀ i x y, data !! i = Some x → normalizeAudio data !! i = Some y →
     (x ≤ 128 → y ≤ 128) ∧ (128 ≤ x → 128 ≤ y)) ∧
  (∀ i j x1 x2 y1 y2,
     data !! i = Some x1 → data !! j = Some x2 →
     normalizeAudio data !! i = Some y1 → normalizeAudio data !! j = Some y2 →
     x1 ≤ x2 → y1 ≤ y2).
Proof.
  intros Hdata. unfold normalizeAudio.
  pose proof (peakOf_samples _ Hdata) as Hmax.
  destruct (10 <? peakOf data) eqn:Hloud.
  - apply Z.ltb_lt in Hloud. assert (10 < peakOf data ≤ 128) as Hpeak by lia.
    assert (∀ i x, data !! i = Some x → isSample x) as Hsample
      by (intros i x Hi; by apply (Forall_lookup_1 _ _ _ _ Hdata Hi)).
    split; [by rewrite length_fmap|]. split; [|split; [|split]].
    + apply Forall_fmap, Forall_true. intros x. apply scaleSample_isSample.
    + intros i Hi. rewrite list_lookup_fmap, Hi. simpl. by rewrite scaleSample_midpoint.
    + intros i x y Hi Ho. rewrite list_lookup_fmap, Hi in Ho. injection Ho as <-.
      apply scaleSample_side; eauto.
    + intros i j x1 x2 y1 y2 Hi Hj Hoi Hoj Hle.
      rewrite list_lookup_fmap, Hi in Hoi. rewrite list_lookup_fmap, Hj in Hoj.
      injection Hoi as <-. injection Hoj as <-. apply scaleSample_mono; eauto.
  - split; [done|]. split; [done|]. split; [done|]. split.
    + intros i x y Hi Ho. rewrite Hi in Ho. by injection Ho as <-.
    + intros i j x1 x2 y1 y2 Hi Hj Hoi Hoj Hle. congruence.
Qed.

Lemma normalizeAudio_shape_witness :
  length (normalizeAudio [128; 141; 115; 120]) = 4%nat ∧
  normalizeAudio [128; 141; 115; 120] !! 0%nat = Some 128.
Proof.
  destruct (normalizeAudio_shape [128; 141; 115; 120]) as (Hlen & _ & Hmid & _).
  - repeat constructor; unfold isSample; lia.
  - split; [exact Hlen|]. apply Hmid. reflexivity.
Defined.

(** X24. When the peak of a buffer of bytes is significant (above 10), every
    normalised sample is the exact scaling [128 + (x - 128) * 127 / peak]
    of its input cut down to an integer, or one less; some sample reaches
    full scale, which is 255 above the midpoint and 1 or 0 below it; and
    unless the peak is the largest possible (128), no sample comes out
    nearer the midpoint than it went in. *)
Theorem normalizeAudio_accuracy data :
  Forall isSample data → 10 < peakOf data →
  (∀ i x y, data !! i = Some x → normalizeAudio data !! i = Some y →
     0 ≤ shortfall (peakOf data) x y ≤ peakOf data) ∧
  (∃ i y, normalizeAudio data !! i = Some y ∧ fullScale y) ∧
  (peakOf data < 128 →
   ∀ i x y, data !! i = Some x → normalizeAudio data !! i = Some y →
     Z.abs (x - 128) ≤ Z.abs (y - 128)).
Proof.
  intros Hdata Hloud. unfold normalizeAudio.
  pose proof (peakOf_samples _ Hdata) as Hmax.
  replace (10 <? peakOf data) with true by (symmetry; apply Z.ltb_lt; lia).
  assert (10 < peakOf data ≤ 128) as Hpeak by lia.
  assert (∀ i x, data !! i = Some x → isSample x ∧ Z.abs (x - 128) ≤ peakOf data)
    as Hsample.
  { intros i x Hi. split; [by apply (Forall_lookup_1 _ _ _ _ Hdata Hi)|].
    apply peakOf_covers. by apply list_elem_of_lookup_2 in Hi. }
  split; [|split].
  - intros i x y Hi Ho. rewrite list_lookup_fmap, Hi in Ho. injection Ho as <-.
    destruct (Hsample _ _ Hi). by apply scaleSample_withinOne.
  - destruct (peakOf_attained data) as (i & x & Hi & Hx); [lia|].
    exists i, (scaleSample (peakOf data) x). rewrite list_lookup_fmap, Hi.
    split; [done|]. destruct (Hsample _ _ Hi). by apply scaleSample_peak.
  - intros Hlt i x y Hi Ho. rewrite list_lookup_fmap, Hi in Ho. injection Ho as <-.
    destruct (Hsample _ _ Hi). apply scaleSample_notQuieter; [lia|done|done].
Qed.

Lemma normalizeAudio_accuracy_witness :
  0 ≤ shortfall (peakOf [128; 141; 115; 120]) 115 0 ≤ peakOf [128; 141; 115; 120].
Proof.
  destruct (normalizeAudio_accuracy [128; 141; 115; 120]) as (Hacc & _ & _).
  - repeat constructor; unfold isSample; lia.
  - vm_compute. reflexivity.
  - apply (Hacc 2%nat 115 0); reflexivity.
Defined.

End AudioCoverage.

(* ===================================================================== *)
(** * Further properties of the notification filter                        *)
(* ===================================================================== *)
Section NotificationCoverage.
Import Notification.

(** ** Comparing clock readings as strings *)

Lemma sameOrder_eq c d : sameOrder c d = true → c = d.
Proof. by destruct c, d. Qed.

Lemma padded_spec a b :
  a < 100 → b < 100 →
  String.compare (padStart 2 "0" (toString a)) (padStart 2 "0" (toString b)) =
    Nat.compare a b ∧
  String.length (padStart 2 "0" (toString a)) = 2.
Proof.
  intros Ha Hb.
  assert (paddedInOrder = true) as Hall by (vm_compute; reflexivity).
  unfold paddedInOrder in Hall. rewrite forallb_forall in Hall.
  assert (In a (seq 0 100)) as Hina by (apply in_seq; lia).
  assert (In b (seq 0 100)) as Hinb by (apply in_seq; lia).
  specialize (Hall _ Hina). rewrite forallb_forall in Hall. specialize (Hall _ Hinb).
  apply andb_true_iff in Hall as [H1 H2].
  split; [by apply sameOrder_eq|by apply Nat.eqb_eq].
Qed.

Lemma compare_append a : ∀ b s t,
  String.length a = String.length b →
  String.compare (a +:+ s) (b +:+ t) =
    match String.compare a b with
    | Eq => String.compare s t
    | c => c
    end.
Proof.
  induction a as [|c a IH]; intros [|d b] s t Hlen; try done.
  simpl. destruct (Ascii.compare c d); try done. apply IH. by injection Hlen.
Qed.

Lemma currentTime_compare h1 m1 h2 m2 :
  h1 < 100 → h2 < 100 → m1 < 60 → m2 < 60 →
  String.compare (currentTime h1 m1) (currentTime h2 m2) =
    Nat.compare (minuteOfDay h1 m1) (minuteOfDay h2 m2).
Proof.
  intros Hh1 Hh2 Hm1 Hm2. unfold currentTime, minuteOfDay.
  destruct (padded_spec h1 h2 Hh1 Hh2) as [Hh Hlen1].
  destruct (padded_spec h2 h1 Hh2 Hh1) as [_ Hlen2].
  destruct (padded_spec m1 m2) as [Hm _]; [lia|lia|].
  rewrite compare_append by congruence. rewrite Hh.
  change (String.compare (":" +:+ ?x) (":" +:+ ?y)) with (String.compare x y).
  rewrite Hm.
  destruct (Nat.compare_spec h1 h2) as [->|Hlt|Hgt].
  - destruct (Nat.compare_spec m1 m2) as [->|Hlt|Hgt]; symmetry.
    + by apply Nat.compare_eq_iff.
    + apply Nat.compare_lt_iff. lia.
    + apply Nat.compare_gt_iff. lia.
  - symmetry. apply Nat.compare_lt_iff. lia.
  - symmetry. apply Nat.compare_gt_iff. lia.
Qed.

Lemma ltb_compare x y a b :
  String.compare x y = Nat.compare a b → String.ltb x y = (a <? b).
Proof.
  unfold String.ltb. intros ->.
  destruct (Nat.compare_spec a b), (Nat.ltb_spec a b); try done; lia.
Qed.

(** ** Quiet hours *)

(** X25. With the start and end of the quiet hours written as zero-padded
    "HH:MM" times, the string comparisons of [isQuietHours] decide exactly
    whether the current minute of the day lies in the quiet period, both
    bounds included, the period running over midnight when its end is
    before its start. *)
Theorem quiet_hours_by_clock config sh sm eh em h m :
  startTime (quietHours config) = currentTime sh sm →
  endTime (quietHours config) = currentTime eh em →
  sh < 24 → sm < 60 → eh < 24 → em < 60 → h < 24 → m < 60 →
  isQuietHours config h m =
    quietByClock (minuteOfDay sh sm) (minuteOfDay eh em) (minuteOfDay h m).
Proof.
  intros Hs He Hsh Hsm Heh Hem Hh Hm.
  unfold isQuietHours, quietByClock, gtString, geString, leString. rewrite Hs, He.
  rewrite (ltb_compare _ _ _ _ (currentTime_compare eh em sh sm ltac:(lia) ltac:(lia) Hem Hsm)).
  rewrite (ltb_compare _ _ _ _ (currentTime_compare h m sh sm ltac:(lia) ltac:(lia) Hm Hsm)).
  rewrite (ltb_compare _ _ _ _ (currentTime_compare eh em h m ltac:(lia) ltac:(lia) Hem Hm)).
  generalize (minuteOfDay sh sm), (minuteOfDay eh em), (minuteOfDay h m). intros s e c.
  destruct (Nat.ltb_spec e s), (Nat.ltb_spec c s), (Nat.ltb_spec e c),
    (Nat.leb_spec s c), (Nat.leb_spec c e); simpl; try done; lia.
Qed.


Lemma quiet_hours_by_clock_witness :
  isQuietHours
    {| enabled := true; soundEnabled := true; vibrationEnabled := true;
       criticalAlertsOnly := false;
       quietHours := {| quietHours_enabled := true; startTime := "22:00";
                        endTime := "07:00" |} |} 23 30 =
  quietByClock (minuteOfDay 22 0) (minuteOfDay 7 0) (minuteOfDay 23 30).
Proof.
  apply (quiet_hours_by_clock
           {| enabled := true; soundEnabled := true; vibrationEnabled := true;
              criticalAlertsOnly := false;
              quietHours := {| quietHours_enabled := true; startTime := "22:00";
                               endTime := "07:00" |} |} 22 0 7 0 23 30);
    (reflexivity || lia).
Defined.

(** ** Which notifications are shown *)

(** X26. With notifications disabled nothing is shown; a critical alert is
    shown whenever notifications are enabled, whatever the quiet hours and
    the critical-only setting; during enabled quiet hours nothing but a
    critical alert is shown; and whenever some message is shown, a critical
    one would have been shown too. *)
Theorem notification_policy config h m data :
  (enabled config = false → shouldShowNotification config h m data = false) ∧
  (severityOf data = "critical" →
   shouldShowNotification config h m data = enabled config) ∧
  (quietHours_enabled (quietHours config) = true → isQuietHours config h m = true →
   severityOf data ≠ "critical" → shouldShowNotification config h m data = false) ∧
  (shouldShowNotification config h m data = true →
   ∀ data', severityOf data' = "critical" →
     shouldShowNotification config h m data' = true).
Proof.
  unfold shouldShowNotification. repeat split.
  - by intros ->.
  - intros ->. destruct (enabled config); [|done]. simpl. by repeat case_match.
  - intros -> -> Hne. destruct (enabled config); [|done]. simpl.
    apply String.eqb_neq in Hne. by rewrite Hne.
  - intros Hshown data' ->. destruct (enabled config); [|done]. simpl.
    by repeat case_match.
Qed.

Lemma notification_policy_witness :
  shouldShowNotification
    {| enabled := true; soundEnabled := true; vibrationEnabled := true;
       criticalAlertsOnly := false;
       quietHours := {| quietHours_enabled := true; startTime := "22:00";
                        endTime := "07:00" |} |} 23 30
    (Some {[ "severity" := "high" ]}) = false.
Proof.
  destruct (notification_policy
              {| enabled := true; soundEnabled := true; vibrationEnabled := true;
                 criticalAlertsOnly := false;
                 quietHours := {| quietHours_enabled := true; startTime := "22:00";
                                  endTime := "07:00" |} |} 23 30
              (Some {[ "severity" := "high" ]})) as (_ & _ & Hquiet & _).
  apply Hquiet; [reflexivity|reflexivity|]. vm_compute. discriminate.
Defined.

(** X27. A message without data, without a severity or with an empty
    severity is treated as one of severity "medium": it is shown exactly
    when notifications are enabled, it is not an enabled quiet hour, and
    the critical-only setting is off. *)
Theorem missing_severity_is_medium config h m data :
  data ≫= (λ d, d !! "severity") = None ∨ data ≫= (λ d, d !! "severity") = Some "" →
  shouldShowNotification config h m data =
    shouldShowNotification config h m (Some {[ "severity" := "medium" ]}) ∧
  shouldShowNotification config h m data =
    enabled config &&
    negb (quietHours_enabled (quietHours config) && isQuietHours config h m) &&
    negb (criticalAlertsOnly config).
Proof.
  intros Hmissing.
  assert (severityOf data = "medium") as Hsev
    by (unfold severityOf; by destruct Hmissing as [-> | ->]).
  assert (severityOf (Some {[ "severity" := "medium" ]}) = "medium") as Hmed
    by (unfold severityOf; simpl; by rewrite lookup_singleton_eq).
  unfold shouldShowNotification. rewrite Hsev, Hmed. split; [done|].
  destruct (enabled config); [|done]. simpl.
  destruct (quietHours_enabled (quietHours config) && isQuietHours config h m); [done|].
  by destruct (criticalAlertsOnly config).
Qed.

Lemma missing_severity_is_medium_witness :
  shouldShowNotification
    {| enabled := true; soundEnabled := true; vibrationEnabled := true;
       criticalAlertsOnly := true;
       quietHours := {| quietHours_enabled := false; startTime := "22:00";
                        endTime := "07:00" |} |} 12 0 (Some ∅) =
  shouldShowNotification
    {| enabled := true; soundEnabled := true; vibrationEnabled := true;
       criticalAlertsOnly := true;
       quietHours := {| quietHours_enabled := false; startTime := "22:00";
                        endTime := "07:00" |} |} 12 0 (Some {[ "severity" := "medium" ]}).
Proof.
  apply (missing_severity_is_medium
           {| enabled := true; soundEnabled := true; vibrationEnabled := true;
              criticalAlertsOnly := true;
              quietHours := {| quietHours_enabled := false; startTime := "22:00";
                               endTime := "07:00" |} |} 12 0 (Some ∅)).
  left. reflexivity.
Defined.

End NotificationCoverage.
